(** * StudentMCP: the knowledge-graph store, its queries and the end-session
    workflow of [src/index.ts], embedded as Rocq functions.

    Conventions of the embedding.
    - A JavaScript string is a [string] whose characters are the UTF-16 code
      units below 256; [toLowerCase], [isWhiteSpace] and [trim] are the
      ECMAScript functions restricted to that range.
    - The two JSON documents on disk are the two fields of [World]; a missing
      document reads as the empty graph / the empty session map, as the code's
      [catch] branches make it.
    - An [async] method is a computation [IO A]: it reads and writes the
      [World] and either returns or throws an [Error] with its message.
    - JavaScript numbers that hold timestamps, depths and day counts are
      integers ([Z]); the clock and the date parser of the runtime are
      parameters. *)

From Stdlib Require Import ZArith Ascii String List Lia.
From stdpp Require Import base option list sorting strings gmap pretty.

Open Scope string_scope.
Open Scope Z_scope.
Open Scope list_scope.

(** ** JavaScript string primitives *)

Module JsString.

Definition code (c : ascii) : N := N_of_ascii c.

(** [\s] of a regular expression and the set stripped by [trim]:
    TAB, LF, VT, FF, CR, SPACE and NBSP are the members below 256. *)
Definition isWhiteSpace (c : ascii) : bool :=
  let n := code c in
  ((9 <=? n) && (n <=? 13) || (n =? 32) || (n =? 160))%N.

(** Simple case mapping of one code unit: A-Z, and the Latin-1 capitals
    U+00C0..U+00DE except the multiplication sign U+00D7. *)
Definition lowerChar (c : ascii) : ascii :=
  let n := code c in
  if ((65 <=? n) && (n <=? 90)
      || (192 <=? n) && (n <=? 222) && negb (n =? 215))%N
  then ascii_of_N (n + 32) else c.

Fixpoint toLowerCase (s : string) : string :=
  match s with
  | EmptyString => EmptyString
  | String c s' => String (lowerChar c) (toLowerCase s')
  end.

(** [s.startsWith(p)] *)
Fixpoint startsWith (s p : string) {struct p} : bool :=
  match p, s with
  | EmptyString, _ => true
  | String _ _, EmptyString => false
  | String a p', String b s' => Ascii.eqb a b && startsWith s' p'
  end.

(** [s.includes(t)]: [t] occurs in [s] as a contiguous substring. *)
Fixpoint includes (s t : string) : bool :=
  startsWith s t ||
  match s with
  | EmptyString => false
  | String _ s' => includes s' t
  end.

(** [s.split(/\s+/)].  [cur] is the piece being read; [inws] tells that the
    previous character belonged to the separator run that closed the last
    piece.  The result always has at least one piece. *)
Fixpoint splitWsFrom (inws : bool) (cur : string) (s : string) : list string :=
  match s with
  | EmptyString => [cur]
  | String c s' =>
      if isWhiteSpace c
      then if inws then splitWsFrom true cur s'
           else cur :: splitWsFrom true EmptyString s'
      else splitWsFrom false (cur +:+ String c EmptyString) s'
  end.

Definition splitWs (s : string) : list string := splitWsFrom false EmptyString s.

(** [s.split(sep)] for a one-character separator. *)
Fixpoint splitCharFrom (sep : ascii) (cur : string) (s : string) : list string :=
  match s with
  | EmptyString => [cur]
  | String c s' =>
      if Ascii.eqb c sep then cur :: splitCharFrom sep EmptyString s'
      else splitCharFrom sep (cur +:+ String c EmptyString) s'
  end.

Definition splitChar (sep : ascii) (s : string) : list string :=
  splitCharFrom sep EmptyString s.

Fixpoint trimStart (s : string) : string :=
  match s with
  | String c s' => if isWhiteSpace c then trimStart s' else s
  | EmptyString => EmptyString
  end.

Fixpoint trimEnd (s : string) : string :=
  match s with
  | EmptyString => EmptyString
  | String c s' =>
      match trimEnd s' with
      | EmptyString => if isWhiteSpace c then EmptyString else String c EmptyString
      | t => String c t
      end
  end.

Definition trim (s : string) : string := trimEnd (trimStart s).

(** [s.replace(/-/g, "")] *)
Fixpoint removeHyphens (s : string) : string :=
  match s with
  | EmptyString => EmptyString
  | String c s' =>
      if Ascii.eqb c "-"%char then removeHyphens s' else String c (removeHyphens s')
  end.

(** [parts.join(sep)] *)
Fixpoint join (sep : string) (parts : list string) : string :=
  match parts with
  | [] => EmptyString
  | [p] => p
  | p :: rest => p +:+ sep +:+ join sep rest
  end.

(** Truthiness of a string: only the empty string is falsy. *)
Definition truthy (s : string) : bool := negb (s =? "")%string.

End JsString.
Import JsString.

(** ** Data model (interfaces [Entity], [Relation], [KnowledgeGraph]) *)

Definition validEntityTypes : list string :=
  [ "course"; "assignment"; "exam"; "concept"; "resource"; "note";
    "lecture"; "project"; "question"; "term"; "goal"; "professor" ].

Definition VALID_RELATION_TYPES : list string :=
  [ "enrolled_in"; "assigned_in"; "due_on"; "covers"; "references";
    "prerequisite_for"; "taught_by"; "scheduled_for"; "contains"; "requires";
    "related_to"; "created_for"; "studies"; "helps_with"; "submitted";
    "part_of"; "included_in"; "follows"; "attends"; "graded_with" ].

(** [array.includes(x)] on strings *)
Definition inList (x : string) (l : list string) : bool :=
  existsb (fun y => (y =? x)%string) l.

Definition isValidEntityType (type : string) : bool := inList type validEntityTypes.

(** The entity type is kept as the string the stored document holds; the
    enumeration is enforced at run time by [validateEntityType] only. The
    optional [embedding] field, which no operation reads, is left out. *)
Record Entity := mkEntity {
  name : string;
  entityType : string;
  observations : list string
}.

Record Relation := mkRelation {
  from : string;
  to : string;
  relationType : string;
  relObservations : option (list string)
}.

Record KnowledgeGraph := mkGraph {
  entities : list Entity;
  relations : list Relation
}.

Definition emptyGraph : KnowledgeGraph := mkGraph [] [].

(** ** Session-state document

    A session is a list of items; the code stores untyped objects tagged by
    [type]. The stage payload ([stageData?: any]) is given the shapes the
    tool documents; reading a field a shape lacks gives [undefined], which
    every reader below replaces by its default. *)

Record AssignmentUpdate := mkUpdate {
  updName : string;
  updStatus : string
}.

Record NewConcept := mkNewConcept {
  ncName : string;
  ncDescription : string
}.

(** What [assembleEndSessionArgs] returns; the three lists travel through
    [JSON.stringify] / [JSON.parse], which gives them back unchanged. *)
Record EndSessionArgs := mkArgs {
  argDate : string;
  argSummary : string;
  argDuration : string;
  argCourse : string;
  argConceptsLearned : list string;
  argAssignmentUpdates : list AssignmentUpdate;
  argCourseStatus : string;
  argCourseObservation : string;
  argNewConcepts : list NewConcept
}.

Inductive StageData :=
| SummaryData (summary duration course : string)
| ConceptsLearnedData (concepts : list string)
| AssignmentUpdatesData (updates : list AssignmentUpdate)
| NewConceptsData (concepts : list NewConcept)
| CourseStatusData (courseStatus courseObservation : string)
| AssembledData (args : EndSessionArgs).

Record StageResult := mkStageResult {
  srStage : string;
  srStageNumber : Z;
  srAnalysis : string;
  srStageData : StageData;
  srCompleted : bool
}.

Inductive SessionItem :=
| AnalysisStage (result : StageResult)
| ContextLoaded (timestamp entityName entityTypeName : string)
| SessionCompleted (timestamp date summary course : string).

(** ** The persisted world and the computations over it *)

Record World := mkWorld {
  memoryFile : KnowledgeGraph;
  sessionsFile : gmap string (list SessionItem)
}.

Inductive Outcome (A : Type) :=
| Returned (a : A)
| Thrown (message : string).
Arguments Returned {A} a.
Arguments Thrown {A} message.

Definition IO (A : Type) : Type := World -> Outcome A * World.

#[global] Instance IO_ret : MRet IO := fun A a w => (Returned a, w).

#[global] Instance IO_bind : MBind IO := fun A B f m w =>
  match m w with
  | (Returned a, w') => f a w'
  | (Thrown msg, w') => (Thrown msg, w')
  end.

Definition throw {A : Type} (message : string) : IO A :=
  fun w => (Thrown message, w).

(** [try { m } catch (error) { handler(error.message) }] *)
Definition tryCatch {A : Type} (m : IO A) (handler : string -> IO A) : IO A :=
  fun w =>
    match m w with
    | (Returned a, w') => (Returned a, w')
    | (Thrown msg, w') => handler msg w'
    end.

(** [for (const x of l) { body(x) }] *)
Fixpoint forOf {A : Type} (l : list A) (body : A -> IO unit) : IO unit :=
  match l with
  | [] => mret tt
  | x :: rest => body x ;; forOf rest body
  end.

Definition when (b : bool) (m : IO unit) : IO unit := if b then m else mret tt.

(** ** KnowledgeGraphManager: the store *)

Definition validateEntityType (type : string) : IO unit :=
  when (negb (isValidEntityType type))
    (throw ("Invalid entity type: " +:+ type +:+ ". Valid types are: "
            +:+ join ", " validEntityTypes)).

Definition loadGraph : IO KnowledgeGraph :=
  fun w => (Returned (memoryFile w), w).

Definition saveGraph (graph : KnowledgeGraph) : IO unit :=
  fun w => (Returned tt, mkWorld graph (sessionsFile w)).

(** [graph.entities.some(e => e.name === n)] *)
Definition hasEntity (graph : KnowledgeGraph) (n : string) : bool :=
  existsb (fun e => (name e =? n)%string) (entities graph).

(** [graph.relations.some(r => r.from === .. && r.to === .. && r.relationType === ..)] *)
Definition sameTriple (r r' : Relation) : bool :=
  (from r =? from r')%string && (to r =? to r')%string
  && (relationType r =? relationType r')%string.

Definition hasRelation (graph : KnowledgeGraph) (relation : Relation) : bool :=
  existsb (fun r => sameTriple r relation) (relations graph).

(** The body of the validation loop of [createEntities]. *)
Definition checkEntity (graph : KnowledgeGraph) (entity : Entity) : IO unit :=
  when (hasEntity graph (name entity))
    (throw ("Entity with name " +:+ name entity +:+ " already exists")) ;;
  validateEntityType (entityType entity).

Definition createEntities (newEntities : list Entity) : IO KnowledgeGraph :=
  graph ← loadGraph;
  forOf newEntities (checkEntity graph) ;;
  let graph := mkGraph (entities graph ++ newEntities) (relations graph) in
  saveGraph graph ;;
  mret graph.

(** The body of the validation loop of [createRelations]. *)
Definition checkRelation (graph : KnowledgeGraph) (relation : Relation) : IO unit :=
  when (negb (hasEntity graph (from relation)))
    (throw ("Entity '" +:+ from relation +:+ "' not found")) ;;
  when (negb (hasEntity graph (to relation)))
    (throw ("Entity '" +:+ to relation +:+ "' not found")) ;;
  when (negb (inList (relationType relation) VALID_RELATION_TYPES))
    (throw ("Invalid relation type: " +:+ relationType relation
            +:+ ". Valid types are: " +:+ join ", " VALID_RELATION_TYPES)) ;;
  when (hasRelation graph relation)
    (throw ("Relation from '" +:+ from relation +:+ "' to '" +:+ to relation
            +:+ "' with type '" +:+ relationType relation +:+ "' already exists")).

Definition createRelations (newRelations : list Relation) : IO KnowledgeGraph :=
  graph ← loadGraph;
  forOf newRelations (checkRelation graph) ;;
  let graph := mkGraph (entities graph) (relations graph ++ newRelations) in
  saveGraph graph ;;
  mret graph.

(** The entity that [find] returns is mutated in place: the first entity
    satisfying [p] is replaced by its image under [f]. *)
Fixpoint updateFirst (p : Entity -> bool) (f : Entity -> Entity)
    (l : list Entity) : list Entity :=
  match l with
  | [] => []
  | e :: rest => if p e then f e :: rest else e :: updateFirst p f rest
  end.

Definition addObservations (entityName : string) (texts : list string)
    : IO KnowledgeGraph :=
  graph ← loadGraph;
  let isIt := fun e => (name e =? entityName)%string in
  match List.find isIt (entities graph) with
  | None => throw ("Entity '" +:+ entityName +:+ "' not found")
  | Some _ =>
      let push := fun e =>
        mkEntity (name e) (entityType e) (observations e ++ texts) in
      let graph := mkGraph (updateFirst isIt push (entities graph)) (relations graph) in
      saveGraph graph ;;
      mret graph
  end.

Definition deleteEntities (entityNames : list string) : IO unit :=
  graph ← loadGraph;
  let remaining :=
    List.filter (fun e => negb (inList (name e) entityNames)) (entities graph) in
  let kept :=
    List.filter (fun r => negb (inList (from r) entityNames)
                          && negb (inList (to r) entityNames))
                (relations graph) in
  saveGraph (mkGraph remaining kept).

Record Deletion := mkDeletion {
  delEntityName : string;
  delObservations : list string
}.

Definition deleteObservations (deletions : list Deletion) : IO unit :=
  graph ← loadGraph;
  let step := fun (es : list Entity) (deletion : Deletion) =>
    updateFirst (fun e => (name e =? delEntityName deletion)%string)
      (fun e => mkEntity (name e) (entityType e)
         (List.filter (fun o => negb (inList o (delObservations deletion)))
                      (observations e)))
      es in
  saveGraph (mkGraph (foldl step (entities graph) deletions) (relations graph)).

Definition deleteRelations (toDelete : list Relation) : IO unit :=
  graph ← loadGraph;
  saveGraph (mkGraph (entities graph)
    (List.filter (fun r => negb (existsb (fun d => sameTriple r d) toDelete))
                 (relations graph))).

Definition readGraph : IO KnowledgeGraph := loadGraph.

(** One search term against one entity: name, then type, then the
    observations in order, each lowercased. *)
Definition matchesTerm (entity : Entity) (term : string) : bool :=
  includes (toLowerCase (name entity)) term
  || includes (toLowerCase (entityType entity)) term
  || existsb (fun observation => includes (toLowerCase observation) term)
             (observations entity).

Definition matchesAllTerms (terms : list string) (entity : Entity) : bool :=
  forallb (matchesTerm entity) terms.

(** The [Set<string>] filled by the loop over the entities. *)
Definition matchingNames (terms : list string) (es : list Entity) : gset string :=
  foldl (fun (acc : gset string) entity =>
           if matchesAllTerms terms entity then acc ∪ {[ name entity ]} else acc)
        ∅ es.

Definition has (s : gset string) (x : string) : bool := bool_decide (x ∈ s).

Definition searchNodes (query : string) : IO KnowledgeGraph :=
  graph ← loadGraph;
  let terms := splitWs (toLowerCase query) in
  let matchingEntityNames := matchingNames terms (entities graph) in
  let matchingRelations :=
    List.filter (fun r => has matchingEntityNames (from r)
                          && has matchingEntityNames (to r))
                (relations graph) in
  mret (mkGraph
          (List.filter (fun e => has matchingEntityNames (name e)) (entities graph))
          matchingRelations).

Definition openNodes (names : list string) : IO KnowledgeGraph :=
  graph ← loadGraph;
  mret (mkGraph
          (List.filter (fun e => inList (name e) names) (entities graph))
          (List.filter (fun r => inList (from r) names && inList (to r) names)
                       (relations graph))).

(** ** KnowledgeGraphManager: upcoming deadlines *)

(** [array.sort((a, b) => key(a) - key(b))]: the sort of ECMAScript is
    stable, so with a comparator that is a difference of integer keys its
    result is the insertion of each element behind its equals. *)
Fixpoint insertBy {A : Type} (key : A -> Z) (x : A) (l : list A) : list A :=
  match l with
  | [] => [x]
  | y :: rest => if key x <=? key y then x :: y :: rest else y :: insertBy key x rest
  end.

Definition sortBy {A : Type} (key : A -> Z) (l : list A) : list A :=
  foldr (insertBy key) [] l.

(** [Math.ceil(a / b)] for an integer [a] and a positive integer [b]; below
    2^53 the double quotient rounds up to the same integer. *)
Definition ceilDiv (a b : Z) : Z := - ((- a) / b).

Definition MS_PER_DAY : Z := 1000 * 60 * 60 * 24.

Record Deadline := mkDeadline {
  dlEntity : Entity;
  dlDueDate : Z;
  dlCourse : Entity;
  daysRemaining : Z
}.

(** The object returned by [getUpcomingDeadlines]. The two dates are kept
    as the time values of [today] and [endDate], the ends of the window;
    the code returns [toISOString().slice(0, 10)] of each, a UTC date text
    that is not modelled. *)
Record DeadlineReport := mkReport {
  deadlines : list Deadline;
  startDate : Z;
  endDate : Z;
  courseFilter : option string;
  termFilter : option string;
  count : nat
}.

(** [graph.entities.find(e => e.name === n && e.entityType === type)] *)
Definition findEntity (graph : KnowledgeGraph) (n type : string) : option Entity :=
  List.find (fun e => (name e =? n)%string && (entityType e =? type)%string)
            (entities graph).

(** [obs.split(':')[1].trim()] of an observation that starts with a key and
    a colon (so that piece 1 exists). *)
Definition fieldValue (observation : string) : string :=
  match splitChar ":" observation with
  | _ :: value :: _ => trim value
  | _ => ""
  end.

(** An optional string argument used as a condition: absent and empty are
    both falsy. *)
Definition given (arg : option string) : option string :=
  match arg with
  | Some s => if truthy s then Some s else None
  | None => None
  end.

Section Deadlines.

(** [new Date(text).getTime()]; [None] is the invalid date, whose
    comparisons are all false. *)
Variable Date_parse : string -> option Z.

(** The timestamp of [endDate] after [endDate.setDate(today.getDate() +
    daysAhead)], computed by the runtime in local time from the current
    instant and the number of days. *)
Variable endDateOf : Z -> Z -> Z.

(** The record pushed for an entity whose [key] observation holds a date
    inside the window, if any. *)
Definition datedWithin (key : string) (today endDate : Z)
    (entity course : Entity) : list Deadline :=
  match List.find (fun o => startsWith o key) (observations entity) with
  | Some dateObs =>
      match Date_parse (fieldValue dateObs) with
      | Some dueDate =>
          if (today <=? dueDate) && (dueDate <=? endDate)
          then [ mkDeadline entity dueDate course
                   (ceilDiv (dueDate - today) MS_PER_DAY) ]
          else []
      | None => []
      end
  | None => []
  end.

Definition assignmentDeadlines (graph : KnowledgeGraph) (today endDate : Z)
    (course : Entity) : list Deadline :=
  flat_map (fun relation =>
    if (relationType relation =? "assigned_in")%string
       && (to relation =? name course)%string
    then match findEntity graph (from relation) "assignment" with
         | Some assignment => datedWithin "Due:" today endDate assignment course
         | None => []
         end
    else []) (relations graph).

Definition examDeadlines (graph : KnowledgeGraph) (today endDate : Z)
    (course : Entity) : list Deadline :=
  flat_map (fun relation =>
    if (relationType relation =? "scheduled_for")%string
       && (from relation =? name course)%string
    then match findEntity graph (to relation) "exam" with
         | Some exam => datedWithin "Date:" today endDate exam course
         | None => []
         end
    else []) (relations graph).

(** The courses kept by the term filter of [getUpcomingDeadlines]. *)
Definition coursesOfTerm (graph : KnowledgeGraph) (termName : string) : list Entity :=
  flat_map (fun relation =>
    if (relationType relation =? "part_of")%string
       && (from relation =? to relation)%string
       && (to relation =? termName)%string
    then match findEntity graph (from relation) "course" with
         | Some course => [course]
         | None => []
         end
    else []) (relations graph).

Definition getUpcomingDeadlines (now : Z) (termName courseName : option string)
    (daysAhead : option Z) : IO DeadlineReport :=
  let daysAhead := default 14 daysAhead in
  graph ← loadGraph;
  let today := now in
  let endDate := endDateOf now daysAhead in
  relevantCourses ←
    match given termName with
    | Some termName =>
        match findEntity graph termName "term" with
        | None => throw ("Term '" +:+ termName +:+ "' not found")
        | Some _ => mret (coursesOfTerm graph termName)
        end
    | None =>
        mret (List.filter (fun e => (entityType e =? "course")%string) (entities graph))
    end;
  relevantCourses ←
    match given courseName with
    | Some courseName =>
        let kept := List.filter (fun c => (name c =? courseName)%string) relevantCourses in
        match kept with
        | [] => throw ("Course '" +:+ courseName +:+ "' not found")
        | _ => mret kept
        end
    | None => mret relevantCourses
    end;
  let found :=
    flat_map (fun course =>
      assignmentDeadlines graph today endDate course
      ++ examDeadlines graph today endDate course) relevantCourses in
  let sorted := sortBy dlDueDate found in
  mret (mkReport sorted today endDate courseName termName (length sorted)).

End Deadlines.

(** The sibling query [getTermOverview] selects the courses of a term by
    [relation.relationType === 'part_of' && relation.to === termName]. *)
Definition termOverviewCourses (graph : KnowledgeGraph) (termName : string) : list Entity :=
  flat_map (fun relation =>
    if (relationType relation =? "part_of")%string
       && (to relation =? termName)%string
    then match findEntity graph (from relation) "course" with
         | Some course => [course]
         | None => []
         end
    else []) (relations graph).

(** ** KnowledgeGraphManager: related concepts *)

Record QueueItem := mkItem {
  itemName : string;
  currentDepth : Z;
  path : list string
}.

Record RelatedConcept := mkRelated {
  concept : Entity;
  relationPath : list string;
  depth : Z;
  courses : list Entity;
  resources : list Entity
}.

Record RelatedReport := mkRelatedReport {
  seed : Entity;
  relatedConcepts : list RelatedConcept;
  totalRelated : nat;
  maxDepth : Z
}.

(** The entities of type [type] at the source of a [relType] relation into
    [target] (the [courses] and [resources] loops). *)
Definition sourcesInto (graph : KnowledgeGraph) (relType type target : string)
    : list Entity :=
  flat_map (fun relation =>
    if (relationType relation =? relType)%string && (to relation =? target)%string
    then match findEntity graph (from relation) type with
         | Some e => [e]
         | None => []
         end
    else []) (relations graph).

(** The neighbour reached through [relation] from [current] and whether the
    relation was followed forwards. *)
Definition neighbour (current : string) (relation : Relation) : option (string * bool) :=
  if (from relation =? current)%string then Some (to relation, true)
  else if (to relation =? current)%string then Some (from relation, false)
  else None.

(** One of the two loops over the relations at the end of an iteration:
    every not yet processed neighbour along a [relType] relation is marked
    and queued one level deeper. *)
Definition enqueueNeighbours (relType : string)
    (describe : string -> bool -> string)
    (current : string) (d : Z) (here : list string)
    (rels : list Relation) (state : gset string * list QueueItem)
    : gset string * list QueueItem :=
  foldl (fun (st : gset string * list QueueItem) relation =>
    if (relationType relation =? relType)%string
    then match neighbour current relation with
         | Some (nextConcept, forwards) =>
             if truthy nextConcept && negb (has st.1 nextConcept)
             then (st.1 ∪ {[ nextConcept ]},
                   st.2 ++ [ mkItem nextConcept (d + 1)
                               (here ++ [describe nextConcept forwards]) ])
             else st
         | None => st
         end
    else st) state rels.

Definition describeRelated (nextConcept : string) (forwards : bool) : string :=
  "related_to " +:+ nextConcept.

Definition describePrerequisite (nextConcept : string) (forwards : bool) : string :=
  if forwards then "prerequisite_for " +:+ nextConcept
  else nextConcept +:+ " is_prerequisite_for this".

(** The body of the [while] loop for the item taken by [queue.shift()];
    [queue] is the rest of the queue. The result is the queue, the set of
    processed names and the results after the iteration. *)
Definition iteration (graph : KnowledgeGraph) (conceptName : string) (maxD : Z)
    (item : QueueItem) (queue : list QueueItem) (processedConcepts : gset string)
    (related : list RelatedConcept)
    : list QueueItem * gset string * list RelatedConcept :=
  let n := itemName item in
  let d := currentDepth item in
  if (maxD <? d) && negb (n =? conceptName)%string
  then (queue, processedConcepts, related)
  else
    match findEntity graph n "concept" with
    | None => (queue, processedConcepts, related)
    | Some currentConcept =>
        let related :=
          if negb (n =? conceptName)%string
          then related ++
               [ mkRelated currentConcept (path item) d
                   (sourcesInto graph "covers" "course" n)
                   (sourcesInto graph "helps_with" "resource" n) ]
          else related in
        let st :=
          enqueueNeighbours "related_to" describeRelated n d (path item)
            (relations graph) (processedConcepts, queue) in
        let st :=
          enqueueNeighbours "prerequisite_for" describePrerequisite n d
            (path item) (relations graph) st in
        (st.2, st.1, related)
    end.

(** The [while (queue.length > 0)] loop; [fuel] bounds the iterations. *)
Fixpoint processQueue (fuel : nat) (graph : KnowledgeGraph) (conceptName : string)
    (maxD : Z) (queue : list QueueItem) (processedConcepts : gset string)
    (related : list RelatedConcept) : option (list RelatedConcept) :=
  match queue with
  | [] => Some related
  | item :: queue =>
      match fuel with
      | O => None
      | S fuel =>
          let '(queue, processedConcepts, related) :=
            iteration graph conceptName maxD item queue processedConcepts related in
          processQueue fuel graph conceptName maxD queue processedConcepts related
      end
  end.

(** Every name but the seed enters the queue once and is an end of some
    relation, which bounds the iterations of the loop. *)
Definition queueFuel (graph : KnowledgeGraph) : nat :=
  S (2 * length (relations graph)).

Definition findRelatedConcepts (conceptName : string) (requested : option Z)
    : IO RelatedReport :=
  let maxD := default 1 requested in
  graph ← loadGraph;
  match findEntity graph conceptName "concept" with
  | None => throw ("Concept '" +:+ conceptName +:+ "' not found")
  | Some seedConcept =>
      match processQueue (queueFuel graph) graph conceptName maxD
              [ mkItem conceptName 0 [] ] {[ conceptName ]} [] with
      | Some found =>
          let sorted := sortBy depth found in
          mret (mkRelatedReport seedConcept sorted (length sorted) maxD)
      | None => throw "traversal did not finish"
      end
  end.

(** ** Session workflow: the [endsession] tool *)

Record EndSessionParams := mkParams {
  sessionId : string;
  stage : string;
  stageNumber : Z;
  totalStages : Z;
  analysis : option string;
  stageData : option StageData;
  nextStageNeeded : bool;
  isRevision : option bool;
  revisesStage : option positive
}.

(** The JSON envelope of the tool's answer; the formatted summary text of a
    recorded session is left out. *)
Inductive ToolResult :=
| Failure (error : string)
| StageAccepted (stageCompleted : string) (more : bool)
    (stageResult : StageResult) (endSessionArgs : option StageData)
| SessionRecorded (stageCompleted : string) (stageResult : StageResult).

Definition loadSessionStates : IO (gmap string (list SessionItem)) :=
  fun w => (Returned (sessionsFile w), w).

Definition saveSessionStates (sessionsMap : gmap string (list SessionItem)) : IO unit :=
  fun w => (Returned tt, mkWorld (memoryFile w) sessionsMap).

(** [x || fallback] on strings *)
Definition orElse (x fallback : string) : string :=
  if truthy x then x else fallback.

Definition isAnalysisStage (item : SessionItem) : bool :=
  match item with
  | AnalysisStage _ => true
  | _ => false
  end.

(** [stages.find(s => s.stage === stageName)]; only analysis stages carry a
    [stage] field. *)
Definition findStage (stages : list SessionItem) (stageName : string)
    : option StageResult :=
  match List.find (fun s => match s with
                            | AnalysisStage r => (srStage r =? stageName)%string
                            | _ => false
                            end) stages with
  | Some (AnalysisStage r) => Some r
  | _ => None
  end.

Definition readSummary (d : StageData) : string :=
  match d with
  | SummaryData summary _ _ => summary
  | AssembledData args => argSummary args
  | _ => ""
  end.

Definition readDuration (d : StageData) : string :=
  match d with
  | SummaryData _ duration _ => duration
  | AssembledData args => argDuration args
  | _ => ""
  end.

Definition readCourse (d : StageData) : string :=
  match d with
  | SummaryData _ _ course => course
  | AssembledData args => argCourse args
  | _ => ""
  end.

Definition readConceptNames (d : StageData) : list string :=
  match d with
  | ConceptsLearnedData concepts => concepts
  | _ => []
  end.

Definition readUpdates (d : StageData) : list AssignmentUpdate :=
  match d with
  | AssignmentUpdatesData updates => updates
  | _ => []
  end.

Definition readNewConcepts (d : StageData) : list NewConcept :=
  match d with
  | NewConceptsData concepts => concepts
  | _ => []
  end.

Definition readCourseStatus (d : StageData) : string :=
  match d with
  | CourseStatusData courseStatus _ => courseStatus
  | AssembledData args => argCourseStatus args
  | _ => ""
  end.

Definition readCourseObservation (d : StageData) : string :=
  match d with
  | CourseStatusData _ courseObservation => courseObservation
  | AssembledData args => argCourseObservation args
  | _ => ""
  end.

(** [stage?.stageData?.field || fallback] *)
Definition fromStage {A : Type} (st : option StageResult) (read : StageData -> A)
    (missing : A) : A :=
  match st with
  | Some r => read (srStageData r)
  | None => missing
  end.

(** [date] is [new Date().toISOString().split('T')[0]] at the call. *)
Definition assembleEndSessionArgs (date : string) (stages : list SessionItem)
    : EndSessionArgs :=
  let summaryStage := findStage stages "summary" in
  let conceptsLearnedStage := findStage stages "conceptsLearned" in
  let assignmentUpdatesStage := findStage stages "assignmentUpdates" in
  let newConceptsStage := findStage stages "newConcepts" in
  let courseStatusStage := findStage stages "courseStatus" in
  mkArgs date
    (orElse (fromStage summaryStage readSummary "") "")
    (orElse (fromStage summaryStage readDuration "") "unknown")
    (orElse (fromStage summaryStage readCourse "") "")
    (fromStage conceptsLearnedStage readConceptNames [])
    (fromStage assignmentUpdatesStage readUpdates [])
    (orElse (fromStage courseStatusStage readCourseStatus "") "")
    (orElse (fromStage courseStatusStage readCourseObservation "") "")
    (fromStage newConceptsStage readNewConcepts []).

Definition processStage (date : string) (params : EndSessionParams)
    (previousStages : list SessionItem) : IO StageResult :=
  let plain := fun (missing : StageData) =>
    mret (mkStageResult (stage params) (stageNumber params)
            (orElse (default "" (analysis params)) "")
            (default missing (stageData params))
            (negb (nextStageNeeded params))) in
  if (stage params =? "summary")%string then plain (SummaryData "" "" "")
  else if (stage params =? "conceptsLearned")%string then plain (ConceptsLearnedData [])
  else if (stage params =? "assignmentUpdates")%string then plain (AssignmentUpdatesData [])
  else if (stage params =? "newConcepts")%string then plain (NewConceptsData [])
  else if (stage params =? "courseStatus")%string then plain (CourseStatusData "" "")
  else if (stage params =? "assembly")%string then
    mret (mkStageResult "assembly" (stageNumber params)
            "Final assembly of end-session arguments"
            (AssembledData (assembleEndSessionArgs date previousStages))
            true)
  else throw ("Unknown stage: " +:+ stage params).

(** Step 3 of the assembly for one reported update. *)
Definition updateAssignment (course : string) (assignment : AssignmentUpdate)
    : IO unit :=
  assignmentGraph ← searchNodes ("name:" +:+ updName assignment);
  match entities assignmentGraph with
  | assignmentEntity :: _ =>
      let kept :=
        List.filter (fun o => negb (startsWith o "status:"))
                    (observations assignmentEntity)
        ++ [ "status:" +:+ updStatus assignment ] in
      deleteEntities [ updName assignment ] ;;
      createEntities [ mkEntity (updName assignment) "assignment" kept ] ;;
      when (updStatus assignment =? "completed")%string
        (createRelations [ mkRelation course (updName assignment) "created_for" None ] ;;
         mret tt)
  | [] => mret tt
  end.

(** Step 4 of the assembly. *)
Definition updateCourse (date course courseStatus courseObservation : string)
    : IO unit :=
  courseGraph ← searchNodes ("name:" +:+ course);
  match entities courseGraph with
  | courseEntity :: _ =>
      let kept :=
        List.filter (fun o => negb (startsWith o "status:")
                              && negb (startsWith o "updated:"))
                    (observations courseEntity)
        ++ [ "status:" +:+ courseStatus ] ++ [ "updated:" +:+ date ]
        ++ (if truthy courseObservation then [ courseObservation ] else []) in
      deleteEntities [ course ] ;;
      createEntities [ mkEntity course "course" kept ] ;;
      mret tt
  | [] => mret tt
  end.

Definition containsRelations (course : string) (targets : list Entity)
    : list Relation :=
  map (fun c => mkRelation course (name c) "contains" None) targets.

(** The graph mutations of the terminal assembly stage, steps 2 to 5. *)
Definition applyAssembly (args : EndSessionArgs) : IO unit :=
  let date := argDate args in
  let course := argCourse args in
  let conceptEntities :=
    imap (fun i c =>
            mkEntity ("Concept_" +:+ removeHyphens date +:+ "_" +:+ pretty (S i))
                     "concept" [ c ])
         (argConceptsLearned args) in
  match conceptEntities with
  | [] => mret tt
  | _ => createEntities conceptEntities ;;
         createRelations (containsRelations course conceptEntities) ;;
         mret tt
  end ;;
  forOf (argAssignmentUpdates args) (updateAssignment course) ;;
  updateCourse date course (argCourseStatus args) (argCourseObservation args) ;;
  match argNewConcepts args with
  | [] => mret tt
  | newConcepts =>
      let newConceptEntities :=
        map (fun c => mkEntity (ncName c) "concept"
                        [ ncDescription c; "last_studied:" +:+ date ])
            newConcepts in
      createEntities newConceptEntities ;;
      createRelations (containsRelations course newConceptEntities) ;;
      mret tt
  end.

(** The stage list after the current stage has been stored. *)
Definition storeStage (params : EndSessionParams) (sessionState : list SessionItem)
    (stageResult : StageResult) : list SessionItem :=
  match isRevision params, revisesStage params with
  | Some true, Some revised =>
      let analysisStages := List.filter isAnalysisStage sessionState in
      let analysisStages :=
        if (Pos.to_nat revised <=? length analysisStages)%nat
        then <[ Nat.pred (Pos.to_nat revised) := AnalysisStage stageResult ]> analysisStages
        else analysisStages ++ [ AnalysisStage stageResult ] in
      List.filter (fun item => negb (isAnalysisStage item)) sessionState
      ++ analysisStages
  | _, _ => sessionState ++ [ AnalysisStage stageResult ]
  end.

(** The handler of the tool. [date] and [timestamp] are the two readings of
    the clock ([assembleEndSessionArgs] and the completion marker). *)
Definition endsession (date timestamp : string) (params : EndSessionParams)
    : IO ToolResult :=
  tryCatch
    (sessionStates ← loadSessionStates;
     match sessionStates !! sessionId params with
     | None =>
         mret (Failure ("Session with ID " +:+ sessionId params
                        +:+ " not found. Please start a new session with startsession."))
     | Some sessionState =>
         stageResult ← processStage date params sessionState;
         let sessionState := storeStage params sessionState stageResult in
         let sessionStates := <[ sessionId params := sessionState ]> sessionStates in
         saveSessionStates sessionStates ;;
         if (stage params =? "assembly")%string && negb (nextStageNeeded params)
         then
           match srStageData stageResult with
           | AssembledData args =>
               tryCatch
                 (applyAssembly args ;;
                  let sessionState :=
                    sessionState ++
                    [ SessionCompleted timestamp (argDate args) (argSummary args)
                        (argCourse args) ] in
                  saveSessionStates (<[ sessionId params := sessionState ]> sessionStates) ;;
                  mret (SessionRecorded (stage params) stageResult))
                 (fun message =>
                    mret (Failure ("Error recording study session: " +:+ message)))
           | _ =>
               (* not reached: the assembly stage always carries assembled arguments *)
               mret (StageAccepted (stage params) false stageResult None)
           end
         else
           mret (StageAccepted (stage params) (nextStageNeeded params) stageResult
                   (if (stage params =? "assembly")%string
                    then Some (srStageData stageResult) else None))
     end)
    (fun message => mret (Failure message)).

(** ** KnowledgeGraphManager: assignment status *)

(** A JavaScript number that may be [NaN] (the time value of an invalid
    date and whatever is computed from it). *)
Inductive JsNumber :=
| Num (z : Z)
| NaN.

(** [observations.find(o => o.startsWith(key))?.split(':')[1].trim()] *)
Definition readField (key : string) (obs : list string) : option string :=
  fieldValue <$> List.find (fun o => startsWith o key) obs.

(** [value || fallback] for a value that may be [undefined]. *)
Definition fieldOr (value : option string) (fallback : string) : string :=
  match value with
  | Some s => orElse s fallback
  | None => fallback
  end.

(** The entities of type [type] at the target of a [relType] relation out
    of [source], in the order of the relations. *)
Definition targetsFrom (graph : KnowledgeGraph) (relType type source : string)
    : list Entity :=
  flat_map (fun relation =>
    if (relationType relation =? relType)%string && (from relation =? source)%string
    then match findEntity graph (to relation) type with
         | Some e => [e]
         | None => []
         end
    else []) (relations graph).

(** [if (e && !acc.some(r => r.name === e.name)) acc.push(e)] *)
Definition pushUnique (acc : list Entity) (e : Entity) : list Entity :=
  if existsb (fun r => (name r =? name e)%string) acc then acc else acc ++ [e].

(** The nested loops that add, for each concept in turn, the entities of
    type [type] with a [relType] relation into the concept, skipping names
    already collected. *)
Definition collectVia (graph : KnowledgeGraph) (relType type : string)
    (concepts : list Entity) (acc : list Entity) : list Entity :=
  foldl (fun acc concept =>
    foldl (fun acc relation =>
      if (relationType relation =? relType)%string
         && (to relation =? name concept)%string
      then match findEntity graph (from relation) type with
           | Some e => pushUnique acc e
           | None => acc
           end
      else acc) acc (relations graph)) acc concepts.

Record AssignmentInfo := mkAssignmentInfo {
  aiStatus : string;
  aiDueDate : option string;
  aiPointsWorth : option string;
  aiInstructions : option string;
  aiTimeRemaining : option JsNumber;
  aiDaysRemaining : option JsNumber;
  aiIsOverdue : bool
}.

Record AssignmentReport := mkAssignmentReport {
  arAssignment : Entity;
  arCourse : option Entity;
  arInfo : AssignmentInfo;
  arConcepts : list Entity;
  arResources : list Entity;
  arNotes : list Entity
}.

(** The three values computed from the due date text: [timeRemaining],
    [daysRemaining] and [isOverdue]. [parsed] is the time value of
    [new Date(dueDate)], [None] for an invalid date. *)
Definition remaining (dueDate : option string) (parsed : string -> option Z) (now : Z)
    : option JsNumber * option JsNumber * bool :=
  match given dueDate with
  | Some text =>
      match parsed text with
      | Some dueDateTime =>
          let timeRemaining := dueDateTime - now in
          (Some (Num timeRemaining), Some (Num (ceilDiv timeRemaining MS_PER_DAY)),
           timeRemaining <? 0)
      | None => (Some NaN, Some NaN, false)
      end
  | None => (None, None, false)
  end.

Definition getAssignmentStatus (Date_parse : string -> option Z) (now : Z)
    (assignmentName : string) : IO AssignmentReport :=
  graph ← loadGraph;
  match findEntity graph assignmentName "assignment" with
  | None => throw ("Assignment '" +:+ assignmentName +:+ "' not found")
  | Some assignment =>
      let course := head (targetsFrom graph "assigned_in" "course" assignmentName) in
      let status :=
        fieldOr (readField "Status:" (observations assignment)) "not_started" in
      let dueDate := readField "Due:" (observations assignment) in
      let pointsWorth := readField "Points:" (observations assignment) in
      let instructions := readField "Instructions:" (observations assignment) in
      let '(timeRemaining, days, isOverdue) := remaining dueDate Date_parse now in
      let concepts := targetsFrom graph "covers" "concept" assignmentName in
      let resources :=
        collectVia graph "helps_with" "resource" concepts
          (sourcesInto graph "helps_with" "resource" assignmentName) in
      let notes :=
        collectVia graph "references" "note" concepts
          (sourcesInto graph "created_for" "note" assignmentName) in
      mret (mkAssignmentReport assignment course
              (mkAssignmentInfo status dueDate pointsWorth instructions
                 timeRemaining days isOverdue)
              concepts resources notes)
  end.

(** ** The server: current term, buildcontext and deletecontext *)

Definition getCurrentTerm : IO (option string) :=
  termQuery ← searchNodes "entityType:term status:active";
  match entities termQuery with
  | first :: _ => mret (Some (name first))
  | [] => mret None
  end.

(** One element of the [data] of an observations request; [contents] is
    [None] when the field is not an array. *)
Record ObservationItem := mkObservationItem {
  oiEntityName : string;
  oiContents : option (list string)
}.

(** The request of [buildcontext]: the operation type with data of the
    shape that type expects. *)
Inductive BuildRequest :=
| BuildEntities (data : list Entity)
| BuildRelations (data : list Relation)
| BuildObservations (data : list ObservationItem).

Inductive DeleteRequest :=
| DeleteEntities (data : list string)
| DeleteRelations (data : list Relation)
| DeleteObservations (data : list Deletion).

(** The JSON answers of the two tools. *)
Inductive ContextResult :=
| Refused (error : string)
| Created (graph : KnowledgeGraph)
| Done (message : string).

Definition typedRelation (r : Relation) : Relation :=
  mkRelation (from r) (to r) (relationType r) None.

Definition addItem (item : ObservationItem) : IO unit :=
  match oiContents item with
  | Some contents =>
      if truthy (oiEntityName item)
      then addObservations (oiEntityName item) contents ;; mret tt
      else mret tt
  | None => mret tt
  end.

Definition buildcontext (request : BuildRequest) : IO ContextResult :=
  tryCatch
    (match request with
     | BuildEntities data =>
         forOf data (fun entity => validateEntityType (entityType entity)) ;;
         result ← createEntities data;
         mret (Created result)
     | BuildRelations data =>
         result ← createRelations (map typedRelation data);
         mret (Created result)
     | BuildObservations data =>
         forOf data addItem ;;
         mret (Done "Added observations to entities")
     end)
    (fun message => mret (Refused message)).

Definition deletecontext (request : DeleteRequest) : IO ContextResult :=
  tryCatch
    (match request with
     | DeleteEntities data =>
         deleteEntities data ;;
         mret (Done ("Deleted " +:+ pretty (length data) +:+ " entities"))
     | DeleteRelations data =>
         deleteRelations (map typedRelation data) ;;
         mret (Done ("Deleted " +:+ pretty (length data) +:+ " relations"))
     | DeleteObservations data =>
         deleteObservations data ;;
         mret (Done ("Deleted observations from " +:+ pretty (length data)
                     +:+ " entities"))
     end)
    (fun message => mret (Refused message)).

(** ** Vocabulary of the statements *)

(** [t] occurs in [s]. *)
Definition substringOf (t s : string) : Prop :=
  exists pre post, s = pre +:+ t +:+ post.

(** A search term is found in an entity, fields compared in lower case. *)
Definition termFound (t : string) (e : Entity) : Prop :=
  substringOf t (toLowerCase (name e))
  \/ substringOf t (toLowerCase (entityType e))
  \/ exists o, o ∈ observations e /\ substringOf t (toLowerCase o).

Definition everyTermFound (query : string) (e : Entity) : Prop :=
  forall t, t ∈ splitWs (toLowerCase query) -> termFound t e.

(** The same with the fields taken as they are stored. *)
Definition termFoundVerbatim (t : string) (e : Entity) : Prop :=
  substringOf t (name e)
  \/ substringOf t (entityType e)
  \/ exists o, o ∈ observations e /\ substringOf t o.

Definition everyTermFoundVerbatim (query : string) (e : Entity) : Prop :=
  forall t, t ∈ splitWs (toLowerCase query) -> termFoundVerbatim t e.

Definition entityNamed (g : KnowledgeGraph) (n : string) : Prop :=
  exists e, e ∈ entities g /\ name e = n.

(** Name uniqueness and endpoint existence, the two invariants of the data
    model. *)
Definition uniqueNames (g : KnowledgeGraph) : Prop :=
  NoDup (name <$> entities g).

Definition endpointsExist (g : KnowledgeGraph) : Prop :=
  forall r, r ∈ relations g -> entityNamed g (from r) /\ entityNamed g (to r).

(** The three grounds on which [createRelations] refuses a relation. *)
Definition relationRefused (g : KnowledgeGraph) (r : Relation) : Prop :=
  ~ entityNamed g (from r)
  \/ ~ entityNamed g (to r)
  \/ (relationType r ∉ VALID_RELATION_TYPES)
  \/ exists r', r' ∈ relations g /\ from r' = from r /\ to r' = to r
                /\ relationType r' = relationType r.

(** The four tests of the validation loop as one boolean. *)
Definition refusedb (g : KnowledgeGraph) (r : Relation) : bool :=
  negb (hasEntity g (from r)) || negb (hasEntity g (to r))
  || negb (inList (relationType r) VALID_RELATION_TYPES) || hasRelation g r.

Definition onlyWhiteSpace (s : string) : Prop :=
  Forall (fun c => isWhiteSpace c = true) (list_ascii_of_string s).

(** [n] is the ceiling of [a / b]. *)
Definition isCeilingOf (n a b : Z) : Prop := (n - 1) * b < a <= n * b.

(** A related_to or prerequisite_for relation joins [a] and [b], in either
    direction. *)
Definition directlyLinked (g : KnowledgeGraph) (a b : string) : Prop :=
  exists r, r ∈ relations g
    /\ (relationType r = "related_to" \/ relationType r = "prerequisite_for")
    /\ ((from r = a /\ to r = b) \/ (from r = b /\ to r = a)).

Definition nonDecreasingDepth (l : list RelatedConcept) : Prop :=
  forall i j a b, (i < j)%nat -> l !! i = Some a -> l !! j = Some b -> depth a <= depth b.

(** The records of depth [d], in the order of the list. *)
Definition tier (d : Z) (l : list RelatedConcept) : list RelatedConcept :=
  List.filter (fun rc => depth rc =? d) l.

(** The names of the queued items and of the recorded concepts. *)
Definition queuedNames (q : list QueueItem) : list string := itemName <$> q.

Definition recordedNames (l : list RelatedConcept) : list string :=
  (fun rc => name (concept rc)) <$> l.

(** The name [n] is waiting in the queue or recorded in the results, at a
    depth that satisfies [good]. *)
Definition settled (n : string) (good : Z -> Prop)
    (queue : list QueueItem) (related : list RelatedConcept) : Prop :=
  (exists q, q ∈ queue /\ itemName q = n /\ good (currentDepth q))
  \/ (exists rc, rc ∈ related /\ name (concept rc) = n /\ good (depth rc)).

(** No name is queued twice or recorded twice, none is both queued and
    recorded, all are marked as processed, and no record is deeper than
    asked. *)
Definition onceEach (maxD : Z) (Q : list QueueItem) (P : gset string)
    (R : list RelatedConcept) : Prop :=
  NoDup (queuedNames Q) /\ NoDup (recordedNames R)
  /\ (forall m, m ∈ queuedNames Q -> m ∉ recordedNames R)
  /\ (forall m, m ∈ queuedNames Q -> m ∈ P)
  /\ (forall m, m ∈ recordedNames R -> m ∈ P)
  /\ (forall rc, rc ∈ R -> depth rc <= maxD).

(** The depths at which the end [z] of the chain may be found from [x]. *)
Definition chainEndDepth (g : KnowledgeGraph) (x z : string) (d : Z) : Prop :=
  (d = 1 \/ d = 2) /\ (~ directlyLinked g x z -> d = 2).

(** [z] has not been met yet, the queue holds items of depth 1 followed by
    items of depth 2, and [y] waits among those of depth 1. *)
Definition chainPending (y z : string) (Q : list QueueItem) (P : gset string) : Prop :=
  (z ∉ P)
  /\ exists A B, Q = A ++ B
       /\ Forall (fun q => currentDepth q = 1) A
       /\ Forall (fun q => currentDepth q = 2) B
       /\ exists qy, qy ∈ A /\ itemName qy = y.

Definition chainInv (g : KnowledgeGraph) (x y z : string)
    (Q : list QueueItem) (P : gset string) (R : list RelatedConcept) : Prop :=
  settled y (fun d => d = 1) Q R
  /\ (settled z (chainEndDepth g x z) Q R \/ chainPending y z Q P).

(** Every name that can ever be queued: the ends of the stored relations. *)
Definition relationEnds (g : KnowledgeGraph) : gset string :=
  list_to_set (flat_map (fun r => [ from r; to r ]) (relations g)).

(** The two grounds on which [createEntities] refuses an entity. *)
Definition entityRefused (g : KnowledgeGraph) (e : Entity) : Prop :=
  entityNamed g (name e) \/ (entityType e ∉ validEntityTypes).

Definition triple (r : Relation) : string * string * string :=
  (from r, to r, relationType r).

(** No two stored relations have the same ends and type. *)
Definition uniqueTriples (g : KnowledgeGraph) : Prop :=
  NoDup (triple <$> relations g).

(** [i] is the position of the first entity named [n]. *)
Definition firstNamed (es : list Entity) (n : string) (i : nat) (e : Entity) : Prop :=
  es !! i = Some e /\ name e = n
  /\ forall j e', (j < i)%nat -> es !! j = Some e' -> name e' <> n.

(** What the traversal keeps true of a queued item and of a record: the
    path has one step per level, only the seed sits at level 0, and level 1
    is reached over a relation with the seed only. *)
Definition wellFormedItem (g : KnowledgeGraph) (x : string) (q : QueueItem) : Prop :=
  Z.of_nat (length (path q)) = currentDepth q
  /\ 0 <= currentDepth q
  /\ (itemName q <> x -> 1 <= currentDepth q)
  /\ (currentDepth q = 1 -> directlyLinked g x (itemName q)).

Definition wellFormedRecord (g : KnowledgeGraph) (x : string) (rc : RelatedConcept)
    : Prop :=
  Z.of_nat (length (relationPath rc)) = depth rc
  /\ 1 <= depth rc
  /\ name (concept rc) <> x
  /\ findEntity g (name (concept rc)) "concept" = Some (concept rc)
  /\ (depth rc = 1 -> directlyLinked g x (name (concept rc)))
  /\ courses rc = sourcesInto g "covers" "course" (name (concept rc))
  /\ resources rc = sourcesInto g "helps_with" "resource" (name (concept rc)).

Definition wellFormed (g : KnowledgeGraph) (x : string)
    (Q : list QueueItem) (P : gset string) (R : list RelatedConcept) : Prop :=
  (forall q, q ∈ Q -> wellFormedItem g x q)
  /\ (forall rc, rc ∈ R -> wellFormedRecord g x rc).

(** Nothing is recorded and everything queued but the seed is too deep. *)
Definition tooDeep (x : string) (maxD : Z)
    (Q : list QueueItem) (P : gset string) (R : list RelatedConcept) : Prop :=
  R = [] /\ x ∈ P
  /\ forall q, q ∈ Q ->
       (itemName q = x /\ currentDepth q = 0) \/ (itemName q <> x /\ maxD < currentDepth q).

(** The stage names that [processStage] knows. *)
Definition knownStages : list string :=
  [ "summary"; "conceptsLearned"; "assignmentUpdates"; "newConcepts";
    "courseStatus"; "assembly" ].

(** The call asks for the replacement of an earlier stage. *)
Definition revising (params : EndSessionParams) : Prop :=
  isRevision params = Some true /\ is_Some (revisesStage params).

(** A computation that leaves the session document alone. *)
Definition keepsSessions {A : Type} (m : IO A) : Prop :=
  forall w, sessionsFile (m w).2 = sessionsFile w.

(** The concept entities that the assembly makes of the concepts learned. *)
Definition learnedEntities (date : string) (learned : list string) : list Entity :=
  imap (fun i c =>
          mkEntity ("Concept_" +:+ removeHyphens date +:+ "_" +:+ pretty (S i))
                   "concept" [ c ])
       learned.

(** ** An instance of the runtime: UTC clock, date-only ISO strings *)

Definition digitValue (c : ascii) : option Z :=
  let n := code c in
  if ((48 <=? n) && (n <=? 57))%N then Some (Z.of_N n - 48) else None.

Fixpoint digitsValue (acc : Z) (l : list ascii) : option Z :=
  match l with
  | [] => Some acc
  | c :: rest =>
      match digitValue c with
      | Some v => digitsValue (10 * acc + v) rest
      | None => None
      end
  end.

Definition isLeapYear (y : Z) : bool :=
  (y mod 4 =? 0) && (negb (y mod 100 =? 0) || (y mod 400 =? 0)).

Definition daysInMonth (y m : Z) : Z :=
  if m =? 2 then (if isLeapYear y then 29 else 28)
  else if (m =? 4) || (m =? 6) || (m =? 9) || (m =? 11) then 30 else 31.

(** Days from 1970-01-01 to the civil date [y]-[m]-[d]. *)
Definition daysFromCivil (y m d : Z) : Z :=
  let y' := if m <=? 2 then y - 1 else y in
  let era := y' / 400 in
  let yoe := y' - era * 400 in
  let doy := (153 * (if 2 <? m then m - 3 else m + 9) + 2) / 5 + d - 1 in
  let doe := yoe * 365 + yoe / 4 - yoe / 100 + doy in
  era * 146097 + doe - 719468.

(** [new Date("YYYY-MM-DD").getTime()] for a valid calendar date, which
    ECMAScript reads as midnight UTC; every other text is left unparsed by
    this instance. *)
Definition parseIsoDate (text : string) : option Z :=
  match list_ascii_of_string text with
  | [y1; y2; y3; y4; h1; m1; m2; h2; d1; d2] =>
      if Ascii.eqb h1 "-"%char && Ascii.eqb h2 "-"%char then
        match digitsValue 0 [y1; y2; y3; y4], digitsValue 0 [m1; m2],
              digitsValue 0 [d1; d2] with
        | Some y, Some m, Some d =>
            if (1 <=? m) && (m <=? 12) && (1 <=? d) && (d <=? daysInMonth y m)
            then Some (daysFromCivil y m d * MS_PER_DAY)
            else None
        | _, _, _ => None
        end
      else None
  | _ => None
  end.

(** [setDate] in a zone without clock changes moves the instant by whole
    days. *)
Definition utcEndDate (now daysAhead : Z) : Z := now + daysAhead * MS_PER_DAY.

(** ** Example stores *)

Module Examples.

Definition noSessions : gmap string (list SessionItem) := ∅.

(** X -related_to-> Y -prerequisite_for-> Z *)
Definition chain : KnowledgeGraph :=
  mkGraph
    [ mkEntity "X" "concept" []; mkEntity "Y" "concept" [];
      mkEntity "Z" "concept" [] ]
    [ mkRelation "X" "Y" "related_to" None;
      mkRelation "Y" "Z" "prerequisite_for" None ].

(** The chain with a second way from X to Z. *)
Definition chainWithShortcut : KnowledgeGraph :=
  mkGraph (entities chain)
    (relations chain ++ [ mkRelation "X" "Z" "related_to" None ]).

Definition physics : KnowledgeGraph :=
  mkGraph
    [ mkEntity "Physics 101" "course" [ "Code: PHYS101" ];
      mkEntity "Midterm" "exam" [ "Covers physics chapters 1-4" ];
      mkEntity "Essay" "assignment" [ "Due: 2025-01-10" ] ]
    [ mkRelation "Physics 101" "Midterm" "scheduled_for" None;
      mkRelation "Essay" "Physics 101" "assigned_in" None ].

(** A term with one course that has one assignment due 2025-01-10. *)
Definition semester : KnowledgeGraph :=
  mkGraph
    [ mkEntity "Spring 2025" "term" [];
      mkEntity "CS101" "course" [];
      mkEntity "HW1" "assignment" [ "Due: 2025-01-10"; "status:not_started" ] ]
    [ mkRelation "CS101" "Spring 2025" "part_of" None;
      mkRelation "HW1" "CS101" "assigned_in" None ].

(** 2025-01-05T12:00:00Z *)
Definition noon5Jan : Z := 1736078400000.

Definition hw1 : Entity :=
  mkEntity "HW1" "assignment" [ "Due: 2025-01-10"; "status:not_started" ].

Definition cs101 : Entity := mkEntity "CS101" "course" [].

(** A session that went through the summary and assignmentUpdates stages. *)
Definition recorded : gmap string (list SessionItem) :=
  {[ "stud_1_a" :=
       [ AnalysisStage
           (mkStageResult "summary" 1 "" (SummaryData "Worked on HW1" "1 hour" "CS101")
              false);
         AnalysisStage
           (mkStageResult "assignmentUpdates" 2 ""
              (AssignmentUpdatesData [ mkUpdate "HW1" "in_progress" ]) false) ] ]}.

Definition assemblyCall (id : string) : EndSessionParams :=
  mkParams id "assembly" 3 3 None None false None None.

Definition twoOfAKind : list Entity :=
  [ mkEntity "A" "course" []; mkEntity "A" "course" [] ].

End Examples.

Set Warnings "-clear-no-such-hyp".

(** * Properties *)

(** ** Lists of strings and the store predicates *)

Lemma inList_spec (x : string) (l : list string) : inList x l = true <-> x ∈ l.
Proof.
  unfold inList. rewrite existsb_exists. split.
  - intros (y & Hy & Heq). apply String.eqb_eq in Heq. subst y.
    by apply list_elem_of_In.
  - intros Hx. exists x. split; [by apply list_elem_of_In | apply String.eqb_refl].
Qed.

Lemma inList_false (x : string) (l : list string) : inList x l = false <-> x ∉ l.
Proof.
  rewrite <- inList_spec. destruct (inList x l); split; congruence.
Qed.

Lemma hasEntity_spec (g : KnowledgeGraph) (n : string) :
  hasEntity g n = true <-> entityNamed g n.
Proof.
  unfold hasEntity, entityNamed. rewrite existsb_exists. split.
  - intros (e & He & Heq). exists e. split; [by apply list_elem_of_In | by apply String.eqb_eq].
  - intros (e & He & Heq). exists e. split; [by apply list_elem_of_In | by apply String.eqb_eq].
Qed.

Lemma sameTriple_spec (r r' : Relation) :
  sameTriple r r' = true <->
  from r = from r' /\ to r = to r' /\ relationType r = relationType r'.
Proof.
  unfold sameTriple. rewrite !andb_true_iff, !String.eqb_eq. tauto.
Qed.

Lemma hasRelation_spec (g : KnowledgeGraph) (r : Relation) :
  hasRelation g r = true <->
  exists r', r' ∈ relations g /\ from r' = from r /\ to r' = to r
             /\ relationType r' = relationType r.
Proof.
  unfold hasRelation. rewrite existsb_exists. split.
  - intros (r' & Hin & Heq). exists r'. split; [by apply list_elem_of_In |].
    by apply sameTriple_spec.
  - intros (r' & Hin & Heq). exists r'. split; [by apply list_elem_of_In |].
    by apply sameTriple_spec.
Qed.

Lemma elem_of_List_filter {A : Type} (p : A -> bool) (l : list A) (x : A) :
  x ∈ List.filter p l <-> x ∈ l /\ p x = true.
Proof. rewrite !list_elem_of_In. apply filter_In. Qed.

Lemma List_filter_sublist {A : Type} (p : A -> bool) (l : list A) :
  sublist (List.filter p l) l.
Proof.
  induction l as [| x l IH]; simpl; [constructor |].
  destruct (p x); by constructor.
Qed.

Lemma List_filter_all {A : Type} (p : A -> bool) (l : list A) :
  (forall x, x ∈ l -> p x = true) -> List.filter p l = l.
Proof.
  induction l as [| x l IH]; simpl; intros H; [done |].
  rewrite (H x) by constructor. f_equal. apply IH. intros y Hy. apply H. by constructor.
Qed.

(** ** Loops that only check *)

(** A loop whose body either returns without touching the world or throws
    leaves the world as it was, and throws exactly when some element is
    refused. *)
Lemma forOf_check {A : Type} (refused : A -> bool) (body : A -> IO unit)
    (l : list A) (w : World) :
  (forall x, x ∈ l -> refused x = false -> body x w = (Returned tt, w)) ->
  (forall x, x ∈ l -> refused x = true -> exists msg, body x w = (Thrown msg, w)) ->
  (existsb refused l = false -> forOf l body w = (Returned tt, w))
  /\ (existsb refused l = true -> exists msg, forOf l body w = (Thrown msg, w)).
Proof.
  induction l as [| x l IH]; intros Hok Hbad; simpl.
  - split; [done | discriminate].
  - destruct IH as [IHok IHbad].
    { intros y Hy. apply Hok. by constructor. }
    { intros y Hy. apply Hbad. by constructor. }
    unfold mbind, IO_bind.
    destruct (refused x) eqn:Hx; simpl.
    + split; [discriminate | intros _].
      destruct (Hbad x (list_elem_of_here _ _) Hx) as [msg Hmsg].
      exists msg. by rewrite Hmsg.
    + rewrite (Hok x (list_elem_of_here _ _) Hx). split; auto.
Qed.

(** ** createRelations *)

Lemma refusedb_spec (g : KnowledgeGraph) (r : Relation) :
  refusedb g r = true <-> relationRefused g r.
Proof.
  unfold refusedb, relationRefused.
  rewrite !orb_true_iff, !negb_true_iff, hasRelation_spec, inList_false.
  rewrite <- !hasEntity_spec, !not_true_iff_false. tauto.
Qed.

Lemma createRelations_checks (g : KnowledgeGraph) (w : World) (l : list Relation) :
  (existsb (refusedb g) l = false -> forOf l (checkRelation g) w = (Returned tt, w))
  /\ (existsb (refusedb g) l = true ->
      exists msg, forOf l (checkRelation g) w = (Thrown msg, w)).
Proof.
  apply forOf_check; intros r _ Hr; unfold refusedb in Hr;
    unfold checkRelation, mbind, IO_bind, when, throw, mret, IO_ret.
  - apply orb_false_iff in Hr as [Hr H4]. apply orb_false_iff in Hr as [Hr H3].
    apply orb_false_iff in Hr as [H1 H2]. by rewrite H1, H2, H3, H4.
  - destruct (negb (hasEntity g (from r))); [eauto |].
    destruct (negb (hasEntity g (to r))); [eauto |].
    destruct (negb (inList (relationType r) VALID_RELATION_TYPES)); [eauto |].
    destruct (hasRelation g r); [eauto | discriminate].
Qed.

(** C8. [createRelations] throws and leaves the store as it was as soon as
    one listed relation has an end that names no entity, a type outside the
    enumeration, or a triple the store already holds; otherwise it appends
    the whole list to the stored relations and saves. *)
Theorem createRelations_refuses_or_appends (w : World) (l : list Relation) :
  let g := memoryFile w in
  let g' := mkGraph (entities g) (relations g ++ l) in
  ((exists r, r ∈ l /\ relationRefused g r) ->
     exists msg, createRelations l w = (Thrown msg, w))
  /\ ((forall r, r ∈ l -> ~ relationRefused g r) ->
     createRelations l w = (Returned g', mkWorld g' (sessionsFile w))).
Proof.
  intros g g'. pose proof (createRelations_checks g w l) as [Hok Hbad].
  unfold createRelations, mbind, IO_bind, loadGraph. fold g. split.
  - intros (r & Hin & Href). destruct Hbad as [msg Hmsg].
    { apply existsb_exists. exists r. split; [by apply list_elem_of_In |].
      by apply refusedb_spec. }
    exists msg. by rewrite Hmsg.
  - intros Hall. rewrite Hok; [done |].
    apply not_true_iff_false. intros Hex. apply existsb_exists in Hex as (r & Hin & Href).
    apply (Hall r); [by apply list_elem_of_In | by apply refusedb_spec].
Qed.

Lemma createRelations_refuses_or_appends_witness :
  let w := mkWorld Examples.semester Examples.noSessions in
  let dangling := mkRelation "HW1" "Nowhere" "assigned_in" None in
  let fresh := mkRelation "HW1" "CS101" "requires" None in
  let g' := mkGraph (entities Examples.semester)
              (relations Examples.semester ++ [ fresh ]) in
  (exists msg, createRelations [ dangling ] w = (Thrown msg, w))
  /\ createRelations [ fresh ] w = (Returned g', mkWorld g' Examples.noSessions).
Proof.
  intros w dangling fresh g'. split.
  - apply (proj1 (createRelations_refuses_or_appends w [ dangling ])).
    exists dangling. split; [constructor |].
    apply refusedb_spec. vm_compute. reflexivity.
  - apply (proj2 (createRelations_refuses_or_appends w [ fresh ])).
    intros r Hr. apply list_elem_of_singleton in Hr. subst r.
    rewrite <- refusedb_spec. vm_compute. discriminate.
Defined.

(** ** deleteEntities *)

(** C9. [deleteEntities] never throws; it keeps, in their order, exactly the
    entities whose name is not listed and exactly the relations neither end
    of which is listed, and leaves the session document alone.  After
    [deleteEntities(["A"])], [readGraph()] shows no entity named A and no
    relation from or to A. *)
Theorem deleteEntities_removes_exactly (w : World) (names : list string) (a : string) :
  (exists g',
     deleteEntities names w = (Returned tt, mkWorld g' (sessionsFile w))
     /\ (forall e, e ∈ entities g' <-> e ∈ entities (memoryFile w) /\ name e ∉ names)
     /\ (forall r, r ∈ relations g' <->
           r ∈ relations (memoryFile w) /\ (from r ∉ names) /\ (to r ∉ names))
     /\ sublist (entities g') (entities (memoryFile w))
     /\ sublist (relations g') (relations (memoryFile w)))
  /\ (exists g' w',
     let deleteThenRead : IO KnowledgeGraph := (deleteEntities [ a ] ;; readGraph) in
     deleteThenRead w = (Returned g', w')
     /\ memoryFile w' = g'
     /\ ~ entityNamed g' a
     /\ forall r, r ∈ relations g' -> from r <> a /\ to r <> a).
Proof.
  split.
  - exists (mkGraph
      (List.filter (fun e => negb (inList (name e) names)) (entities (memoryFile w)))
      (List.filter (fun r => negb (inList (from r) names) && negb (inList (to r) names))
                   (relations (memoryFile w)))).
    split; [reflexivity |]. simpl.
    split; [| split; [| split; apply List_filter_sublist]].
    + intros e. rewrite elem_of_List_filter, negb_true_iff, inList_false. tauto.
    + intros r. rewrite elem_of_List_filter, andb_true_iff, !negb_true_iff, !inList_false.
      tauto.
  - exists (mkGraph
      (List.filter (fun e => negb (inList (name e) [ a ])) (entities (memoryFile w)))
      (List.filter (fun r => negb (inList (from r) [ a ]) && negb (inList (to r) [ a ]))
                   (relations (memoryFile w)))).
    eexists. split; [reflexivity |]. simpl. split; [done |]. split.
    + intros (e & He & Hname). apply elem_of_List_filter in He as [_ He].
      rewrite Hname, String.eqb_refl in He. discriminate.
    + intros r Hr. apply elem_of_List_filter in Hr as [_ Hr].
      rewrite !orb_false_r in Hr. apply andb_true_iff in Hr as [Hf Ht].
      apply negb_true_iff in Hf, Ht. apply String.eqb_neq in Hf, Ht.
      split; congruence.
Qed.

(** ** createEntities *)

(** C5, as the code has it. The collision test of [createEntities] looks at
    the stored entities only: a list that names "A" twice passes it on an
    empty store, and the store that is saved holds two entities named "A". *)
Theorem createEntities_repeated_name_in_list :
  let w := mkWorld emptyGraph Examples.noSessions in
  uniqueNames (memoryFile w)
  /\ exists g',
       createEntities Examples.twoOfAKind w = (Returned g', mkWorld g' Examples.noSessions)
       /\ name <$> entities g' = [ "A"; "A" ]
       /\ ~ uniqueNames g'.
Proof.
  split; [constructor |].
  eexists. split; [vm_compute; reflexivity |]. split; [reflexivity |].
  unfold uniqueNames. simpl. intros Hnd. apply NoDup_cons in Hnd as [Hnin _].
  apply Hnin. constructor.
Qed.

(** ** Name uniqueness under the store operations *)

Lemma names_filter_unique (p : Entity -> bool) (es : list Entity) :
  NoDup (name <$> es) -> NoDup (name <$> List.filter p es).
Proof.
  induction es as [| e es IH]; intros Hnd; [done |].
  rewrite fmap_cons in Hnd. cbn [List.filter].
  apply NoDup_cons in Hnd as [Hnin Hnd]. destruct (p e); [| by apply IH].
  rewrite fmap_cons. apply NoDup_cons. split; [| by apply IH].
  intros Hin. apply Hnin. apply list_elem_of_fmap in Hin as (e' & Hname & He').
  apply elem_of_List_filter in He' as [He' _]. rewrite Hname.
  by apply list_elem_of_fmap_2.
Qed.

Lemma updateFirst_names (p : Entity -> bool) (f : Entity -> Entity) (es : list Entity) :
  (forall e, name (f e) = name e) ->
  name <$> updateFirst p f es = name <$> es.
Proof.
  intros Hf. induction es as [| e es IH]; [done |].
  cbn [updateFirst]. destruct (p e); rewrite !fmap_cons; [by rewrite Hf | by rewrite IH].
Qed.

Lemma createEntities_checks (g : KnowledgeGraph) (w : World) (l : list Entity) :
  let refused := fun e =>
    hasEntity g (name e) || negb (isValidEntityType (entityType e)) in
  (existsb refused l = false -> forOf l (checkEntity g) w = (Returned tt, w))
  /\ (existsb refused l = true ->
      exists msg, forOf l (checkEntity g) w = (Thrown msg, w)).
Proof.
  apply forOf_check; intros e _ He;
    unfold checkEntity, validateEntityType, mbind, IO_bind, when, throw, mret, IO_ret.
  - apply orb_false_iff in He as [H1 H2]. by rewrite H1, H2.
  - destruct (hasEntity g (name e)); [eauto |].
    destruct (negb (isValidEntityType (entityType e))); [eauto | discriminate].
Qed.

(** X2. What [createEntities] does keep: a list that names no entity twice
    leaves a store with unique names unique, and what is saved is the graph
    that is returned. *)
Lemma createEntities_distinct_list_unique (w w' : World) (l : list Entity)
    (g' : KnowledgeGraph) :
  uniqueNames (memoryFile w) -> NoDup (name <$> l) ->
  createEntities l w = (Returned g', w') ->
  uniqueNames g' /\ memoryFile w' = g'.
Proof.
  intros Hu Hl Hrun. set (g := memoryFile w) in *.
  destruct (createEntities_checks g w l) as [Hok Hbad].
  unfold createEntities, mbind, IO_bind, loadGraph in Hrun. fold g in Hrun.
  destruct (existsb _ l) eqn:Hex.
  { destruct (Hbad eq_refl) as [msg Hmsg]. rewrite Hmsg in Hrun. discriminate. }
  rewrite (Hok eq_refl) in Hrun. simpl in Hrun. injection Hrun as <- <-.
  split; [| done]. unfold uniqueNames. simpl. rewrite fmap_app.
  apply NoDup_app. split; [done |]. split; [| done].
  intros n Hn Hn'. apply list_elem_of_fmap in Hn' as (e & -> & He).
  assert (Hfresh : hasEntity g (name e) = false).
  { apply not_true_iff_false. intros Hhas.
    assert (existsb (fun e => hasEntity g (name e)
                              || negb (isValidEntityType (entityType e))) l = true);
      [| congruence].
    apply existsb_exists. exists e. split; [by apply list_elem_of_In |].
    by rewrite Hhas. }
  apply not_true_iff_false in Hfresh. apply Hfresh, hasEntity_spec.
  apply list_elem_of_fmap in Hn as (e0 & Hname & He0). by exists e0.
Qed.

Lemma deleteEntities_unique (w : World) (names : list string) :
  uniqueNames (memoryFile w) -> uniqueNames (memoryFile (deleteEntities names w).2).
Proof. intros Hu. simpl. by apply names_filter_unique. Qed.

Lemma addObservations_unique (w : World) (n : string) (texts : list string) :
  uniqueNames (memoryFile w) -> uniqueNames (memoryFile (addObservations n texts w).2).
Proof.
  intros Hu. unfold addObservations, mbind, IO_bind, loadGraph.
  destruct (List.find _ (entities (memoryFile w))); [| done].
  unfold uniqueNames. simpl. by rewrite updateFirst_names.
Qed.

Lemma deleteObservations_unique (w : World) (deletions : list Deletion) :
  uniqueNames (memoryFile w) ->
  uniqueNames (memoryFile (deleteObservations deletions w).2).
Proof.
  intros Hu. unfold uniqueNames in *. simpl.
  generalize dependent (entities (memoryFile w)).
  induction deletions as [| d ds IH]; intros es Hu; simpl; [done |].
  apply IH. by rewrite updateFirst_names.
Qed.

Lemma createRelations_entities (w : World) (l : list Relation) :
  entities (memoryFile (createRelations l w).2) = entities (memoryFile w).
Proof.
  unfold createRelations, mbind, IO_bind, loadGraph.
  destruct (forOf l (checkRelation (memoryFile w)) w) as [[[] | msg] w1] eqn:Hloop.
  - destruct (createRelations_checks (memoryFile w) w l) as [Hok Hbad].
    destruct (existsb (refusedb (memoryFile w)) l) eqn:Hex.
    + destruct (Hbad eq_refl) as [msg Hmsg]. congruence.
    + rewrite (Hok eq_refl) in Hloop. by injection Hloop as <-.
  - destruct (createRelations_checks (memoryFile w) w l) as [Hok Hbad].
    destruct (existsb (refusedb (memoryFile w)) l) eqn:Hex.
    + destruct (Hbad eq_refl) as [msg' Hmsg]. rewrite Hmsg in Hloop. by injection Hloop as _ <-.
    + rewrite (Hok eq_refl) in Hloop. discriminate.
Qed.

Lemma deleteRelations_entities (w : World) (l : list Relation) :
  entities (memoryFile (deleteRelations l w).2) = entities (memoryFile w).
Proof. reflexivity. Qed.

(** ** endsession *)

(** C3. For a session id that the session document does not hold,
    [endsession] answers with the session-not-found failure, whatever the
    stage, and both documents are as they were: no entity, relation or
    observation is created, deleted or changed. *)
Theorem endsession_unknown_session (date timestamp : string)
    (params : EndSessionParams) (w : World) :
  sessionsFile w !! sessionId params = None ->
  endsession date timestamp params w =
    (Returned (Failure ("Session with ID " +:+ sessionId params
                        +:+ " not found. Please start a new session with startsession.")),
     w).
Proof.
  intros Hnone. unfold endsession, tryCatch, mbind, IO_bind, loadSessionStates.
  by rewrite Hnone.
Qed.

Lemma endsession_unknown_session_witness :
  let w := mkWorld Examples.semester Examples.recorded in
  endsession "2025-01-05" "2025-01-05T18:00:00.000Z" (Examples.assemblyCall "stud_9_z") w =
    (Returned (Failure "Session with ID stud_9_z not found. Please start a new session with startsession."),
     w).
Proof.
  intros w.
  apply (endsession_unknown_session "2025-01-05" "2025-01-05T18:00:00.000Z"
           (Examples.assemblyCall "stud_9_z") w).
  vm_compute. reflexivity.
Defined.

(** C1, as the code has it. The assembly looks the assignment up with
    [searchNodes("name:HW1")], and [searchNodes] knows no field prefixes: the
    term "name:hw1" occurs in no field of the stored assignment, nothing is
    found, and the reported status is dropped without an error. The session
    is answered as recorded and HW1 still carries [status:not_started]. *)
Theorem endsession_assignment_update_lost :
  let w := mkWorld Examples.semester Examples.recorded in
  let out := endsession "2025-01-05" "2025-01-05T18:00:00.000Z"
               (Examples.assemblyCall "stud_1_a") w in
  (exists r args,
     out.1 = Returned (SessionRecorded "assembly" r)
     /\ srStageData r = AssembledData args
     /\ argAssignmentUpdates args = [ mkUpdate "HW1" "in_progress" ])
  /\ memoryFile out.2 = Examples.semester
  /\ findEntity (memoryFile out.2) "HW1" "assignment" = Some Examples.hw1
  /\ ("status:in_progress" ∉ observations Examples.hw1)
  /\ (searchNodes "name:HW1" w).1 = Returned (mkGraph [] [])
  /\ (searchNodes "HW1" w).1 = Returned (mkGraph [ Examples.hw1 ] []).
Proof.
  intros w out. split.
  - eexists. eexists. split; [vm_compute; reflexivity |]. split; reflexivity.
  - split; [vm_compute; reflexivity |]. split; [vm_compute; reflexivity |].
    split; [| split; vm_compute; reflexivity].
    intros Hin. apply list_elem_of_In in Hin. simpl in Hin.
    destruct Hin as [H | [H | []]]; discriminate.
Qed.

(** ** Substrings *)

Lemma startsWith_spec (s p : string) :
  startsWith s p = true <-> exists post, s = p +:+ post.
Proof.
  revert s. induction p as [| a p IH]; intros s; simpl.
  - split; [intros _; by exists s | done].
  - destruct s as [| b s].
    + split; [discriminate | intros [post Hpost]; discriminate].
    + rewrite andb_true_iff, Ascii.eqb_eq, IH. split.
      * intros [-> [post ->]]. by exists post.
      * intros [post Hpost]. injection Hpost as -> ->. eauto.
Qed.

Lemma includes_spec (s t : string) : includes s t = true <-> substringOf t s.
Proof.
  unfold substringOf. induction s as [| c s IH]; simpl.
  - rewrite orb_false_r, startsWith_spec. split.
    + intros [post Hpost]. by exists "", post.
    + intros (pre & post & Heq). destruct pre; [by exists post | discriminate].
  - rewrite orb_true_iff, startsWith_spec, IH. split.
    + intros [[post Hpost] | (pre & post & Heq)].
      * by exists "", post.
      * exists (String c pre), post. simpl. by rewrite Heq.
    + intros (pre & post & Heq). destruct pre as [| c' pre]; simpl in Heq.
      * left. by exists post.
      * right. injection Heq as -> ->. by exists pre, post.
Qed.

Lemma includes_empty (s : string) : includes s "" = true.
Proof. destruct s; reflexivity. Qed.

(** ** searchNodes *)

Lemma has_spec (s : gset string) (x : string) : has s x = true <-> x ∈ s.
Proof. unfold has. apply bool_decide_eq_true. Qed.

Lemma matchesTerm_spec (e : Entity) (t : string) :
  matchesTerm e t = true <-> termFound t e.
Proof.
  unfold matchesTerm, termFound.
  rewrite !orb_true_iff, !includes_spec, existsb_exists.
  split; (intros [[H | H] | H] || intros [H | [H | H]]); auto.
  - destruct H as (o & Hin & Ho). right. right. exists o.
    split; [by apply list_elem_of_In | by apply includes_spec].
  - destruct H as (o & Hin & Ho). right. exists o.
    split; [by apply list_elem_of_In | by apply includes_spec].
Qed.

Lemma matchesAllTerms_spec (query : string) (e : Entity) :
  matchesAllTerms (splitWs (toLowerCase query)) e = true <-> everyTermFound query e.
Proof.
  unfold matchesAllTerms, everyTermFound. rewrite forallb_forall. split.
  - intros H t Ht. apply matchesTerm_spec, H. by apply list_elem_of_In.
  - intros H t Ht. apply matchesTerm_spec, H. by apply list_elem_of_In.
Qed.

Lemma matchingNames_from (terms : list string) (es : list Entity)
    (acc : gset string) (x : string) :
  x ∈ foldl (fun (acc : gset string) entity =>
               if matchesAllTerms terms entity then acc ∪ {[ name entity ]} else acc)
            acc es
  <-> x ∈ acc \/ exists e, e ∈ es /\ matchesAllTerms terms e = true /\ name e = x.
Proof.
  revert acc. induction es as [| e es IH]; intros acc; simpl.
  - split; [auto | intros [H | (e & He & _)]; [done | inversion He]].
  - rewrite IH. destruct (matchesAllTerms terms e) eqn:Hm.
    + rewrite elem_of_union, elem_of_singleton. split.
      * intros [[H | H] | (e' & He' & Hm' & Hn)]; auto.
        -- right. exists e. split; [constructor | done].
        -- right. exists e'. split; [by constructor | done].
      * intros [H | (e' & He' & Hm' & Hn)]; auto.
        apply elem_of_cons in He' as [-> | He']; [auto |].
        right. by exists e'.
    + split.
      * intros [H | (e' & He' & Hm' & Hn)]; auto.
        right. exists e'. split; [by constructor | done].
      * intros [H | (e' & He' & Hm' & Hn)]; auto.
        apply elem_of_cons in He' as [-> | He']; [congruence |].
        right. by exists e'.
Qed.

Lemma matchingNames_spec (terms : list string) (es : list Entity) (x : string) :
  x ∈ matchingNames terms es
  <-> exists e, e ∈ es /\ matchesAllTerms terms e = true /\ name e = x.
Proof.
  unfold matchingNames. rewrite matchingNames_from. split; [| auto].
  intros [H | H]; [by apply not_elem_of_empty in H | done].
Qed.

Lemma uniqueNames_same (es : list Entity) (e e' : Entity) :
  NoDup (name <$> es) -> e ∈ es -> e' ∈ es -> name e = name e' -> e = e'.
Proof.
  induction es as [| a es IH]; intros Hnd He He' Hname; [inversion He |].
  simpl in Hnd. apply NoDup_cons in Hnd as [Hnin Hnd].
  apply elem_of_cons in He as [-> | He]; apply elem_of_cons in He' as [-> | He'].
  - done.
  - exfalso. apply Hnin. rewrite Hname. by apply list_elem_of_fmap_2.
  - exfalso. apply Hnin. rewrite <- Hname. by apply list_elem_of_fmap_2.
  - by apply IH.
Qed.

(** C6, amended. [searchNodes] throws nothing and changes nothing. Its terms
    are the whitespace-separated pieces of the lowercased query, and a term
    is looked for in the lowercased name, the lowercased type and the
    lowercased observations. The entities returned are the stored entities
    that bear the name of a stored entity in which every term is found; when
    names are unique these are exactly the entities in which every term is
    found. The relations returned are exactly the stored relations both ends
    of which name a returned entity. Both lists keep the stored order. *)
Theorem searchNodes_returns_matches (w : World) (query : string) :
  let g := memoryFile w in
  exists g',
    searchNodes query w = (Returned g', w)
    /\ (forall e, e ∈ entities g' <->
          e ∈ entities g
          /\ exists e', e' ∈ entities g /\ name e' = name e /\ everyTermFound query e')
    /\ (uniqueNames g ->
        forall e, e ∈ entities g' <-> e ∈ entities g /\ everyTermFound query e)
    /\ (forall r, r ∈ relations g' <->
          r ∈ relations g /\ entityNamed g' (from r) /\ entityNamed g' (to r))
    /\ sublist (entities g') (entities g)
    /\ sublist (relations g') (relations g).
Proof.
  intros g.
  set (S := matchingNames (splitWs (toLowerCase query)) (entities g)).
  set (es' := List.filter (fun e => has S (name e)) (entities g)).
  assert (Hes : forall e, e ∈ es' <->
            e ∈ entities g
            /\ exists e', e' ∈ entities g /\ name e' = name e /\ everyTermFound query e').
  { intros e. unfold es'. rewrite elem_of_List_filter, has_spec.
    unfold S. rewrite matchingNames_spec. split.
    - intros [He (e' & He' & Hm & Hn)]. split; [done |].
      exists e'. by rewrite <- matchesAllTerms_spec.
    - intros [He (e' & He' & Hn & Hm)]. split; [done |].
      exists e'. by rewrite matchesAllTerms_spec. }
  assert (HS : forall x, x ∈ S <-> exists e, e ∈ es' /\ name e = x).
  { intros x. split.
    - intros Hx. pose proof Hx as Hx'. unfold S in Hx'.
      apply matchingNames_spec in Hx' as (e & He & Hm & Hn).
      exists e. split; [| done]. unfold es'.
      apply elem_of_List_filter. split; [done |]. apply has_spec. by rewrite Hn.
    - intros (e & He & Hn). unfold es' in He.
      apply elem_of_List_filter in He as [_ He]. apply has_spec in He. by rewrite <- Hn. }
  exists (mkGraph es'
            (List.filter (fun r => has S (from r) && has S (to r)) (relations g))).
  split; [reflexivity |]. simpl. split; [exact Hes |].
  split; [| split; [| split; apply List_filter_sublist]].
  - intros Hu e. rewrite Hes. split.
    + intros [He (e' & He' & Hn & Hm)]. split; [done |].
      by rewrite (uniqueNames_same (entities g) e e' Hu He He' (eq_sym Hn)).
    + intros [He Hm]. split; [done |]. by exists e.
  - intros r. rewrite elem_of_List_filter, andb_true_iff, !has_spec, !HS.
    unfold entityNamed. simpl. tauto.
Qed.

Lemma searchNodes_returns_matches_witness :
  let w := mkWorld Examples.physics Examples.noSessions in
  exists g',
    searchNodes "physics exam" w = (Returned g', w)
    /\ forall e, e ∈ entities g' <->
         e ∈ entities Examples.physics /\ everyTermFound "physics exam" e.
Proof.
  intros w.
  destruct (searchNodes_returns_matches w "physics exam") as (g' & Hrun & _ & Huniq & _).
  exists g'. split; [exact Hrun |].
  apply Huniq. unfold uniqueNames. simpl.
  apply (bool_decide_unpack _). vm_compute. exact I.
Defined.

(** C6, as stated, fails: with the fields taken as they are stored, the
    term "physics" occurs nowhere in the course "Physics 101", and the
    query "physics" returns that course all the same. *)
Lemma searchNodes_verbatim_counterexample :
  let w := mkWorld Examples.physics Examples.noSessions in
  let course := mkEntity "Physics 101" "course" [ "Code: PHYS101" ] in
  (exists g', searchNodes "physics" w = (Returned g', w) /\ course ∈ entities g')
  /\ ~ everyTermFoundVerbatim "physics" course.
Proof.
  intros w course. split.
  - eexists. split; [vm_compute; reflexivity |]. constructor.
  - intros H. specialize (H "physics"). destruct H as [H | [H | (o & Ho & H)]].
    + vm_compute. constructor.
    + apply includes_spec in H. vm_compute in H. discriminate.
    + apply includes_spec in H. vm_compute in H. discriminate.
    + apply list_elem_of_singleton in Ho. subst o.
      apply includes_spec in H. vm_compute in H. discriminate.
Qed.

(** ** Blank queries *)

Lemma lowerChar_whitespace (c : ascii) : isWhiteSpace c = true -> lowerChar c = c.
Proof.
  destruct c as [[] [] [] [] [] [] [] []]; vm_compute; intros H;
    first [ reflexivity | discriminate H ].
Qed.

Lemma toLowerCase_whitespace (s : string) :
  onlyWhiteSpace s -> toLowerCase s = s.
Proof.
  unfold onlyWhiteSpace. induction s as [| c s IH]; simpl; intros H; [done |].
  apply Forall_cons in H as [Hc Hs]. by rewrite (lowerChar_whitespace c Hc), IH.
Qed.

Lemma splitWsFrom_whitespace (inws : bool) (cur s : string) :
  onlyWhiteSpace s -> forall t, t ∈ splitWsFrom inws cur s -> t = cur \/ t = "".
Proof.
  unfold onlyWhiteSpace. revert inws cur.
  induction s as [| c s IH]; simpl; intros inws cur H t Ht.
  - apply list_elem_of_singleton in Ht. auto.
  - apply Forall_cons in H as [Hc Hs]. rewrite Hc in Ht. destruct inws.
    + by apply (IH true cur).
    + apply elem_of_cons in Ht as [-> | Ht]; [auto |].
      right. by destruct (IH true "" Hs t Ht).
Qed.

Lemma blank_query_terms (query : string) :
  onlyWhiteSpace query -> forall t, t ∈ splitWs (toLowerCase query) -> t = "".
Proof.
  intros H t Ht. rewrite (toLowerCase_whitespace query H) in Ht.
  by destruct (splitWsFrom_whitespace false "" query H t Ht).
Qed.

Lemma matchesTerm_empty (e : Entity) : matchesTerm e "" = true.
Proof. unfold matchesTerm. by rewrite includes_empty. Qed.

(** C10. For the empty query and for a query of whitespace only, every term
    of the split is the empty string, which occurs in every name; so
    [searchNodes] returns all stored entities, and the stored relations both
    ends of which name a stored entity: the whole graph when every relation
    has existing ends. *)
Theorem searchNodes_blank_query (w : World) (query : string) :
  onlyWhiteSpace query ->
  let g := memoryFile w in
  (forall t, t ∈ splitWs (toLowerCase query) -> t = "")
  /\ (forall e, substringOf "" (toLowerCase (name e)))
  /\ exists g',
       searchNodes query w = (Returned g', w)
       /\ entities g' = entities g
       /\ (forall r, r ∈ relations g' <->
             r ∈ relations g /\ entityNamed g (from r) /\ entityNamed g (to r))
       /\ sublist (relations g') (relations g)
       /\ (endpointsExist g -> g' = g).
Proof.
  intros Hblank g.
  split; [by apply blank_query_terms |].
  split; [intros e; apply includes_spec, includes_empty |].
  set (terms := splitWs (toLowerCase query)).
  set (S := matchingNames terms (entities g)).
  assert (Hall : forall e, matchesAllTerms terms e = true).
  { intros e. apply forallb_forall. intros t Ht.
    rewrite (blank_query_terms query Hblank t); [apply matchesTerm_empty |].
    by apply list_elem_of_In. }
  assert (HS : forall x, x ∈ S <-> entityNamed g x).
  { intros x. unfold S. rewrite matchingNames_spec. unfold entityNamed. split.
    - intros (e & He & _ & Hn). eauto.
    - intros (e & He & Hn). eauto. }
  assert (Hes : List.filter (fun e => has S (name e)) (entities g) = entities g).
  { apply List_filter_all. intros e He. apply has_spec, HS. by exists e. }
  exists (mkGraph (entities g)
            (List.filter (fun r => has S (from r) && has S (to r)) (relations g))).
  split.
  { unfold searchNodes, mbind, IO_bind, loadGraph, mret, IO_ret. fold g. fold terms.
    fold S. by rewrite Hes. }
  simpl. split; [done |]. split; [| split; [apply List_filter_sublist |]].
  - intros r. rewrite elem_of_List_filter, andb_true_iff, !has_spec, !HS. tauto.
  - intros Hends. destruct g as [es rs] eqn:Hg. simpl in *. f_equal.
    apply List_filter_all. intros r Hr. destruct (Hends r Hr) as [Hf Ht].
    apply andb_true_iff. split; by apply has_spec, HS.
Qed.

Lemma searchNodes_blank_query_witness :
  let w := mkWorld Examples.physics Examples.noSessions in
  exists g',
    searchNodes "  " w = (Returned g', w) /\ entities g' = entities Examples.physics.
Proof.
  intros w.
  destruct (searchNodes_blank_query w "  ") as (_ & _ & g' & Hrun & Hes & _).
  - repeat constructor.
  - exists g'. split; [exact Hrun | exact Hes].
Defined.

(** ** Sorting by an integer key *)

Lemma insertBy_perm {A : Type} (key : A -> Z) (x : A) (l : list A) :
  insertBy key x l ≡ₚ x :: l.
Proof.
  induction l as [| y l IH]; simpl; [done |].
  destruct (key x <=? key y); [done |].
  rewrite IH. apply Permutation_swap.
Qed.

Lemma sortBy_perm {A : Type} (key : A -> Z) (l : list A) : sortBy key l ≡ₚ l.
Proof.
  induction l as [| x l IH]; simpl; [done |].
  unfold sortBy in *. simpl. by rewrite insertBy_perm, IH.
Qed.

Lemma elem_of_sortBy {A : Type} (key : A -> Z) (l : list A) (x : A) :
  x ∈ sortBy key l <-> x ∈ l.
Proof. by rewrite sortBy_perm. Qed.

(** ** Upcoming deadlines *)

Lemma ceilDiv_spec (a b : Z) : 0 < b -> isCeilingOf (ceilDiv a b) a b.
Proof.
  intros Hb. unfold isCeilingOf, ceilDiv.
  pose proof (Z.div_mod (- a) b ltac:(lia)) as Hdm.
  pose proof (Z.mod_pos_bound (- a) b Hb) as Hmod.
  nia.
Qed.

Lemma findEntity_Some (g : KnowledgeGraph) (n type : string) (e : Entity) :
  findEntity g n type = Some e ->
  e ∈ entities g /\ name e = n /\ entityType e = type.
Proof.
  unfold findEntity. intros H. apply find_some in H as [Hin Hp].
  apply andb_true_iff in Hp as [Hn Ht].
  apply String.eqb_eq in Hn, Ht. split; [by apply list_elem_of_In | done].
Qed.

Section DeadlineFacts.

Variable Date_parse : string -> option Z.
Variable endDateOf : Z -> Z -> Z.

Lemma datedWithin_elem (key : string) (today endDate : Z) (entity course : Entity)
    (d : Deadline) :
  d ∈ datedWithin Date_parse key today endDate entity course <->
  exists obs due,
    List.find (fun o => startsWith o key) (observations entity) = Some obs
    /\ Date_parse (fieldValue obs) = Some due
    /\ today <= due <= endDate
    /\ d = mkDeadline entity due course (ceilDiv (due - today) MS_PER_DAY).
Proof.
  unfold datedWithin.
  destruct (List.find _ (observations entity)) as [obs |] eqn:Hfind.
  2: { split; [intros H; inversion H | intros (? & ? & ? & _); discriminate]. }
  destruct (Date_parse (fieldValue obs)) as [due |] eqn:Hparse.
  2: { split; [intros H; inversion H |].
       intros (obs' & due' & Ho & Hd & _). congruence. }
  destruct ((today <=? due) && (due <=? endDate)) eqn:Hwin.
  - apply andb_true_iff in Hwin as [H1 H2]. apply Z.leb_le in H1, H2.
    rewrite list_elem_of_singleton. split.
    + intros ->. exists obs, due. auto.
    + intros (obs' & due' & Ho & Hd & _ & ->). congruence.
  - split; [intros H; inversion H |].
    intros (obs' & due' & Ho & Hd & [H1 H2] & _).
    assert (due' = due) as -> by congruence.
    apply Z.leb_le in H1, H2. rewrite H1, H2 in Hwin. discriminate.
Qed.

Lemma assignmentDeadlines_elem (g : KnowledgeGraph) (today endDate : Z)
    (course : Entity) (d : Deadline) :
  d ∈ assignmentDeadlines Date_parse g today endDate course <->
  exists r assignment,
    r ∈ relations g /\ relationType r = "assigned_in" /\ to r = name course
    /\ findEntity g (from r) "assignment" = Some assignment
    /\ d ∈ datedWithin Date_parse "Due:" today endDate assignment course.
Proof.
  unfold assignmentDeadlines. rewrite list_elem_of_In, in_flat_map. split.
  - intros (r & Hr & Hd). apply list_elem_of_In in Hr.
    destruct (_ && _) eqn:Hc; [| inversion Hd].
    apply andb_true_iff in Hc as [Ht Hto]. apply String.eqb_eq in Ht, Hto.
    destruct (findEntity g (from r) "assignment") as [a |] eqn:Ha; [| inversion Hd].
    exists r, a. apply list_elem_of_In in Hd. repeat split; assumption || reflexivity.
  - intros (r & a & Hr & Ht & Hto & Ha & Hd). exists r.
    split; [by apply list_elem_of_In |].
    rewrite Ht, Hto, !String.eqb_refl, Ha. simpl. by apply list_elem_of_In.
Qed.

Lemma examDeadlines_elem (g : KnowledgeGraph) (today endDate : Z)
    (course : Entity) (d : Deadline) :
  d ∈ examDeadlines Date_parse g today endDate course ->
  exists r exam,
    r ∈ relations g /\ relationType r = "scheduled_for" /\ from r = name course
    /\ findEntity g (to r) "exam" = Some exam
    /\ d ∈ datedWithin Date_parse "Date:" today endDate exam course.
Proof.
  unfold examDeadlines. rewrite list_elem_of_In, in_flat_map.
  intros (r & Hr & Hd). apply list_elem_of_In in Hr.
  destruct (_ && _) eqn:Hc; [| inversion Hd].
  apply andb_true_iff in Hc as [Ht Hfrom]. apply String.eqb_eq in Ht, Hfrom.
  destruct (findEntity g (to r) "exam") as [x |] eqn:Hx; [| inversion Hd].
  exists r, x. apply list_elem_of_In in Hd. repeat split; assumption || reflexivity.
Qed.

(** What a returned report is made of. *)
Lemma getUpcomingDeadlines_returned (now : Z) (termName courseName : option string)
    (daysAhead : option Z) (w w' : World) (report : DeadlineReport) :
  getUpcomingDeadlines Date_parse endDateOf now termName courseName daysAhead w
    = (Returned report, w') ->
  w' = w
  /\ endDate report = endDateOf now (default 14 daysAhead)
  /\ exists relevantCourses,
       (given termName = None -> given courseName = None ->
          relevantCourses =
            List.filter (fun e => (entityType e =? "course")%string)
                        (entities (memoryFile w)))
       /\ (forall t, given termName = Some t ->
             forall c, c ∈ relevantCourses -> c ∈ coursesOfTerm (memoryFile w) t)
       /\ forall d, d ∈ deadlines report <->
            exists c, c ∈ relevantCourses
              /\ (d ∈ assignmentDeadlines Date_parse (memoryFile w) now (endDate report) c
                  \/ d ∈ examDeadlines Date_parse (memoryFile w) now (endDate report) c).
Proof.
  unfold getUpcomingDeadlines, mbind, IO_bind, loadGraph, mret, IO_ret, throw.
  set (g := memoryFile w).
  set (stop := endDateOf now (default 14 daysAhead)).
  set (byTerm := match given termName with
                 | Some t => _
                 | None => _
                 end).
  intros Hrun.
  assert (Hterm : exists cs, byTerm w = (Returned cs, w)
            /\ (given termName = None ->
                  cs = List.filter (fun e => (entityType e =? "course")%string) (entities g))
            /\ (forall t, given termName = Some t -> cs = coursesOfTerm g t)).
  { subst byTerm. destruct (given termName) as [t |].
    - destruct (findEntity g t "term"); [| simpl in Hrun; discriminate].
      eexists. split; [reflexivity |]. split; [discriminate |]. by intros ? [= <-].
    - eexists. split; [reflexivity |]. split; [done | discriminate]. }
  destruct Hterm as (cs & Hcs & HcsNone & HcsSome). rewrite Hcs in Hrun.
  set (byCourse := match given courseName with
                   | Some c => _
                   | None => _
                   end) in Hrun.
  assert (Hcourse : exists cs', byCourse w = (Returned cs', w)
            /\ (given courseName = None -> cs' = cs)
            /\ (forall c, c ∈ cs' -> c ∈ cs)).
  { subst byCourse. destruct (given courseName) as [cn |].
    - destruct (List.filter _ cs) as [| c0 rest] eqn:Hf; [simpl in Hrun; discriminate |].
      eexists. split; [reflexivity |]. split; [discriminate |].
      intros c Hc. rewrite <- Hf in Hc. by apply elem_of_List_filter in Hc as [Hc _].
    - eexists. split; [reflexivity |]. split; done. }
  destruct Hcourse as (cs' & Hcs' & Hcs'None & Hcs'sub). rewrite Hcs' in Hrun.
  injection Hrun as <- <-. simpl. split; [done |]. split; [done |].
  exists cs'. split; [| split].
  - intros Ht Hc. by rewrite (Hcs'None Hc), (HcsNone Ht).
  - intros t Ht c Hc. rewrite <- (HcsSome t Ht). by apply Hcs'sub.
  - intros d. rewrite elem_of_sortBy, list_elem_of_In, in_flat_map.
    split.
    + intros (c & Hc & Hd). exists c. split; [by apply list_elem_of_In |].
      apply in_app_or in Hd. by rewrite !list_elem_of_In.
    + intros (c & Hc & Hd). exists c. split; [by apply list_elem_of_In |].
      apply in_or_app. by rewrite !list_elem_of_In in Hd.
Qed.

(** C7. Every record of a returned deadline report has a due date inside
    the window from the query time to the end date, and its
    [daysRemaining] is the ceiling of the time from the query to the due
    date divided by 86,400,000 ms; the record of an assignment gets that
    date from the assignment's first [Due:] observation. Conversely,
    without a term or course filter, an assignment assigned in a course
    whose [Due:] observation parses to a date inside the window has such
    a record. *)
Theorem daysRemaining_is_ceiling (now : Z) (termName courseName : option string)
    (daysAhead : option Z) (w w' : World) (report : DeadlineReport) :
  getUpcomingDeadlines Date_parse endDateOf now termName courseName daysAhead w
    = (Returned report, w') ->
  MS_PER_DAY = 86400000
  /\ (forall d, d ∈ deadlines report ->
        isCeilingOf (daysRemaining d) (dlDueDate d - now) MS_PER_DAY
        /\ now <= dlDueDate d <= endDate report
        /\ (entityType (dlEntity d) = "assignment" ->
            exists obs,
              List.find (fun o => startsWith o "Due:") (observations (dlEntity d))
                = Some obs
              /\ Date_parse (fieldValue obs) = Some (dlDueDate d)))
  /\ (given termName = None -> given courseName = None ->
      forall r course assignment obs due,
        r ∈ relations (memoryFile w) ->
        relationType r = "assigned_in" -> to r = name course ->
        course ∈ entities (memoryFile w) -> entityType course = "course" ->
        findEntity (memoryFile w) (from r) "assignment" = Some assignment ->
        List.find (fun o => startsWith o "Due:") (observations assignment) = Some obs ->
        Date_parse (fieldValue obs) = Some due ->
        now <= due <= endDate report ->
        exists d, d ∈ deadlines report
          /\ dlEntity d = assignment /\ dlDueDate d = due
          /\ isCeilingOf (daysRemaining d) (due - now) MS_PER_DAY).
Proof.
  intros Hrun. split; [reflexivity |].
  apply getUpcomingDeadlines_returned in Hrun as (-> & Hend & cs & Hall & _ & Hd).
  split.
  - intros d Hin. apply Hd in Hin as (c & _ & [Ha | He]).
    + apply assignmentDeadlines_elem in Ha as (r & a & _ & _ & _ & Hfind & Hin).
      apply datedWithin_elem in Hin as (obs & due & Hobs & Hparse & Hwin & ->).
      simpl. split; [by apply ceilDiv_spec |]. split; [done |].
      intros _. by exists obs.
    + apply examDeadlines_elem in He as (r & x & _ & _ & _ & Hfind & Hin).
      apply datedWithin_elem in Hin as (obs & due & Hobs & Hparse & Hwin & ->).
      simpl. split; [by apply ceilDiv_spec |]. split; [done |].
      apply findEntity_Some in Hfind as (_ & _ & Htype). rewrite Htype. discriminate.
  - intros Ht Hc r course a obs due Hr Htype Hto Hcourse Hctype Ha Hobs Hparse Hwin.
    exists (mkDeadline a due course (ceilDiv (due - now) MS_PER_DAY)).
    split; [| simpl; split; [done |]; split; [done |]; by apply ceilDiv_spec].
    apply Hd. exists course. split.
    + rewrite (Hall Ht Hc). apply elem_of_List_filter. split; [done |].
      by apply String.eqb_eq.
    + left. apply assignmentDeadlines_elem. exists r, a.
      repeat (split; [done |]). apply datedWithin_elem. by exists obs, due.
Qed.

End DeadlineFacts.

Lemma daysRemaining_is_ceiling_witness :
  let w := mkWorld Examples.semester Examples.noSessions in
  let d := mkDeadline Examples.hw1 1736467200000 Examples.cs101 5 in
  isCeilingOf 5 (1736467200000 - Examples.noon5Jan) MS_PER_DAY.
Proof.
  intros w d.
  pose (report := mkReport [ d ] Examples.noon5Jan
                    (utcEndDate Examples.noon5Jan 14) None None 1).
  assert (Hrun : getUpcomingDeadlines parseIsoDate utcEndDate Examples.noon5Jan
                   None None None w = (Returned report, w)).
  { vm_compute. reflexivity. }
  destruct (daysRemaining_is_ceiling parseIsoDate utcEndDate Examples.noon5Jan
              None None None w w report Hrun) as (_ & Hsound & _).
  destruct (Hsound d) as [Hceil _]; [constructor |].
  exact Hceil.
Defined.

(** With unique entity names the term filter of [getUpcomingDeadlines]
    selects no course at all: it asks for a part_of relation from the term
    to itself and then for a course that bears the term's name. *)
Lemma coursesOfTerm_unique_names (g : KnowledgeGraph) (termName : string) (term : Entity) :
  uniqueNames g ->
  findEntity g termName "term" = Some term ->
  coursesOfTerm g termName = [].
Proof.
  intros Hu Hterm. apply findEntity_Some in Hterm as (Hin & Hname & Htype).
  unfold coursesOfTerm.
  assert (Hnone : findEntity g termName "course" = None).
  { destruct (findEntity g termName "course") as [c |] eqn:Hc; [| done].
    apply findEntity_Some in Hc as (Hcin & Hcname & Hctype).
    pose proof (uniqueNames_same (entities g) c term Hu Hcin Hin
                  (eq_trans Hcname (eq_sym Hname))) as ->.
    rewrite Htype in Hctype. discriminate. }
  induction (relations g) as [| r rs IH]; simpl; [done |].
  rewrite IH. destruct (_ && _) eqn:Hc; [| done].
  apply andb_true_iff in Hc as [Hc Hto]. apply andb_true_iff in Hc as [_ Hft].
  apply String.eqb_eq in Hto, Hft. by rewrite Hft, Hto, Hnone.
Qed.

(** C2, as the code has it. In a store where CS101 is part_of the term
    "Spring 2025" and HW1, due 2025-01-10, is assigned in CS101, the query
    of 2025-01-05 with the term filter reports nothing, although the same
    query without filter reports HW1 five days ahead and the term overview
    finds CS101 in the term. *)
Theorem getUpcomingDeadlines_term_filter_finds_nothing :
  let w := mkWorld Examples.semester Examples.noSessions in
  let ask := getUpcomingDeadlines parseIsoDate utcEndDate Examples.noon5Jan in
  (exists report,
     ask (Some "Spring 2025") None None w = (Returned report, w)
     /\ deadlines report = [])
  /\ (exists report,
     ask None None None w = (Returned report, w)
     /\ deadlines report
        = [ mkDeadline Examples.hw1 1736467200000 Examples.cs101 5 ])
  /\ coursesOfTerm Examples.semester "Spring 2025" = []
  /\ termOverviewCourses Examples.semester "Spring 2025" = [ Examples.cs101 ].
Proof.
  intros w ask. split; [| split; [| split]].
  - exists (mkReport [] Examples.noon5Jan (utcEndDate Examples.noon5Jan 14)
              None (Some "Spring 2025") 0).
    split; [vm_compute; reflexivity | reflexivity].
  - exists (mkReport [ mkDeadline Examples.hw1 1736467200000 Examples.cs101 5 ]
              Examples.noon5Jan (utcEndDate Examples.noon5Jan 14) None None 1).
    split; [vm_compute; reflexivity | reflexivity].
  - vm_compute. reflexivity.
  - vm_compute. reflexivity.
Qed.

(** ** Related concepts: the two enqueueing loops *)

Lemma truthy_spec (s : string) : truthy s = true <-> s <> "".
Proof.
  unfold truthy. rewrite negb_true_iff. apply String.eqb_neq.
Qed.

Lemma neighbour_linked (current : string) (r : Relation) (n : string) (fwd : bool) :
  neighbour current r = Some (n, fwd) ->
  (from r = current /\ to r = n) \/ (from r = n /\ to r = current).
Proof.
  unfold neighbour. destruct (from r =? current)%string eqn:Hf.
  - intros [= <- _]. apply String.eqb_eq in Hf. auto.
  - destruct (to r =? current)%string eqn:Ht; [| discriminate].
    intros [= <- _]. apply String.eqb_eq in Ht. auto.
Qed.

(** A loop appends to the queue the items it creates, adds exactly their
    names to the processed set, creates no name twice and none that was
    processed, one level below the current item; afterwards every
    non-empty neighbour along the relation type is processed. *)
Lemma enqueueNeighbours_spec (relType : string) (describe : string -> bool -> string)
    (current : string) (d : Z) (here : list string) (rels : list Relation)
    (P : gset string) (Q : list QueueItem) :
  exists new,
    enqueueNeighbours relType describe current d here rels (P, Q)
      = (P ∪ list_to_set (queuedNames new), Q ++ new)
    /\ NoDup (queuedNames new)
    /\ (forall q, q ∈ new ->
          (itemName q ∉ P) /\ currentDepth q = d + 1
          /\ exists r fwd, r ∈ rels /\ relationType r = relType
               /\ neighbour current r = Some (itemName q, fwd))
    /\ (forall r n fwd, r ∈ rels -> relationType r = relType ->
          neighbour current r = Some (n, fwd) -> n <> "" ->
          n ∈ P ∪ list_to_set (queuedNames new)).
Proof.
  induction rels as [| r rels IH] using rev_ind.
  - exists []. simpl. split; [f_equal; [set_solver | by rewrite app_nil_r] |].
    split; [constructor |]. split; intros; exfalso; eapply not_elem_of_nil; eauto.
  - destruct IH as (new & Hrun & Hnd & Hnew & Hall).
    unfold enqueueNeighbours in *. rewrite foldl_snoc, Hrun. clear Hrun.
    set (P1 := P ∪ list_to_set (queuedNames new)) in *.
    assert (Hkeep : exists new',
      (P1, Q ++ new) = (P ∪ list_to_set (queuedNames new'), Q ++ new')
      /\ NoDup (queuedNames new')
      /\ (forall q, q ∈ new' ->
            (itemName q ∉ P) /\ currentDepth q = d + 1
            /\ exists r0 fwd, r0 ∈ rels ++ [ r ] /\ relationType r0 = relType
                 /\ neighbour current r0 = Some (itemName q, fwd))
      /\ (forall r0 n fwd, r0 ∈ rels -> relationType r0 = relType ->
            neighbour current r0 = Some (n, fwd) -> n <> "" ->
            n ∈ P ∪ list_to_set (queuedNames new'))).
    { exists new. split; [done |]. split; [done |]. split; [| done].
      intros q Hq. destruct (Hnew q Hq) as (H1 & H2 & r0 & fwd & H3 & H4).
      split; [done |]. split; [done |]. exists r0, fwd.
      split; [apply elem_of_app; by left | done]. }
    destruct (relationType r =? relType)%string eqn:Htype.
    2: { destruct Hkeep as (new' & Heq & Hnd' & Hnew' & Hall').
         exists new'. split; [done |]. split; [done |]. split; [done |].
         intros r0 n fwd Hr0 Ht0. apply elem_of_app in Hr0 as [Hr0 | Hr0]; [by eapply Hall' |].
         apply list_elem_of_singleton in Hr0. subst r0.
         apply String.eqb_neq in Htype. done. }
    destruct (neighbour current r) as [[n fwd] |] eqn:Hnb.
    2: { destruct Hkeep as (new' & Heq & Hnd' & Hnew' & Hall').
         exists new'. split; [done |]. split; [done |]. split; [done |].
         intros r0 n fwd Hr0 Ht0 Hn0. apply elem_of_app in Hr0 as [Hr0 | Hr0]; [by eapply Hall' |].
         apply list_elem_of_singleton in Hr0. subst r0. congruence. }
    simpl. destruct (truthy n && negb (has P1 n)) eqn:Hcond.
    + apply andb_true_iff in Hcond as [Hn Hfresh]. apply truthy_spec in Hn.
      apply negb_true_iff in Hfresh.
      assert (HnP1 : n ∉ P1).
      { intros Hin. apply has_spec in Hin. congruence. }
      set (q := mkItem n (d + 1) (here ++ [ describe n fwd ])).
      exists (new ++ [ q ]). unfold queuedNames in *. rewrite fmap_app. simpl.
      split; [f_equal; [unfold P1; set_solver | by rewrite app_assoc] |].
      split.
      { apply NoDup_app. split; [done |]. split; [| apply NoDup_singleton].
        intros m Hm Hm'. apply list_elem_of_singleton in Hm'. subst m.
        apply HnP1. unfold P1. set_solver. }
      split.
      { intros q' Hq'. apply elem_of_app in Hq' as [Hq' | Hq'].
        - destruct (Hnew q' Hq') as (H1 & H2 & r0 & fwd0 & H3 & H4).
          split; [done |]. split; [done |]. exists r0, fwd0.
          split; [apply elem_of_app; by left | done].
        - apply list_elem_of_singleton in Hq'. subst q'. simpl.
          split; [unfold P1 in HnP1; set_solver |]. split; [done |].
          exists r, fwd. apply String.eqb_eq in Htype.
          split; [apply elem_of_app; right; constructor | done]. }
      intros r0 n0 fwd0 Hr0 Ht0 Hn0 Hne. apply elem_of_app in Hr0 as [Hr0 | Hr0].
      * pose proof (Hall r0 n0 fwd0 Hr0 Ht0 Hn0 Hne). set_solver.
      * apply list_elem_of_singleton in Hr0. subst r0.
        assert (n0 = n) as -> by congruence. set_solver.
    + destruct Hkeep as (new' & Heq & Hnd' & Hnew' & Hall').
      exists new'. split; [done |]. split; [done |]. split; [done |].
      intros r0 n0 fwd0 Hr0 Ht0 Hn0 Hne. apply elem_of_app in Hr0 as [Hr0 | Hr0];
        [by eapply Hall' |].
      apply list_elem_of_singleton in Hr0. subst r0.
      assert (n0 = n) as -> by congruence.
      injection Heq as Heq _. rewrite <- Heq.
      apply andb_false_iff in Hcond as [Hc | Hc].
      * apply truthy_spec in Hne. congruence.
      * apply negb_false_iff in Hc. by apply has_spec.
Qed.

(** ** Related concepts: one iteration *)

Lemma iteration_spec (g : KnowledgeGraph) (x : string) (maxD : Z)
    (item : QueueItem) (Q : list QueueItem) (P : gset string)
    (R : list RelatedConcept) :
  let n := itemName item in
  let d := currentDepth item in
  let record := fun e =>
    mkRelated e (path item) d (sourcesInto g "covers" "course" n)
      (sourcesInto g "helps_with" "resource" n) in
  exists new R',
    iteration g x maxD item Q P R = (Q ++ new, P ∪ list_to_set (queuedNames new), R')
    /\ NoDup (queuedNames new)
    /\ (forall q, q ∈ new ->
          (itemName q ∉ P) /\ currentDepth q = d + 1 /\ directlyLinked g n (itemName q))
    /\ (R' = R
        \/ exists e, findEntity g n "concept" = Some e /\ n <> x /\ d <= maxD
                     /\ R' = R ++ [ record e ])
    /\ (forall e, findEntity g n "concept" = Some e -> d <= maxD \/ n = x ->
          (n <> x -> R' = R ++ [ record e ])
          /\ forall r m fwd, r ∈ relations g ->
               relationType r = "related_to" \/ relationType r = "prerequisite_for" ->
               neighbour n r = Some (m, fwd) -> m <> "" ->
               m ∈ P ∪ list_to_set (queuedNames new)).
Proof.
  intros n d record. unfold iteration. fold n d.
  assert (Hidle : exists new R',
    (Q, P, R) = (Q ++ new, P ∪ list_to_set (queuedNames new), R')
    /\ NoDup (queuedNames new)
    /\ (forall q, q ∈ new ->
          (itemName q ∉ P) /\ currentDepth q = d + 1 /\ directlyLinked g n (itemName q))
    /\ (R' = R
        \/ exists e, findEntity g n "concept" = Some e /\ n <> x /\ d <= maxD
                     /\ R' = R ++ [ record e ])).
  { exists [], R. simpl. rewrite app_nil_r.
    split; [f_equal; f_equal; set_solver |]. split; [constructor |].
    split; [| by left]. intros q Hq. inversion Hq. }
  destruct ((maxD <? d) && negb (n =? x)%string) eqn:Hskip.
  { destruct Hidle as (new & R' & Heq & H1 & H2 & H3). exists new, R'.
    repeat (split; [done |]). intros e He [Hd | Hn].
    - apply andb_true_iff in Hskip as [Hlt _]. apply Z.ltb_lt in Hlt. lia.
    - apply andb_true_iff in Hskip as [_ Hne]. apply negb_true_iff in Hne.
      apply String.eqb_neq in Hne. done. }
  destruct (findEntity g n "concept") as [e |] eqn:Hfind.
  2: { destruct Hidle as (new & R' & Heq & H1 & H2 & H3). exists new, R'.
       split; [done |]. split; [done |]. split; [done |]. split.
       - destruct H3 as [-> | (e' & He' & _)]; [by left | congruence].
       - intros e' He'. discriminate. }
  clear Hidle.
  destruct (enqueueNeighbours_spec "related_to" describeRelated n d (path item)
              (relations g) P Q) as (new1 & Hrun1 & Hnd1 & Hnew1 & Hall1).
  rewrite Hrun1.
  destruct (enqueueNeighbours_spec "prerequisite_for" describePrerequisite n d
              (path item) (relations g) (P ∪ list_to_set (queuedNames new1))
              (Q ++ new1)) as (new2 & Hrun2 & Hnd2 & Hnew2 & Hall2).
  rewrite Hrun2. simpl.
  exists (new1 ++ new2). eexists.
  split.
  { unfold queuedNames. rewrite fmap_app, list_to_set_app_L, app_assoc, union_assoc_L.
    reflexivity. }
  split.
  { unfold queuedNames. rewrite fmap_app. apply NoDup_app.
    split; [done |]. split; [| done].
    intros m Hm1 Hm2. apply list_elem_of_fmap in Hm2 as (q & -> & Hq).
    destruct (Hnew2 q Hq) as (Hfresh & _). apply Hfresh.
    apply elem_of_union. right. by apply elem_of_list_to_set. }
  split.
  { intros q Hq. apply elem_of_app in Hq as [Hq | Hq].
    - destruct (Hnew1 q Hq) as (Hfresh & Hd & r & fwd & Hr & Ht & Hnb).
      split; [done |]. split; [done |].
      exists r. split; [done |]. split; [by left |]. by eapply neighbour_linked.
    - destruct (Hnew2 q Hq) as (Hfresh & Hd & r & fwd & Hr & Ht & Hnb).
      split; [intros Hin; apply Hfresh; apply elem_of_union; by left |].
      split; [done |].
      exists r. split; [done |]. split; [by right |]. by eapply neighbour_linked. }
  assert (Hdepth : n <> x -> d <= maxD).
  { intros Hne. apply andb_false_iff in Hskip as [Hlt | Hn].
    - apply Z.ltb_ge in Hlt. lia.
    - apply negb_false_iff, String.eqb_eq in Hn. done. }
  split.
  { destruct (n =? x)%string eqn:Hn; simpl; [by left |].
    right. exists e. apply String.eqb_neq in Hn. auto. }
  intros e' [= <-] _. split.
  { intros Hne. apply String.eqb_neq in Hne. by rewrite Hne. }
  intros r m fwd Hr [Ht | Ht] Hnb Hm.
  - pose proof (Hall1 r m fwd Hr Ht Hnb Hm) as Hin.
    unfold queuedNames. rewrite fmap_app, list_to_set_app_L.
    apply elem_of_union in Hin as [Hin | Hin];
      [apply elem_of_union; by left |].
    apply elem_of_union. right. apply elem_of_union. by left.
  - pose proof (Hall2 r m fwd Hr Ht Hnb Hm) as Hin.
    unfold queuedNames. rewrite fmap_app, list_to_set_app_L.
    rewrite union_assoc_L. done.
Qed.

Lemma processQueue_nil (fuel : nat) (g : KnowledgeGraph) (x : string) (maxD : Z)
    (P : gset string) (R : list RelatedConcept) :
  processQueue fuel g x maxD [] P R = Some R.
Proof. by destruct fuel. Qed.

(** The rule of the loop: a property of queue, processed set and results
    that every iteration keeps holds, with the queue empty, of what the
    loop returns. *)
Lemma processQueue_invariant (g : KnowledgeGraph) (x : string) (maxD : Z)
    (Inv : list QueueItem -> gset string -> list RelatedConcept -> Prop) :
  (forall item Q P R Q' P' R',
     Inv (item :: Q) P R -> iteration g x maxD item Q P R = (Q', P', R') ->
     Inv Q' P' R') ->
  forall fuel Q P R found,
    Inv Q P R -> processQueue fuel g x maxD Q P R = Some found ->
    exists P', Inv [] P' found.
Proof.
  intros Hstep. induction fuel as [| fuel IH]; intros Q P R found HInv Hrun.
  - destruct Q; [| discriminate]. injection Hrun as <-. by exists P.
  - destruct Q as [| item Q]; [injection Hrun as <-; by exists P |].
    simpl in Hrun.
    destruct (iteration g x maxD item Q P R) as [[Q' P'] R'] eqn:Hit.
    eapply IH; [| exact Hrun]. by eapply Hstep.
Qed.

(** ** Related concepts: the loop ends *)

Lemma size_list_to_set_le (l : list string) :
  (size (list_to_set l : gset string) <= length l)%nat.
Proof.
  induction l as [| a l IH]; simpl length.
  - by rewrite list_to_set_nil, size_empty.
  - rewrite list_to_set_cons, size_union_alt, size_singleton.
    pose proof (subseteq_size (list_to_set l ∖ {[ a ]}) (list_to_set l : gset string)
                  ltac:(set_solver)).
    lia.
Qed.

Lemma directlyLinked_end (g : KnowledgeGraph) (a b : string) :
  directlyLinked g a b -> b ∈ relationEnds g.
Proof.
  intros (r & Hr & _ & Hends). unfold relationEnds.
  apply elem_of_list_to_set, list_elem_of_In, in_flat_map.
  exists r. split; [by apply list_elem_of_In |].
  simpl. destruct Hends as [[_ <-] | [<- _]]; auto.
Qed.

Lemma processQueue_terminates (g : KnowledgeGraph) (x : string) (maxD : Z) :
  forall fuel Q P R,
    (length Q + size (relationEnds g ∖ P) <= fuel)%nat ->
    is_Some (processQueue fuel g x maxD Q P R).
Proof.
  induction fuel as [| fuel IH]; intros Q P R Hfuel.
  - destruct Q; [by eexists | simpl in Hfuel; lia].
  - destruct Q as [| item Q]; [by eexists |]. simpl.
    destruct (iteration_spec g x maxD item Q P R)
      as (new & R' & Hit & Hnd & Hnew & _).
    rewrite Hit. apply IH. simpl in Hfuel. rewrite length_app.
    set (N := list_to_set (queuedNames new) : gset string).
    assert (HN : N ⊆ relationEnds g ∖ P).
    { intros m Hm. apply elem_of_list_to_set, list_elem_of_fmap in Hm as (q & -> & Hq).
      destruct (Hnew q Hq) as (Hfresh & _ & Hlink).
      apply elem_of_difference. split; [by eapply directlyLinked_end | done]. }
    assert (HsizeN : size N = length new).
    { unfold N. rewrite size_list_to_set by done. unfold queuedNames.
      by rewrite length_fmap. }
    rewrite <- difference_difference_l_L, size_difference by done.
    pose proof (subseteq_size _ _ HN). lia.
Qed.

Lemma length_relation_ends (rs : list Relation) :
  length (flat_map (fun r => [ from r; to r ]) rs) = (2 * length rs)%nat.
Proof. induction rs as [| r rs IH]; simpl; [done | lia]. Qed.

Lemma findRelatedConcepts_fuel (g : KnowledgeGraph) (x : string) (maxD : Z) :
  is_Some (processQueue (queueFuel g) g x maxD [ mkItem x 0 [] ] {[ x ]} []).
Proof.
  apply processQueue_terminates. unfold queueFuel.
  pose proof (subseteq_size (relationEnds g ∖ {[ x ]}) (relationEnds g) ltac:(set_solver))
    as Hsub.
  pose proof (size_list_to_set_le (flat_map (fun r => [ from r; to r ]) (relations g)))
    as Hle.
  rewrite length_relation_ends in Hle. fold (relationEnds g) in Hle.
  change (length [ mkItem x 0 [] ]) with 1%nat. lia.
Qed.

(** ** The stable sort *)

Section SortBy.

Context {A : Type} (key : A -> Z).

Let le (a b : A) : Prop := key a <= key b.

Lemma insertBy_sorted (x : A) (l : list A) :
  StronglySorted le l -> StronglySorted le (insertBy key x l).
Proof.
  induction 1 as [| y l Hl IH Hy]; simpl.
  - repeat constructor.
  - destruct (key x <=? key y) eqn:Hxy.
    + apply Z.leb_le in Hxy. constructor; [by constructor |].
      constructor; [done |].
      eapply Forall_impl; [exact Hy |]. unfold le. intros z Hz. simpl in Hz. lia.
    + apply Z.leb_gt in Hxy. constructor; [done |].
      rewrite insertBy_perm. constructor; [unfold le; lia | done].
Qed.

Lemma sortBy_sorted (l : list A) : StronglySorted le (sortBy key l).
Proof.
  induction l as [| x l IH]; [constructor |].
  unfold sortBy in *. simpl. by apply insertBy_sorted.
Qed.

Lemma sorted_lookup (l : list A) (i j : nat) (a b : A) :
  StronglySorted le l -> (i < j)%nat -> l !! i = Some a -> l !! j = Some b ->
  key a <= key b.
Proof.
  intros Hs. revert i j. induction Hs as [| y l Hl IH Hy]; intros i j Hij Hi Hj.
  - discriminate.
  - destruct j as [| j]; [lia |]. simpl in Hj. destruct i as [| i]; simpl in Hi.
    + injection Hi as ->. rewrite Forall_forall in Hy.
      apply (Hy b). by eapply list_elem_of_lookup_2.
    + apply (IH i j); [lia | done | done].
Qed.

(** Elements of equal key keep their relative order. *)
Lemma insertBy_stable (k : Z) (x : A) (l : list A) :
  List.filter (fun a => key a =? k) (insertBy key x l)
  = List.filter (fun a => key a =? k) (x :: l).
Proof.
  induction l as [| y l IH]; [done |].
  simpl insertBy. destruct (key x <=? key y) eqn:Hxy; [done |].
  apply Z.leb_gt in Hxy. simpl in *. rewrite IH.
  destruct (key x =? k) eqn:Hx; [| done].
  apply Z.eqb_eq in Hx. destruct (key y =? k) eqn:Hy; [| done].
  apply Z.eqb_eq in Hy. lia.
Qed.

Lemma sortBy_stable (k : Z) (l : list A) :
  List.filter (fun a => key a =? k) (sortBy key l)
  = List.filter (fun a => key a =? k) l.
Proof.
  induction l as [| x l IH]; [done |].
  unfold sortBy in *. simpl foldr. rewrite insertBy_stable. simpl. by rewrite IH.
Qed.

End SortBy.

(** ** Related concepts: once each, never deeper than asked *)

Lemma onceEach_iteration (g : KnowledgeGraph) (x : string) (maxD : Z)
    (item : QueueItem) (Q Q' : list QueueItem) (P P' : gset string)
    (R R' : list RelatedConcept) :
  onceEach maxD (item :: Q) P R ->
  iteration g x maxD item Q P R = (Q', P', R') ->
  onceEach maxD Q' P' R'.
Proof.
  intros (HndQ & HndR & Hdisj & HQP & HRP & Hdepth) Hit.
  destruct (iteration_spec g x maxD item Q P R)
    as (new & R0 & Hit' & Hnd & Hnew & HR & _).
  rewrite Hit' in Hit. injection Hit as <- <- <-.
  unfold queuedNames in *. simpl in HndQ, Hdisj, HQP.
  apply NoDup_cons in HndQ as [HnQ HndQ].
  assert (HnewP : forall m, m ∈ itemName <$> new -> m ∉ P).
  { intros m Hm. apply list_elem_of_fmap in Hm as (q & -> & Hq). by destruct (Hnew q Hq). }
  assert (HnR : itemName item ∉ recordedNames R) by (apply Hdisj; constructor).
  assert (HnP : itemName item ∈ P) by (apply HQP; constructor).
  assert (HR0 : forall m, m ∈ recordedNames R0 -> m ∈ recordedNames R \/ m = itemName item).
  { intros m Hm. destruct HR as [-> | (e & He & _ & _ & ->)]; [by left |].
    unfold recordedNames in *. rewrite fmap_app in Hm. apply elem_of_app in Hm as [Hm | Hm];
      [by left |]. right. apply list_elem_of_singleton in Hm. simpl in Hm.
    apply findEntity_Some in He as (_ & Hname & _). congruence. }
  unfold onceEach, queuedNames. rewrite fmap_app.
  split; [| split; [| split; [| split; [| split]]]].
  - apply NoDup_app. split; [done |]. split; [| done].
    intros m Hm Hm'. apply (HnewP m Hm'). apply HQP. by constructor.
  - destruct HR as [-> | (e & He & _ & _ & ->)]; [done |].
    unfold recordedNames in *. rewrite fmap_app. apply NoDup_app.
    split; [done |]. split; [| apply NoDup_singleton].
    intros m Hm Hm'. apply list_elem_of_singleton in Hm'. simpl in Hm'.
    apply findEntity_Some in He as (_ & Hname & _). apply HnR. congruence.
  - intros m Hm Hm'. apply HR0 in Hm' as [Hm' | ->].
    + apply elem_of_app in Hm as [Hm | Hm].
      * apply (Hdisj m); [by constructor | done].
      * apply (HnewP m Hm). by apply HRP.
    + apply elem_of_app in Hm as [Hm | Hm]; [done |]. by apply (HnewP _ Hm).
  - intros m Hm. apply elem_of_union. apply elem_of_app in Hm as [Hm | Hm].
    + left. apply HQP. by constructor.
    + right. by apply elem_of_list_to_set.
  - intros m Hm. apply elem_of_union. left. apply HR0 in Hm as [Hm | ->]; [by apply HRP | done].
  - intros rc Hrc. destruct HR as [-> | (e & He & _ & Hd & ->)]; [by apply Hdepth |].
    apply elem_of_app in Hrc as [Hrc | Hrc]; [by apply Hdepth |].
    apply list_elem_of_singleton in Hrc. by subst rc.
Qed.

(** ** Related concepts: the chain X - Y - Z *)

Lemma settled_iteration (g : KnowledgeGraph) (x : string) (maxD : Z)
    (n : string) (e : Entity) (good : Z -> Prop)
    (item : QueueItem) (Q Q' : list QueueItem) (P P' : gset string)
    (R R' : list RelatedConcept) :
  n <> x -> findEntity g n "concept" = Some e ->
  (forall d, good d -> d <= maxD) ->
  settled n good (item :: Q) R ->
  iteration g x maxD item Q P R = (Q', P', R') ->
  settled n good Q' R'.
Proof.
  intros Hnx He Hgood Hset Hit.
  destruct (iteration_spec g x maxD item Q P R)
    as (new & R0 & Hit' & _ & _ & HR & Hdone).
  rewrite Hit' in Hit. injection Hit as <- <- <-.
  destruct Hset as [(q & Hq & Hname & Hd) | (rc & Hrc & Hname & Hd)].
  - apply elem_of_cons in Hq as [-> | Hq].
    + rewrite Hname in Hdone.
      destruct (Hdone e He (or_introl (Hgood _ Hd))) as [Hrec _].
      right. eexists. split; [rewrite (Hrec Hnx); apply elem_of_app; right; constructor |].
      simpl. apply findEntity_Some in He as (_ & Hn & _). done.
    + left. exists q. split; [apply elem_of_app; by left | done].
  - right. exists rc. split; [| done].
    destruct HR as [-> | (e' & _ & _ & _ & ->)]; [done | apply elem_of_app; by left].
Qed.

Section Chain.

Variable g : KnowledgeGraph.
Variables x y z : string.
Variables ey ez : Entity.
Hypothesis Hyx : y <> x.
Hypothesis Hzx : z <> x.
Hypothesis Hy : y <> "".
Hypothesis Hz : z <> "".
Hypothesis Hey : findEntity g y "concept" = Some ey.
Hypothesis Hez : findEntity g z "concept" = Some ez.
Hypothesis Hxy : exists r, r ∈ relations g /\ from r = x /\ to r = y
                           /\ relationType r = "related_to".
Hypothesis Hyz : exists r, r ∈ relations g /\ from r = y /\ to r = z
                           /\ relationType r = "prerequisite_for".

Lemma neighbour_forwards (r : Relation) (a : string) :
  from r = a -> neighbour a r = Some (to r, true).
Proof. intros <-. unfold neighbour. by rewrite String.eqb_refl. Qed.

Lemma chainEndDepth_bound (d : Z) : chainEndDepth g x z d -> d <= 2.
Proof. intros [[-> | ->] _]; lia. Qed.

Lemma chain_iteration (item : QueueItem) (Q Q' : list QueueItem)
    (P P' : gset string) (R R' : list RelatedConcept) :
  chainInv g x y z (item :: Q) P R ->
  iteration g x 2 item Q P R = (Q', P', R') ->
  chainInv g x y z Q' P' R'.
Proof.
  intros [HsetY HZ] Hit. split.
  { eapply (settled_iteration g x 2 y ey); eauto. intros d ->. lia. }
  destruct HZ as [HsetZ | (HzP & A & B & HQ & HA & HB & qy & Hqy & Hqyn)].
  { left. eapply (settled_iteration g x 2 z ez); eauto using chainEndDepth_bound. }
  destruct (iteration_spec g x 2 item Q P R)
    as (new & R0 & Hit' & _ & Hnew & _ & Hdone).
  rewrite Hit' in Hit. injection Hit as <- <- <-.
  destruct A as [| a A]; [inversion Hqy |].
  simpl in HQ. injection HQ as <- ->.
  apply Forall_cons in HA as [Hd1 HA].
  destruct (decide (z ∈ P ∪ list_to_set (queuedNames new))) as [Hin | Hnin].
  - left. left. apply elem_of_union in Hin as [Hin | Hin]; [done |].
    apply elem_of_list_to_set, list_elem_of_fmap in Hin as (q & Hqz & Hq).
    destruct (Hnew q Hq) as (_ & Hdq & _).
    exists q. split; [apply elem_of_app; by right |]. split; [done |].
    rewrite Hdq, Hd1. split; [by right | done].
  - right. split; [done |]. exists A, (B ++ new).
    split; [by rewrite app_assoc |]. split; [done |]. split.
    + apply Forall_app. split; [done |]. apply Forall_forall. intros q Hq.
      destruct (Hnew q Hq) as (_ & Hdq & _). rewrite Hdq, Hd1. done.
    + exists qy. split; [| done].
      apply elem_of_cons in Hqy as [-> | Hqy]; [| done].
      exfalso. apply Hnin. rewrite Hqyn in Hdone.
      destruct (Hdone ey Hey ltac:(left; lia)) as [_ Hall].
      destruct Hyz as (r & Hr & Hfrom & Hto & Htype).
      apply (Hall r z true Hr (or_intror Htype)); [| done].
      rewrite <- Hto. by apply neighbour_forwards.
Qed.

Lemma chain_start (s : Entity) (Q1 : list QueueItem) (P1 : gset string)
    (R1 : list RelatedConcept) :
  findEntity g x "concept" = Some s ->
  iteration g x 2 (mkItem x 0 []) [] {[ x ]} [] = (Q1, P1, R1) ->
  chainInv g x y z Q1 P1 R1.
Proof.
  intros Hs Hit.
  destruct (iteration_spec g x 2 (mkItem x 0 []) [] {[ x ]} [])
    as (new & R0 & Hit' & _ & Hnew & _ & Hdone).
  rewrite Hit' in Hit. injection Hit as <- <- <-. simpl in *.
  destruct (Hdone s Hs ltac:(by right)) as [_ Hall].
  assert (HinY : exists qy, qy ∈ new /\ itemName qy = y).
  { destruct Hxy as (r & Hr & Hfrom & Hto & Htype).
    assert (Hin : y ∈ ({[ x ]} : gset string) ∪ list_to_set (queuedNames new)).
    { apply (Hall r y true Hr (or_introl Htype)); [| done].
      rewrite <- Hto. by apply neighbour_forwards. }
    apply elem_of_union in Hin as [Hin | Hin];
      [apply elem_of_singleton in Hin; done |].
    apply elem_of_list_to_set, list_elem_of_fmap in Hin as (q & Hqy & Hq). eauto. }
  destruct HinY as (qy & Hqy & Hqyn).
  split.
  { left. exists qy. split; [done |]. split; [done |].
    destruct (Hnew qy Hqy) as (_ & Hd & _). lia. }
  destruct (decide (z ∈ ({[ x ]} : gset string) ∪ list_to_set (queuedNames new)))
    as [Hin | Hnin].
  - left. left. apply elem_of_union in Hin as [Hin | Hin];
      [apply elem_of_singleton in Hin; done |].
    apply elem_of_list_to_set, list_elem_of_fmap in Hin as (q & Hqz & Hq).
    destruct (Hnew q Hq) as (_ & Hd & Hlink).
    exists q. split; [done |]. split; [done |]. rewrite Hd. split; [left; lia |].
    intros Hno. exfalso. apply Hno. by rewrite Hqz.
  - right. split; [done |]. exists new, []. split; [by rewrite app_nil_r |].
    split; [| split; [constructor | eauto]].
    apply Forall_forall. intros q Hq. destruct (Hnew q Hq) as (_ & Hd & _). lia.
Qed.

(** In what the loop returns for depth 2, Y is recorded at depth 1 and Z
    at depth 1 or 2, at depth 2 when no relation joins X and Z. *)
Lemma chain_found (s : Entity) (found : list RelatedConcept) :
  findEntity g x "concept" = Some s ->
  processQueue (queueFuel g) g x 2 [ mkItem x 0 [] ] {[ x ]} [] = Some found ->
  (exists ry, ry ∈ found /\ name (concept ry) = y /\ depth ry = 1)
  /\ (exists rz, rz ∈ found /\ name (concept rz) = z
                 /\ chainEndDepth g x z (depth rz)).
Proof.
  intros Hs Hrun. unfold queueFuel in Hrun. simpl in Hrun.
  destruct (iteration g x 2 (mkItem x 0 []) [] {[ x ]} []) as [[Q1 P1] R1] eqn:Hit.
  destruct (processQueue_invariant g x 2 (chainInv g x y z)
              (fun item Q P R Q' P' R' => chain_iteration item Q Q' P P' R R')
              _ Q1 P1 R1 found (chain_start s Q1 P1 R1 Hs Hit) Hrun)
    as (P' & HsetY & HZ).
  split.
  - destruct HsetY as [(q & Hq & _) | H]; [inversion Hq | done].
  - destruct HZ as [[(q & Hq & _) | H] | (_ & A & B & HQ & _ & _ & qy & Hqy & _)].
    + inversion Hq.
    + done.
    + destruct A; [inversion Hqy | discriminate].
Qed.

End Chain.

(** ** Related concepts: the result *)

Lemma directlyLinked_neighbour (g : KnowledgeGraph) (x n : string) :
  n <> x -> directlyLinked g x n ->
  exists r fwd, r ∈ relations g
    /\ (relationType r = "related_to" \/ relationType r = "prerequisite_for")
    /\ neighbour x r = Some (n, fwd).
Proof.
  intros Hnx (r & Hr & Htype & Hends). unfold neighbour.
  destruct Hends as [[Hf Ht] | [Hf Ht]].
  - exists r, true. rewrite Hf, String.eqb_refl, Ht. done.
  - exists r, false. assert (Hne : (from r =? x)%string = false).
    { apply String.eqb_neq. intros Heq. apply Hnx. by rewrite <- Hf, Heq. }
    rewrite Hne, Ht, String.eqb_refl, Hf. done.
Qed.

(** A direct neighbour of the seed that is a stored concept is queued when
    the seed is processed and recorded at depth 1. *)
Lemma direct_neighbour_found (g : KnowledgeGraph) (x : string) (maxD : Z)
    (s : Entity) (n : string) (e : Entity) (found : list RelatedConcept) :
  findEntity g x "concept" = Some s ->
  1 <= maxD ->
  n <> x -> n <> "" ->
  findEntity g n "concept" = Some e ->
  directlyLinked g x n ->
  processQueue (queueFuel g) g x maxD [ mkItem x 0 [] ] {[ x ]} [] = Some found ->
  exists rc, rc ∈ found /\ name (concept rc) = n /\ depth rc = 1.
Proof.
  intros Hs Hmax Hnx Hne He Hlink Hrun.
  destruct (directlyLinked_neighbour g x n Hnx Hlink) as (r & fwd & Hr & Htype & Hnb).
  unfold queueFuel in Hrun. simpl in Hrun.
  destruct (iteration g x maxD (mkItem x 0 []) [] {[ x ]} [])
    as [[Q1 P1] R1] eqn:Hit.
  assert (Hstart : settled n (fun d => d = 1) Q1 R1).
  { destruct (iteration_spec g x maxD (mkItem x 0 []) [] {[ x ]} [])
      as (new & R0 & Hit' & _ & Hnew & _ & Hdone).
    rewrite Hit' in Hit. injection Hit as <- <- <-. simpl in *.
    destruct (Hdone s Hs ltac:(by right)) as [_ Hall].
    pose proof (Hall r n fwd Hr Htype Hnb Hne) as Hin.
    apply elem_of_union in Hin as [Hin | Hin];
      [apply elem_of_singleton in Hin; done |].
    apply elem_of_list_to_set, list_elem_of_fmap in Hin as (q & Hqn & Hq).
    left. exists q. split; [done |]. split; [done |].
    destruct (Hnew q Hq) as (_ & Hd & _). lia. }
  destruct (processQueue_invariant g x maxD
              (fun Q P R => settled n (fun d => d = 1) Q R)
              (fun item Q P R Q' P' R' Hset Hstep =>
                 settled_iteration g x maxD n e (fun d => d = 1)
                   item Q Q' P P' R R' Hnx He
                   ltac:(intros d ->; exact Hmax) Hset Hstep)
              _ Q1 P1 R1 found Hstart Hrun) as (P' & Hset).
  destruct Hset as [(q & Hq & _) | (rc & Hrc & Hrn & Hrd)]; [inversion Hq |].
  by exists rc.
Qed.

(** Two records of one name in a list that records each name once are the
    same record. *)
Lemma recordedNames_same (l : list RelatedConcept) (a b : RelatedConcept) :
  NoDup (recordedNames l) -> a ∈ l -> b ∈ l ->
  name (concept a) = name (concept b) -> a = b.
Proof.
  unfold recordedNames.
  induction l as [| c l IH]; intros Hnd Ha Hb Hname; [inversion Ha |].
  rewrite fmap_cons in Hnd. apply NoDup_cons in Hnd as [Hnin Hnd].
  apply elem_of_cons in Ha as [-> | Ha]; apply elem_of_cons in Hb as [-> | Hb].
  - done.
  - exfalso. apply Hnin. apply list_elem_of_fmap. by exists b.
  - exfalso. apply Hnin. apply list_elem_of_fmap. by exists a.
  - by apply IH.
Qed.

(** C4, amended. For a seed that is a stored concept, [findRelatedConcepts]
    returns, leaving the store untouched, the records that the traversal
    found, sorted: depths never decrease along the list, the records of one
    depth stand in the order in which they were found, no concept name
    occurs twice, and no depth exceeds the requested one (1 when none is
    given). When moreover X related_to Y and Y prerequisite_for Z are
    stored, for stored concepts with distinct non-empty names Y and Z other
    than X, the result for depth 2 holds Y at depth 1 and Z at depth 1 or
    2: at depth 2 whenever no related_to or prerequisite_for relation joins
    X and Z themselves, at depth 1 otherwise. *)
Theorem findRelatedConcepts_breadth_first (w : World) (x : string)
    (requested : option Z) (s : Entity) :
  let g := memoryFile w in
  let maxD := default 1 requested in
  findEntity g x "concept" = Some s ->
  exists found report,
    processQueue (queueFuel g) g x maxD [ mkItem x 0 [] ] {[ x ]} [] = Some found
    /\ findRelatedConcepts x requested w = (Returned report, w)
    /\ seed report = s
    /\ relatedConcepts report ≡ₚ found
    /\ nonDecreasingDepth (relatedConcepts report)
    /\ (forall d, tier d (relatedConcepts report) = tier d found)
    /\ NoDup (recordedNames (relatedConcepts report))
    /\ (forall rc, rc ∈ relatedConcepts report -> depth rc <= maxD)
    /\ (forall y z,
          requested = Some 2 ->
          y <> x -> z <> x -> y <> "" -> z <> "" ->
          is_Some (findEntity g y "concept") -> is_Some (findEntity g z "concept") ->
          (exists r, r ∈ relations g /\ from r = x /\ to r = y
                     /\ relationType r = "related_to") ->
          (exists r, r ∈ relations g /\ from r = y /\ to r = z
                     /\ relationType r = "prerequisite_for") ->
          (exists ry, ry ∈ relatedConcepts report
                      /\ name (concept ry) = y /\ depth ry = 1)
          /\ (exists rz, rz ∈ relatedConcepts report
                      /\ name (concept rz) = z
                      /\ (depth rz = 1 \/ depth rz = 2)
                      /\ (~ directlyLinked g x z -> depth rz = 2)
                      /\ (directlyLinked g x z -> depth rz = 1))).
Proof.
  intros g maxD Hs.
  destruct (findRelatedConcepts_fuel g x maxD) as [found Hrun].
  exists found, (mkRelatedReport s (sortBy depth found) (length (sortBy depth found)) maxD).
  split; [exact Hrun |].
  split.
  { unfold findRelatedConcepts, mbind, IO_bind, loadGraph. fold g maxD.
    by rewrite Hs, Hrun. }
  simpl. split; [done |]. split; [apply sortBy_perm |].
  split.
  { intros i j a b Hij Hi Hj.
    by eapply (sorted_lookup depth _ i j a b (sortBy_sorted depth found)). }
  split; [intros d; apply sortBy_stable |].
  assert (Honce : onceEach maxD [ mkItem x 0 [] ] {[ x ]} []).
  { unfold onceEach, queuedNames, recordedNames. simpl.
    split; [apply NoDup_singleton |]. split; [constructor |].
    split; [intros m _ Hm; inversion Hm |].
    split; [intros m Hm; apply list_elem_of_singleton in Hm; set_solver |].
    split; [intros m Hm; inversion Hm | intros rc Hrc; inversion Hrc]. }
  destruct (processQueue_invariant g x maxD (onceEach maxD)
              (fun item Q P R Q' P' R' => onceEach_iteration g x maxD item Q Q' P P' R R')
              (queueFuel g) _ _ _ found Honce Hrun)
    as (P' & _ & Hnd & _ & _ & _ & Hdepth).
  split.
  { unfold recordedNames in *. by rewrite (sortBy_perm depth found). }
  split.
  { intros rc Hrc. apply Hdepth. by apply elem_of_sortBy in Hrc. }
  intros y z Hreq Hyx Hzx Hy Hz [ey Hey] [ez Hez] Hxy Hyz.
  assert (HmaxD : maxD = 2) by (unfold maxD; by rewrite Hreq).
  rewrite HmaxD in Hrun.
  edestruct (chain_found g x y z ey ez)
    as [(ry & Hry & Hryn & Hryd) (rz & Hrz & Hrzn & Hrzd1 & Hrzd2)]; eauto.
  split.
  - exists ry. split; [by apply elem_of_sortBy | done].
  - exists rz. split; [by apply elem_of_sortBy |].
    split; [done |]. split; [done |]. split; [done |].
    intros Hlink.
    destruct (direct_neighbour_found g x 2 s z ez found Hs ltac:(lia) Hzx Hz Hez
                Hlink Hrun) as (rc & Hrc & Hrn & Hrd).
    assert (Hsame : rc = rz).
    { apply (recordedNames_same found); [done | done | done | congruence]. }
    by rewrite <- Hsame.
Qed.

Lemma findRelatedConcepts_breadth_first_witness :
  let w := mkWorld Examples.chain Examples.noSessions in
  exists report,
    findRelatedConcepts "X" (Some 2) w = (Returned report, w)
    /\ (exists ry, ry ∈ relatedConcepts report /\ name (concept ry) = "Y" /\ depth ry = 1)
    /\ (exists rz, rz ∈ relatedConcepts report /\ name (concept rz) = "Z" /\ depth rz = 2).
Proof.
  intros w.
  destruct (findRelatedConcepts_breadth_first w "X" (Some 2)
              (mkEntity "X" "concept" []) eq_refl)
    as (found & report & _ & Hrun & _ & _ & _ & _ & _ & _ & Hchain).
  exists report. split; [exact Hrun |].
  destruct (Hchain "Y" "Z" eq_refl) as [HY (rz & Hrz & Hname & _ & Hdeep & _)].
  - discriminate.
  - discriminate.
  - discriminate.
  - discriminate.
  - eexists. reflexivity.
  - eexists. reflexivity.
  - exists (mkRelation "X" "Y" "related_to" None).
    split; [constructor | repeat split].
  - exists (mkRelation "Y" "Z" "prerequisite_for" None).
    split; [constructor; constructor | repeat split].
  - split; [exact HY |]. exists rz. split; [exact Hrz |]. split; [exact Hname |].
    apply Hdeep. intros (r & Hr & _ & Hends). simpl in Hr.
    apply elem_of_cons in Hr as [-> | Hr];
      [simpl in Hends; destruct Hends as [[_ H] | [H _]]; discriminate |].
    apply list_elem_of_singleton in Hr. subst r.
    simpl in Hends. destruct Hends as [[H _] | [_ H]]; discriminate.
Defined.

(** C4, as stated, fails: a store may hold X related_to Y and Y
    prerequisite_for Z together with X related_to Z, and then Z is met from
    X first and returned at depth 1, not at depth 2. *)
Lemma findRelatedConcepts_shortcut_counterexample :
  let g := Examples.chainWithShortcut in
  let w := mkWorld g Examples.noSessions in
  (mkRelation "X" "Y" "related_to" None ∈ relations g
   /\ mkRelation "Y" "Z" "prerequisite_for" None ∈ relations g
   /\ is_Some (findEntity g "X" "concept") /\ is_Some (findEntity g "Y" "concept")
   /\ is_Some (findEntity g "Z" "concept"))
  /\ exists report,
       findRelatedConcepts "X" (Some 2) w = (Returned report, w)
       /\ (exists rz, rz ∈ relatedConcepts report
                      /\ name (concept rz) = "Z" /\ depth rz = 1)
       /\ ~ (exists rz, rz ∈ relatedConcepts report
                        /\ name (concept rz) = "Z" /\ depth rz = 2).
Proof.
  intros g w. split.
  { split; [constructor |]. split; [constructor; constructor |].
    repeat split; eexists; reflexivity. }
  exists (mkRelatedReport (mkEntity "X" "concept" [])
            [ mkRelated (mkEntity "Y" "concept" []) [ "related_to Y" ] 1 [] [];
              mkRelated (mkEntity "Z" "concept" []) [ "related_to Z" ] 1 [] [] ]
            2 2).
  split; [vm_compute; reflexivity |]. simpl. split.
  - eexists. split; [constructor; constructor | split; reflexivity].
  - intros (rz & Hrz & Hname & Hdepth).
    apply elem_of_cons in Hrz as [-> | Hrz]; [discriminate |].
    apply list_elem_of_singleton in Hrz. subst rz. discriminate.
Qed.

(** * Further properties of the store *)

Lemma entityRefused_spec (g : KnowledgeGraph) (e : Entity) :
  hasEntity g (name e) || negb (isValidEntityType (entityType e)) = true
  <-> entityRefused g e.
Proof.
  unfold entityRefused, isValidEntityType.
  rewrite orb_true_iff, negb_true_iff, hasEntity_spec, inList_false. tauto.
Qed.

(** X1. [createEntities] throws and leaves both documents as they were as
    soon as one listed entity bears a stored name or a type outside the
    enumeration; otherwise it appends the whole list, in order, to the
    stored entities and saves. *)
Theorem createEntities_refuses_or_appends (w : World) (l : list Entity) :
  let g := memoryFile w in
  let g' := mkGraph (entities g ++ l) (relations g) in
  ((exists e, e ∈ l /\ entityRefused g e) ->
     exists msg, createEntities l w = (Thrown msg, w))
  /\ ((forall e, e ∈ l -> ~ entityRefused g e) ->
     createEntities l w = (Returned g', mkWorld g' (sessionsFile w))).
Proof.
  intros g g'. pose proof (createEntities_checks g w l) as [Hok Hbad].
  unfold createEntities, mbind, IO_bind, loadGraph. fold g. split.
  - intros (e & Hin & Href). destruct Hbad as [msg Hmsg].
    { apply existsb_exists. exists e. split; [by apply list_elem_of_In |].
      by apply entityRefused_spec. }
    exists msg. by rewrite Hmsg.
  - intros Hall. rewrite Hok; [done |].
    apply not_true_iff_false. intros Hex. apply existsb_exists in Hex as (e & Hin & Href).
    apply (Hall e); [by apply list_elem_of_In | by apply entityRefused_spec].
Qed.

Lemma createEntities_refuses_or_appends_witness :
  let w := mkWorld Examples.semester Examples.noSessions in
  let taken := mkEntity "HW1" "assignment" [] in
  let odd := mkEntity "Quiz" "quiz" [] in
  let fresh := mkEntity "HW2" "assignment" [ "Due: 2025-02-01" ] in
  let g' := mkGraph (entities Examples.semester ++ [ fresh ])
              (relations Examples.semester) in
  (exists msg, createEntities [ fresh; taken ] w = (Thrown msg, w))
  /\ (exists msg, createEntities [ odd ] w = (Thrown msg, w))
  /\ createEntities [ fresh ] w = (Returned g', mkWorld g' Examples.noSessions).
Proof.
  intros w taken odd fresh g'. split; [| split].
  - apply (proj1 (createEntities_refuses_or_appends w [ fresh; taken ])).
    exists taken. split; [constructor; constructor |].
    apply entityRefused_spec. vm_compute. reflexivity.
  - apply (proj1 (createEntities_refuses_or_appends w [ odd ])).
    exists odd. split; [constructor |].
    apply entityRefused_spec. vm_compute. reflexivity.
  - apply (proj2 (createEntities_refuses_or_appends w [ fresh ])).
    intros e He. apply list_elem_of_singleton in He. subst e.
    rewrite <- entityRefused_spec. vm_compute. discriminate.
Defined.

Lemma createEntities_distinct_list_unique_witness :
  let w := mkWorld Examples.semester Examples.noSessions in
  let batch := [ mkEntity "HW2" "assignment" []; mkEntity "HW3" "assignment" [] ] in
  uniqueNames (mkGraph (entities Examples.semester ++ batch) (relations Examples.semester)).
Proof.
  intros w batch.
  refine (proj1 (createEntities_distinct_list_unique w
            (mkWorld (mkGraph (entities Examples.semester ++ batch)
                        (relations Examples.semester)) Examples.noSessions)
            batch _ _ _ _)).
  - unfold uniqueNames. apply (bool_decide_unpack _). vm_compute. exact I.
  - apply (bool_decide_unpack _). vm_compute. exact I.
  - vm_compute. reflexivity.
Defined.

(** The entity that [find] returns and that is changed in place is the
    first one satisfying the test. *)
Lemma updateFirst_insert (n : string) (f : Entity -> Entity) (es : list Entity)
    (i : nat) (e : Entity) :
  firstNamed es n i e ->
  updateFirst (fun e => (name e =? n)%string) f es = <[ i := f e ]> es
  /\ List.find (fun e => (name e =? n)%string) es = Some e.
Proof.
  revert i. induction es as [| a es IH]; intros i (Hi & Hn & Hfirst); [discriminate |].
  destruct i as [| i]; simpl in *.
  - injection Hi as ->. by rewrite Hn, String.eqb_refl.
  - assert (Ha : (name a =? n)%string = false).
    { apply String.eqb_neq. apply (Hfirst 0%nat a); [lia | done]. }
    rewrite Ha.
    assert (Hrest : firstNamed es n i e).
    { split; [done |]. split; [done |].
      intros j e' Hj He'. apply (Hfirst (S j) e'); [lia | done]. }
    destruct (IH i Hrest) as [-> ->]. done.
Qed.

Lemma updateFirst_absent (p : Entity -> bool) (f : Entity -> Entity) (es : list Entity) :
  List.find p es = None -> updateFirst p f es = es.
Proof.
  induction es as [| a es IH]; simpl; [done |].
  destruct (p a); [discriminate |]. intros H. by rewrite IH.
Qed.

Lemma find_named_None (g : KnowledgeGraph) (n : string) :
  List.find (fun e => (name e =? n)%string) (entities g) = None <-> ~ entityNamed g n.
Proof.
  rewrite <- hasEntity_spec. unfold hasEntity.
  induction (entities g) as [| a es IH]; simpl; [split; [discriminate | done] |].
  destruct (name a =? n)%string; simpl; [split; [discriminate | intros H; by destruct H] |].
  apply IH.
Qed.

(** X3. [addObservations] throws "Entity '...' not found" and changes
    nothing when no entity bears the name; otherwise it appends the texts,
    in order and without looking for repetitions, to the observations of
    the first entity of that name, and every other entity, every relation
    and the session document stay as they were. *)
Theorem addObservations_appends_to_first (w : World) (n : string) (texts : list string) :
  let g := memoryFile w in
  (~ entityNamed g n ->
     addObservations n texts w = (Thrown ("Entity '" +:+ n +:+ "' not found"), w))
  /\ (forall i e, firstNamed (entities g) n i e ->
        let e' := mkEntity (name e) (entityType e) (observations e ++ texts) in
        let g' := mkGraph (<[ i := e' ]> (entities g)) (relations g) in
        addObservations n texts w = (Returned g', mkWorld g' (sessionsFile w))).
Proof.
  intros g. unfold addObservations, mbind, IO_bind, loadGraph. fold g. split.
  - intros Hno. apply find_named_None in Hno. by rewrite Hno.
  - intros i e Hfirst.
    destruct (updateFirst_insert n
                (fun e => mkEntity (name e) (entityType e) (observations e ++ texts))
                (entities g) i e Hfirst) as [Hupd Hfind].
    rewrite Hfind. simpl. unfold saveGraph, mret, IO_ret. by rewrite Hupd.
Qed.

Lemma addObservations_appends_to_first_witness :
  let w := mkWorld Examples.semester Examples.noSessions in
  let g' := mkGraph
    [ mkEntity "Spring 2025" "term" [];
      mkEntity "CS101" "course" [ "Code: CS101"; "Code: CS101" ];
      Examples.hw1 ]
    (relations Examples.semester) in
  addObservations "Nobody" [ "x" ] w = (Thrown "Entity 'Nobody' not found", w)
  /\ addObservations "CS101" [ "Code: CS101"; "Code: CS101" ] w
     = (Returned g', mkWorld g' Examples.noSessions).
Proof.
  intros w g'. split.
  - apply (proj1 (addObservations_appends_to_first w "Nobody" [ "x" ])).
    rewrite <- hasEntity_spec. vm_compute. discriminate.
  - apply (proj2 (addObservations_appends_to_first w "CS101"
                    [ "Code: CS101"; "Code: CS101" ]) 1%nat Examples.cs101).
    split; [reflexivity |]. split; [reflexivity |].
    intros j e' Hj He'. destruct j as [| j]; [| lia].
    injection He' as <-. discriminate.
Defined.

Lemma world_eta (w : World) :
  mkWorld (mkGraph (entities (memoryFile w)) (relations (memoryFile w))) (sessionsFile w) = w.
Proof. by destruct w as [[es rs] ss]. Qed.

(** X4. [deleteObservations] for one entity never throws and touches
    neither the relations nor the session document. When no entity bears
    the name nothing changes at all; otherwise the first entity of that
    name keeps, in order, exactly its observations that are not listed, and
    every other entity stays as it was. *)
Theorem deleteObservations_removes_listed (w : World) (n : string)
    (listed : list string) :
  let g := memoryFile w in
  (~ entityNamed g n ->
     deleteObservations [ mkDeletion n listed ] w = (Returned tt, w))
  /\ (forall i e, firstNamed (entities g) n i e ->
        let e' := mkEntity (name e) (entityType e)
                    (List.filter (fun o => negb (inList o listed)) (observations e)) in
        deleteObservations [ mkDeletion n listed ] w
          = (Returned tt,
             mkWorld (mkGraph (<[ i := e' ]> (entities g)) (relations g)) (sessionsFile w))
        /\ forall o, o ∈ observations e' <-> o ∈ observations e /\ o ∉ listed).
Proof.
  intros g. unfold deleteObservations, mbind, IO_bind, loadGraph, saveGraph. fold g.
  simpl. split.
  - intros Hno. apply find_named_None in Hno.
    rewrite updateFirst_absent by done. unfold g. by rewrite world_eta.
  - intros i e Hfirst.
    destruct (updateFirst_insert n
                (fun e => mkEntity (name e) (entityType e)
                   (List.filter (fun o => negb (inList o listed)) (observations e)))
                (entities g) i e Hfirst) as [Hupd _].
    rewrite Hupd. split; [done |].
    intros o. simpl. rewrite elem_of_List_filter, negb_true_iff, inList_false. tauto.
Qed.

Lemma deleteObservations_removes_listed_witness :
  let w := mkWorld Examples.semester Examples.noSessions in
  let graph' := mkGraph
    [ mkEntity "Spring 2025" "term" []; Examples.cs101;
      mkEntity "HW1" "assignment" [ "Due: 2025-01-10" ] ]
    (relations Examples.semester) in
  deleteObservations [ mkDeletion "Nobody" [ "x" ] ] w = (Returned tt, w)
  /\ deleteObservations [ mkDeletion "HW1" [ "status:not_started"; "never there" ] ] w
     = (Returned tt, mkWorld graph' Examples.noSessions).
Proof.
  intros w graph'. split.
  - apply (proj1 (deleteObservations_removes_listed w "Nobody" [ "x" ])).
    rewrite <- hasEntity_spec. vm_compute. discriminate.
  - apply (proj2 (deleteObservations_removes_listed w "HW1"
                    [ "status:not_started"; "never there" ]) 2%nat Examples.hw1).
    split; [reflexivity |]. split; [reflexivity |].
    intros j e' Hj He'. destruct j as [| [| j]]; [| | lia];
      injection He' as <-; discriminate.
Defined.

Lemma List_filter_idem {A : Type} (p : A -> bool) (l : list A) :
  List.filter p (List.filter p l) = List.filter p l.
Proof.
  apply List_filter_all. intros x Hx. by apply elem_of_List_filter in Hx as [_ Hx].
Qed.

Lemma triple_spec (r d : Relation) : sameTriple r d = true <-> triple r = triple d.
Proof.
  rewrite sameTriple_spec. unfold triple. split.
  - by intros (-> & -> & ->).
  - intros [= -> -> ->]. done.
Qed.

(** X5. [deleteRelations] never throws and leaves the entities and the
    session document alone; it keeps, in order, exactly the stored
    relations whose ends and type agree with no listed relation, so a
    listed relation that is not stored is passed over in silence, and
    deleting the same list again changes nothing more. *)
Theorem deleteRelations_removes_exactly (w : World) (l : list Relation) :
  exists kept,
    let w' := mkWorld (mkGraph (entities (memoryFile w)) kept) (sessionsFile w) in
    deleteRelations l w = (Returned tt, w')
    /\ (forall r, r ∈ kept <->
          r ∈ relations (memoryFile w) /\ ~ exists d, d ∈ l /\ triple r = triple d)
    /\ sublist kept (relations (memoryFile w))
    /\ deleteRelations l w' = (Returned tt, w').
Proof.
  exists (List.filter (fun r => negb (existsb (fun d => sameTriple r d) l))
            (relations (memoryFile w))).
  split; [reflexivity |]. split; [| split; [apply List_filter_sublist |]].
  - intros r. rewrite elem_of_List_filter, negb_true_iff, <- not_true_iff_false,
      existsb_exists.
    split; intros [Hr Hno]; (split; [done |]); intros (d & Hd & Hsame); apply Hno;
      exists d.
    + split; [by apply list_elem_of_In | by apply triple_spec].
    + split; [by apply list_elem_of_In | by apply triple_spec].
  - unfold deleteRelations, mbind, IO_bind, loadGraph, saveGraph. simpl.
    by rewrite List_filter_idem.
Qed.

(** X6. [openNodes] changes nothing and never throws; it returns, in stored
    order, exactly the stored entities whose name is listed and exactly the
    stored relations both ends of which are listed (whether or not an
    entity of that name is stored). A name that names nothing is passed
    over. *)
Theorem openNodes_returns_listed (w : World) (names : list string) :
  exists g',
    openNodes names w = (Returned g', w)
    /\ (forall e, e ∈ entities g' <-> e ∈ entities (memoryFile w) /\ name e ∈ names)
    /\ (forall r, r ∈ relations g' <->
          r ∈ relations (memoryFile w) /\ from r ∈ names /\ to r ∈ names)
    /\ sublist (entities g') (entities (memoryFile w))
    /\ sublist (relations g') (relations (memoryFile w))
    /\ ((forall n, n ∈ names -> ~ entityNamed (memoryFile w) n) -> entities g' = []).
Proof.
  eexists. split; [reflexivity |]. simpl.
  split; [| split; [| split; [| split]]]; try apply List_filter_sublist.
  - intros e. by rewrite elem_of_List_filter, inList_spec.
  - intros r. by rewrite elem_of_List_filter, andb_true_iff, !inList_spec.
  - intros Hnone.
    destruct (List.filter _ (entities (memoryFile w))) as [| e es] eqn:Hf; [done |].
    exfalso. assert (He : e ∈ List.filter (fun e => inList (name e) names)
                                  (entities (memoryFile w))) by (rewrite Hf; constructor).
    apply elem_of_List_filter in He as [He Hn]. apply inList_spec in Hn.
    apply (Hnone _ Hn). by exists e.
Qed.

Lemma openNodes_returns_listed_witness :
  let w := mkWorld Examples.semester Examples.noSessions in
  exists g', openNodes [ "Nobody" ] w = (Returned g', w) /\ entities g' = [].
Proof.
  intros w.
  destruct (openNodes_returns_listed w [ "Nobody" ]) as (g' & Hrun & _ & _ & _ & _ & Hnone).
  exists g'. split; [exact Hrun |]. apply Hnone.
  intros n Hn. apply list_elem_of_singleton in Hn. subst n.
  rewrite <- hasEntity_spec. vm_compute. discriminate.
Defined.

(** What a successful [createRelations] and [createEntities] did. *)
Lemma createRelations_returned (w w1 : World) (l : list Relation) (g1 : KnowledgeGraph) :
  createRelations l w = (Returned g1, w1) ->
  existsb (refusedb (memoryFile w)) l = false
  /\ g1 = mkGraph (entities (memoryFile w)) (relations (memoryFile w) ++ l)
  /\ w1 = mkWorld g1 (sessionsFile w).
Proof.
  intros Hrun. destruct (createRelations_checks (memoryFile w) w l) as [Hok Hbad].
  unfold createRelations, mbind, IO_bind, loadGraph in Hrun.
  destruct (existsb _ l) eqn:Hex.
  - destruct (Hbad eq_refl) as [msg Hmsg]. rewrite Hmsg in Hrun. discriminate.
  - rewrite (Hok eq_refl) in Hrun. simpl in Hrun. by injection Hrun as <- <-.
Qed.

Lemma createEntities_returned (w w1 : World) (l : list Entity) (g1 : KnowledgeGraph) :
  createEntities l w = (Returned g1, w1) ->
  (forall e, e ∈ l -> ~ entityRefused (memoryFile w) e)
  /\ g1 = mkGraph (entities (memoryFile w) ++ l) (relations (memoryFile w))
  /\ w1 = mkWorld g1 (sessionsFile w).
Proof.
  intros Hrun. destruct (createEntities_checks (memoryFile w) w l) as [Hok Hbad].
  unfold createEntities, mbind, IO_bind, loadGraph in Hrun.
  destruct (existsb _ l) eqn:Hex.
  - destruct (Hbad eq_refl) as [msg Hmsg]. rewrite Hmsg in Hrun. discriminate.
  - rewrite (Hok eq_refl) in Hrun. simpl in Hrun. injection Hrun as <- <-.
    split; [| done]. intros e He Href. apply entityRefused_spec in Href.
    apply not_true_iff_false in Hex. apply Hex, existsb_exists.
    exists e. split; [by apply list_elem_of_In | done].
Qed.

Lemma List_filter_none {A : Type} (p : A -> bool) (l : list A) :
  (forall x, x ∈ l -> p x = false) -> List.filter p l = [].
Proof.
  induction l as [| x l IH]; simpl; intros H; [done |].
  rewrite (H x) by constructor. apply IH. intros y Hy. apply H. by constructor.
Qed.

(** X7. Relations that [createRelations] accepted are taken out again by
    [deleteRelations] with the same list: the store is back as it was
    before the creation. *)
Theorem createRelations_then_deleteRelations (w w1 : World) (l : list Relation)
    (g1 : KnowledgeGraph) :
  createRelations l w = (Returned g1, w1) ->
  deleteRelations l w1 = (Returned tt, w).
Proof.
  intros Hrun. apply createRelations_returned in Hrun as (Hex & -> & ->).
  unfold deleteRelations, mbind, IO_bind, loadGraph, saveGraph. simpl.
  rewrite List.filter_app, List_filter_all, List_filter_none, app_nil_r.
  - by rewrite world_eta.
  - intros r Hr. apply negb_false_iff, existsb_exists.
    exists r. split; [by apply list_elem_of_In |]. by apply sameTriple_spec.
  - intros r Hr. apply negb_true_iff, not_true_iff_false. intros Hsome.
    apply existsb_exists in Hsome as (d & Hd & Hsame).
    apply not_true_iff_false in Hex. apply Hex, existsb_exists. exists d.
    split; [done |]. unfold refusedb.
    assert (Hhas : hasRelation (memoryFile w) d = true); [| rewrite Hhas; apply orb_true_r].
    apply hasRelation_spec. exists r. by apply sameTriple_spec in Hsame.
Qed.

Lemma createRelations_then_deleteRelations_witness :
  let w := mkWorld Examples.semester Examples.noSessions in
  let l := [ mkRelation "HW1" "CS101" "requires" None;
             mkRelation "CS101" "HW1" "contains" None ] in
  deleteRelations l (createRelations l w).2 = (Returned tt, w).
Proof.
  intros w l.
  apply (createRelations_then_deleteRelations w (createRelations l w).2 l
           (mkGraph (entities Examples.semester) (relations Examples.semester ++ l))).
  vm_compute. reflexivity.
Defined.

(** X8. In a store whose relations all have existing ends, entities that
    [createEntities] accepted are taken out again by [deleteEntities] with
    their names, and nothing else goes with them: the store is back as it
    was before the creation. *)
Theorem createEntities_then_deleteEntities (w w1 : World) (l : list Entity)
    (g1 : KnowledgeGraph) :
  endpointsExist (memoryFile w) ->
  createEntities l w = (Returned g1, w1) ->
  deleteEntities (name <$> l) w1 = (Returned tt, w).
Proof.
  intros Hends Hrun. apply createEntities_returned in Hrun as (Hfresh & -> & ->).
  assert (Hold : forall n, entityNamed (memoryFile w) n -> inList n (name <$> l) = false).
  { intros n Hn. apply inList_false. intros Hin.
    apply list_elem_of_fmap in Hin as (e & -> & He). apply (Hfresh e He). by left. }
  unfold deleteEntities, mbind, IO_bind, loadGraph, saveGraph. simpl.
  rewrite List.filter_app, List_filter_all, List_filter_none, app_nil_r, List_filter_all.
  - by rewrite world_eta.
  - intros r Hr. destruct (Hends r Hr) as [Hf Ht].
    by rewrite (Hold _ Hf), (Hold _ Ht).
  - intros e He. apply negb_false_iff, inList_spec. by apply list_elem_of_fmap_2.
  - intros e He. apply negb_true_iff, Hold. by exists e.
Qed.

Lemma createEntities_then_deleteEntities_witness :
  let w := mkWorld Examples.semester Examples.noSessions in
  let l := [ mkEntity "HW2" "assignment" []; mkEntity "Final" "exam" [] ] in
  deleteEntities [ "HW2"; "Final" ] (createEntities l w).2 = (Returned tt, w).
Proof.
  intros w l.
  apply (createEntities_then_deleteEntities w (createEntities l w).2 l
           (mkGraph (entities Examples.semester ++ l) (relations Examples.semester))).
  - intros r Hr. rewrite <- !hasEntity_spec.
    apply elem_of_cons in Hr as [-> | Hr]; [split; vm_compute; reflexivity |].
    apply list_elem_of_singleton in Hr. subst r. split; vm_compute; reflexivity.
  - vm_compute. reflexivity.
Defined.

(** X9. The cascade of [deleteEntities] keeps the relations closed: if every
    stored relation had existing ends before, every relation that is left
    has existing ends afterwards. *)
Theorem deleteEntities_keeps_endpoints (w : World) (names : list string) :
  endpointsExist (memoryFile w) ->
  endpointsExist (memoryFile (deleteEntities names w).2).
Proof.
  intros Hends r Hr. simpl in *.
  apply elem_of_List_filter in Hr as [Hr Hkeep].
  apply andb_true_iff in Hkeep as [Hf Ht].
  destruct (Hends r Hr) as [(ef & Hef & Hnf) (et & Het & Hnt)].
  split; [exists ef | exists et]; (split; [| done]); apply elem_of_List_filter;
    (split; [done |]); congruence.
Qed.

Lemma deleteEntities_keeps_endpoints_witness :
  endpointsExist
    (memoryFile (deleteEntities [ "CS101" ]
                   (mkWorld Examples.semester Examples.noSessions)).2).
Proof.
  apply (deleteEntities_keeps_endpoints
           (mkWorld Examples.semester Examples.noSessions) [ "CS101" ]).
  intros r Hr. rewrite <- !hasEntity_spec.
  apply elem_of_cons in Hr as [-> | Hr]; [split; vm_compute; reflexivity |].
  apply list_elem_of_singleton in Hr. subst r. split; vm_compute; reflexivity.
Defined.

(** X10. A successful [createRelations] keeps the relations closed, and it
    keeps them free of repeated triples provided the list itself repeats
    none (the loop compares each new relation with the stored ones only). *)
Theorem createRelations_keeps_invariants (w w1 : World) (l : list Relation)
    (g1 : KnowledgeGraph) :
  createRelations l w = (Returned g1, w1) ->
  (endpointsExist (memoryFile w) -> endpointsExist g1)
  /\ (uniqueTriples (memoryFile w) -> NoDup (triple <$> l) -> uniqueTriples g1).
Proof.
  intros Hrun. apply createRelations_returned in Hrun as (Hex & -> & _).
  assert (Hacc : forall d, d ∈ l -> refusedb (memoryFile w) d = false).
  { intros d Hd. apply not_true_iff_false. intros Href.
    apply not_true_iff_false in Hex. apply Hex, existsb_exists.
    exists d. split; [by apply list_elem_of_In | done]. }
  split.
  - intros Hends r Hr. simpl in Hr.
    assert (Hsame : forall n, entityNamed (memoryFile w) n ->
              entityNamed (mkGraph (entities (memoryFile w))
                             (relations (memoryFile w) ++ l)) n) by done.
    apply elem_of_app in Hr as [Hr | Hr];
      [destruct (Hends r Hr); split; by apply Hsame |].
    specialize (Hacc r Hr). unfold refusedb in Hacc.
    apply orb_false_iff in Hacc as [Hacc _]. apply orb_false_iff in Hacc as [Hacc _].
    apply orb_false_iff in Hacc as [Hf Ht].
    apply negb_false_iff in Hf, Ht. split; by apply Hsame, hasEntity_spec.
  - intros Hu Hl. unfold uniqueTriples in *. simpl. rewrite fmap_app.
    apply NoDup_app. split; [done |]. split; [| done].
    intros t Ht Ht'. apply list_elem_of_fmap in Ht as (r & -> & Hr).
    apply list_elem_of_fmap in Ht' as (d & Heq & Hd).
    specialize (Hacc d Hd). unfold refusedb in Hacc.
    apply orb_false_iff in Hacc as [_ Hhas].
    apply not_true_iff_false in Hhas. apply Hhas, hasRelation_spec.
    exists r. split; [done |]. by apply sameTriple_spec, triple_spec.
Qed.

Lemma createRelations_keeps_invariants_witness :
  let w := mkWorld Examples.semester Examples.noSessions in
  let l := [ mkRelation "HW1" "CS101" "requires" None ] in
  uniqueTriples (mkGraph (entities Examples.semester) (relations Examples.semester ++ l)).
Proof.
  intros w l.
  refine (proj2 (createRelations_keeps_invariants w (createRelations l w).2 l
                   (mkGraph (entities Examples.semester) (relations Examples.semester ++ l))
                   _) _ _).
  - vm_compute. reflexivity.
  - unfold uniqueTriples. apply (bool_decide_unpack _). vm_compute. exact I.
  - apply (bool_decide_unpack _). vm_compute. exact I.
Defined.

(** * Further properties of the deadline query *)

Section DeadlineReports.

Variable Date_parse : string -> option Z.
Variable endDateOf : Z -> Z -> Z.

(** A returned report is the sorted list of what was found, with its
    length and the arguments of the call. *)
Lemma getUpcomingDeadlines_shape (now : Z) (termName courseName : option string)
    (daysAhead : option Z) (w w' : World) (report : DeadlineReport) :
  getUpcomingDeadlines Date_parse endDateOf now termName courseName daysAhead w
    = (Returned report, w') ->
  exists found,
    report = mkReport (sortBy dlDueDate found) now
               (endDateOf now (default 14 daysAhead)) courseName termName
               (length (sortBy dlDueDate found)).
Proof.
  unfold getUpcomingDeadlines, mbind, IO_bind, loadGraph, mret, IO_ret, throw.
  set (byTerm := match given termName with
                 | Some t => _
                 | None => _
                 end).
  intros Hrun.
  destruct (byTerm w) as [[cs | msg] w1]; [| discriminate].
  set (byCourse := match given courseName with
                   | Some c => _
                   | None => _
                   end) in Hrun.
  destruct (byCourse w1) as [[cs' | msg] w2]; [| discriminate].
  injection Hrun as <- _. eexists. reflexivity.
Qed.

(** X11. The deadlines of a returned report are in non-decreasing order of
    due date, [count] is their number, and the report repeats the two
    filters it was asked with. *)
Theorem getUpcomingDeadlines_sorted (now : Z) (termName courseName : option string)
    (daysAhead : option Z) (w w' : World) (report : DeadlineReport) :
  getUpcomingDeadlines Date_parse endDateOf now termName courseName daysAhead w
    = (Returned report, w') ->
  (forall i j a b, (i < j)%nat ->
     deadlines report !! i = Some a -> deadlines report !! j = Some b ->
     dlDueDate a <= dlDueDate b)
  /\ count report = length (deadlines report)
  /\ termFilter report = termName /\ courseFilter report = courseName.
Proof.
  intros Hrun. apply getUpcomingDeadlines_shape in Hrun as [found ->]. simpl.
  split; [| done]. intros i j a b Hij Ha Hb.
  by eapply (sorted_lookup dlDueDate _ i j a b (sortBy_sorted dlDueDate found)).
Qed.

(** X12. No record of a returned report has a negative [daysRemaining], and
    when the end date lies at most [k] whole days after the query time, none
    has more than [k]. *)
Theorem daysRemaining_bounds (now : Z) (termName courseName : option string)
    (daysAhead : option Z) (w w' : World) (report : DeadlineReport) (k : Z) :
  getUpcomingDeadlines Date_parse endDateOf now termName courseName daysAhead w
    = (Returned report, w') ->
  forall d, d ∈ deadlines report ->
    0 <= daysRemaining d
    /\ (endDate report <= now + k * MS_PER_DAY -> daysRemaining d <= k).
Proof.
  intros Hrun d Hin.
  apply getUpcomingDeadlines_returned in Hrun as (_ & _ & cs & _ & _ & Hd).
  assert (Hfacts : now <= dlDueDate d <= endDate report
                   /\ isCeilingOf (daysRemaining d) (dlDueDate d - now) MS_PER_DAY).
  { apply Hd in Hin as (c & _ & [Ha | He]).
    - apply assignmentDeadlines_elem in Ha as (r & a & _ & _ & _ & _ & Hin).
      apply datedWithin_elem in Hin as (obs & due & _ & _ & Hwin & ->).
      simpl. split; [done | by apply ceilDiv_spec].
    - apply examDeadlines_elem in He as (r & x & _ & _ & _ & _ & Hin).
      apply datedWithin_elem in Hin as (obs & due & _ & _ & Hwin & ->).
      simpl. split; [done | by apply ceilDiv_spec]. }
  destruct Hfacts as [[Hlo Hhi] [Hc1 Hc2]].
  change MS_PER_DAY with 86400000 in *. split; [lia |]. intros Hend. nia.
Qed.

(** X13. The query throws, leaving everything as it was, when the term
    filter names no stored term ("Term '...' not found") and, without term
    filter, when the course filter names no stored course ("Course '...'
    not found"); empty filters count as absent. *)
Theorem getUpcomingDeadlines_not_found (now : Z) (termName courseName : option string)
    (daysAhead : option Z) (w : World) :
  let ask := getUpcomingDeadlines Date_parse endDateOf now termName courseName
               daysAhead w in
  (forall t, given termName = Some t -> findEntity (memoryFile w) t "term" = None ->
     ask = (Thrown ("Term '" +:+ t +:+ "' not found"), w))
  /\ (forall c, given termName = None -> given courseName = Some c ->
        findEntity (memoryFile w) c "course" = None ->
        ask = (Thrown ("Course '" +:+ c +:+ "' not found"), w)).
Proof.
  unfold getUpcomingDeadlines, mbind, IO_bind, loadGraph, mret, IO_ret, throw. split.
  - intros t Ht Hnone. by rewrite Ht, Hnone.
  - intros c Ht Hc Hnone. rewrite Ht, Hc.
    rewrite List_filter_none; [done |].
    intros e He. apply elem_of_List_filter in He as [He Htype].
    apply not_true_iff_false. intros Hname.
    unfold findEntity in Hnone.
    apply list_elem_of_In in He. pose proof (find_none _ _ Hnone e He) as Hno.
    simpl in Hno. rewrite Hname, Htype in Hno. discriminate.
Qed.

End DeadlineReports.

Lemma getUpcomingDeadlines_sorted_witness :
  let w := mkWorld Examples.semester Examples.noSessions in
  let d := mkDeadline Examples.hw1 1736467200000 Examples.cs101 5 in
  count (mkReport [ d ] Examples.noon5Jan (utcEndDate Examples.noon5Jan 14) None None 1)
  = 1%nat.
Proof.
  intros w d.
  refine (proj1 (proj2 (getUpcomingDeadlines_sorted parseIsoDate utcEndDate
            Examples.noon5Jan None None None w w
            (mkReport [ d ] Examples.noon5Jan (utcEndDate Examples.noon5Jan 14)
               None None 1) _))).
  vm_compute. reflexivity.
Defined.

Lemma daysRemaining_bounds_witness :
  let d := mkDeadline Examples.hw1 1736467200000 Examples.cs101 5 in
  0 <= daysRemaining d /\ daysRemaining d <= 14.
Proof.
  intros d.
  pose (w := mkWorld Examples.semester Examples.noSessions).
  pose (report := mkReport [ d ] Examples.noon5Jan (utcEndDate Examples.noon5Jan 14)
                    None None 1).
  assert (Hrun : getUpcomingDeadlines parseIsoDate utcEndDate Examples.noon5Jan
                   None None (Some 14) w = (Returned report, w)).
  { vm_compute. reflexivity. }
  destruct (daysRemaining_bounds parseIsoDate utcEndDate Examples.noon5Jan
              None None (Some 14) w w report 14 Hrun d) as [Hlo Hhi];
    [constructor |].
  split; [exact Hlo |]. apply Hhi. vm_compute. discriminate.
Defined.

Lemma getUpcomingDeadlines_not_found_witness :
  let w := mkWorld Examples.semester Examples.noSessions in
  getUpcomingDeadlines parseIsoDate utcEndDate Examples.noon5Jan
    (Some "Fall 2030") None None w = (Thrown "Term 'Fall 2030' not found", w)
  /\ getUpcomingDeadlines parseIsoDate utcEndDate Examples.noon5Jan
       (Some "") (Some "HW1") None w = (Thrown "Course 'HW1' not found", w).
Proof.
  intros w. split.
  - apply (proj1 (getUpcomingDeadlines_not_found parseIsoDate utcEndDate
                    Examples.noon5Jan (Some "Fall 2030") None None w) "Fall 2030");
      reflexivity.
  - apply (proj2 (getUpcomingDeadlines_not_found parseIsoDate utcEndDate
                    Examples.noon5Jan (Some "") (Some "HW1") None w) "HW1");
      reflexivity.
Defined.

(** * Further properties of the traversal *)

(** Whatever holds of the queued items and of every item a loop can create
    holds of the queue after the loop. *)
Lemma enqueueNeighbours_all (good : QueueItem -> Prop) (relType : string)
    (describe : string -> bool -> string) (current : string) (d : Z)
    (here : list string) (rels : list Relation) :
  (forall n fwd, good (mkItem n (d + 1) (here ++ [ describe n fwd ]))) ->
  forall (P : gset string) (Q : list QueueItem),
    (forall q, q ∈ Q -> good q) ->
    forall q, q ∈ (enqueueNeighbours relType describe current d here rels (P, Q)).2 ->
    good q.
Proof.
  intros Hnew. unfold enqueueNeighbours.
  induction rels as [| r rels IH]; intros P Q HQ q Hq; simpl in Hq; [by apply HQ |].
  destruct (relationType r =? relType)%string; [| by eapply IH].
  destruct (neighbour current r) as [[n fwd] |]; [| by eapply IH].
  simpl in Hq. destruct (truthy n && negb (has P n)); [| by eapply IH].
  eapply IH; [| exact Hq]. intros q' Hq'.
  apply elem_of_app in Hq' as [Hq' | Hq']; [by apply HQ |].
  apply list_elem_of_singleton in Hq'. subst q'. apply Hnew.
Qed.

Lemma iteration_queue_all (good : QueueItem -> Prop) (g : KnowledgeGraph)
    (x : string) (maxD : Z) (item : QueueItem) (Q : list QueueItem)
    (P : gset string) (R : list RelatedConcept) :
  (forall n step, good (mkItem n (currentDepth item + 1) (path item ++ [ step ]))) ->
  (forall q, q ∈ Q -> good q) ->
  forall q, q ∈ (iteration g x maxD item Q P R).1.1 -> good q.
Proof.
  intros Hnew HQ q. unfold iteration.
  destruct (_ && _); [apply HQ |].
  destruct (findEntity g (itemName item) "concept"); [| apply HQ].
  simpl.
  destruct (enqueueNeighbours "related_to" describeRelated (itemName item)
              (currentDepth item) (path item) (relations g) (P, Q)) as [P1 Q1] eqn:H1.
  apply enqueueNeighbours_all; [intros; apply Hnew |].
  intros q' Hq'. change Q1 with (P1, Q1).2 in Hq'. rewrite <- H1 in Hq'.
  revert q' Hq'. apply enqueueNeighbours_all; [intros; apply Hnew | done].
Qed.

Lemma wellFormed_iteration (g : KnowledgeGraph) (x : string) (maxD : Z)
    (item : QueueItem) (Q Q' : list QueueItem) (P P' : gset string)
    (R R' : list RelatedConcept) :
  wellFormed g x (item :: Q) P R ->
  iteration g x maxD item Q P R = (Q', P', R') ->
  wellFormed g x Q' P' R'.
Proof.
  intros [HQ HR] Hit.
  destruct (HQ item ltac:(constructor)) as (Hpath & Hpos & Hseed & Hnear).
  destruct (iteration_spec g x maxD item Q P R)
    as (new & R0 & Hit' & _ & Hnew & HR0 & _).
  pose proof (iteration_queue_all
                (fun q => Z.of_nat (length (path q)) = currentDepth q)
                g x maxD item Q P R) as Hpaths.
  rewrite Hit in Hpaths. simpl in Hpaths.
  rewrite Hit' in Hit. injection Hit as <- <- <-.
  split.
  - intros q Hq. split.
    { apply Hpaths; [| | done].
      - intros n step. simpl. rewrite length_app. simpl. lia.
      - intros q' Hq'. apply HQ. by constructor. }
    apply elem_of_app in Hq as [Hq | Hq].
    { apply (HQ q). by constructor. }
    destruct (Hnew q Hq) as (_ & Hd & Hlink). rewrite Hd.
    split; [lia |]. split; [lia |]. intros H1.
    assert (Hx : itemName item = x).
    { destruct (decide (itemName item = x)) as [Hx | Hx]; [done |].
      specialize (Hseed Hx). lia. }
    by rewrite <- Hx.
  - intros rc Hrc. destruct HR0 as [-> | (e & He & Hnx & Hd & ->)]; [by apply HR |].
    apply elem_of_app in Hrc as [Hrc | Hrc]; [by apply HR |].
    apply list_elem_of_singleton in Hrc. subst rc. simpl.
    pose proof (findEntity_Some _ _ _ _ He) as (_ & Hname & _).
    unfold wellFormedRecord. simpl. rewrite Hname.
    repeat split; auto.
Qed.

Lemma wellFormed_start (g : KnowledgeGraph) (x : string) :
  wellFormed g x [ mkItem x 0 [] ] {[ x ]} [].
Proof.
  split.
  - intros q Hq. apply list_elem_of_singleton in Hq. subst q.
    repeat split; simpl; done.
  - intros rc Hrc. inversion Hrc.
Qed.

(** What the call returns for a seed that is a stored concept. *)
Lemma findRelatedConcepts_returned (w : World) (x : string) (requested : option Z)
    (s : Entity) :
  findEntity (memoryFile w) x "concept" = Some s ->
  exists found,
    processQueue (queueFuel (memoryFile w)) (memoryFile w) x (default 1 requested)
      [ mkItem x 0 [] ] {[ x ]} [] = Some found
    /\ findRelatedConcepts x requested w
       = (Returned (mkRelatedReport s (sortBy depth found)
                      (length (sortBy depth found)) (default 1 requested)), w).
Proof.
  intros Hs.
  destruct (findRelatedConcepts_fuel (memoryFile w) x (default 1 requested))
    as [found Hrun].
  exists found. split; [done |].
  unfold findRelatedConcepts, mbind, IO_bind, loadGraph. by rewrite Hs, Hrun.
Qed.

Lemma tooDeep_iteration (g : KnowledgeGraph) (x : string) (maxD : Z)
    (item : QueueItem) (Q Q' : list QueueItem) (P P' : gset string)
    (R R' : list RelatedConcept) :
  maxD <= 0 ->
  tooDeep x maxD (item :: Q) P R ->
  iteration g x maxD item Q P R = (Q', P', R') ->
  tooDeep x maxD Q' P' R'.
Proof.
  intros Hmax (-> & HxP & HQ) Hit.
  destruct (iteration_spec g x maxD item Q P [])
    as (new & R0 & Hit' & _ & Hnew & HR0 & _).
  rewrite Hit' in Hit. injection Hit as <- <- <-.
  destruct (HQ item ltac:(constructor)) as [[Hx Hd] | [Hx Hd]].
  - split.
    { destruct HR0 as [-> | (e & _ & Hnx & _)]; [done | done]. }
    split; [apply elem_of_union; by left |].
    intros q Hq. apply elem_of_app in Hq as [Hq | Hq]; [apply HQ; by constructor |].
    destruct (Hnew q Hq) as (Hfresh & Hdq & _). right.
    split; [intros Heq; apply Hfresh; by rewrite Heq | lia].
  - split.
    { destruct HR0 as [-> | (e & _ & _ & Hle & _)]; [done | lia]. }
    split; [apply elem_of_union; by left |].
    intros q Hq. apply elem_of_app in Hq as [Hq | Hq]; [apply HQ; by constructor |].
    destruct (Hnew q Hq) as (Hfresh & Hdq & _). right.
    split; [intros Heq; apply Hfresh; by rewrite Heq | lia].
Qed.

(** X14. [findRelatedConcepts] throws "Concept '...' not found", changing
    nothing, when no stored concept bears the seed name (an entity of
    another type does not count); and for a requested depth of 0 or less it
    returns the seed with an empty list, whatever the relations are. *)
Theorem findRelatedConcepts_nothing_to_return (w : World) (x : string)
    (requested : option Z) :
  (findEntity (memoryFile w) x "concept" = None ->
     findRelatedConcepts x requested w
     = (Thrown ("Concept '" +:+ x +:+ "' not found"), w))
  /\ (forall s, findEntity (memoryFile w) x "concept" = Some s ->
        default 1 requested <= 0 ->
        findRelatedConcepts x requested w
        = (Returned (mkRelatedReport s [] 0 (default 1 requested)), w)).
Proof.
  split.
  - intros Hnone. unfold findRelatedConcepts, mbind, IO_bind, loadGraph.
    by rewrite Hnone.
  - intros s Hs Hmax.
    destruct (findRelatedConcepts_returned w x requested s Hs) as (found & Hrun & ->).
    assert (Hstart : tooDeep x (default 1 requested) [ mkItem x 0 [] ] {[ x ]} []).
    { split; [done |]. split; [by apply elem_of_singleton |].
      intros q Hq. apply list_elem_of_singleton in Hq. subst q. by left. }
    destruct (processQueue_invariant (memoryFile w) x (default 1 requested)
                (tooDeep x (default 1 requested))
                (fun item Q P R Q' P' R' =>
                   tooDeep_iteration (memoryFile w) x (default 1 requested)
                     item Q Q' P P' R R' Hmax)
                (queueFuel (memoryFile w)) _ _ _ found Hstart Hrun)
      as (P' & -> & _).
    done.
Qed.

Lemma findRelatedConcepts_nothing_to_return_witness :
  let w := mkWorld Examples.chainWithShortcut Examples.noSessions in
  findRelatedConcepts "W" None w = (Thrown "Concept 'W' not found", w)
  /\ findRelatedConcepts "X" (Some 0) w
     = (Returned (mkRelatedReport (mkEntity "X" "concept" []) [] 0 0), w).
Proof.
  intros w. split.
  - apply (proj1 (findRelatedConcepts_nothing_to_return w "W" None)). reflexivity.
  - apply (proj2 (findRelatedConcepts_nothing_to_return w "X" (Some 0))
             (mkEntity "X" "concept" [])); [reflexivity | simpl; lia].
Defined.

Lemma sourcesInto_elem (g : KnowledgeGraph) (relType type target : string) (e : Entity) :
  e ∈ sourcesInto g relType type target <->
  exists r, r ∈ relations g /\ relationType r = relType /\ to r = target
            /\ findEntity g (from r) type = Some e.
Proof.
  unfold sourcesInto. rewrite list_elem_of_In, in_flat_map. split.
  - intros (r & Hr & He). apply list_elem_of_In in Hr.
    destruct (_ && _) eqn:Hc; [| inversion He].
    apply andb_true_iff in Hc as [Ht Hto]. apply String.eqb_eq in Ht, Hto.
    destruct (findEntity g (from r) type) as [e' |] eqn:Hf; [| inversion He].
    destruct He as [<- | []]. by exists r.
  - intros (r & Hr & Ht & Hto & Hf). exists r.
    split; [by apply list_elem_of_In |].
    rewrite Ht, Hto, !String.eqb_refl, Hf. simpl. by left.
Qed.

Lemma wellFormed_found (w : World) (x : string) (requested : option Z)
    (found : list RelatedConcept) :
  processQueue (queueFuel (memoryFile w)) (memoryFile w) x (default 1 requested)
    [ mkItem x 0 [] ] {[ x ]} [] = Some found ->
  forall rc, rc ∈ sortBy depth found -> wellFormedRecord (memoryFile w) x rc.
Proof.
  intros Hrun rc Hrc. apply elem_of_sortBy in Hrc.
  destruct (processQueue_invariant (memoryFile w) x (default 1 requested)
              (wellFormed (memoryFile w) x)
              (fun item Q P R Q' P' R' =>
                 wellFormed_iteration (memoryFile w) x (default 1 requested)
                   item Q Q' P P' R R')
              (queueFuel (memoryFile w)) _ _ _ found
              (wellFormed_start (memoryFile w) x) Hrun) as (P' & _ & HR).
  by apply HR.
Qed.

(** X15. Every record that [findRelatedConcepts] returns holds a stored
    entity of type concept other than the seed, at a depth of at least 1,
    with a relation path of exactly as many steps as its depth; its courses
    are the stored courses with a covers relation to the concept and its
    resources the stored resources with a helps_with relation to it. *)
Theorem findRelatedConcepts_records (w : World) (x : string)
    (requested : option Z) (s : Entity) :
  let g := memoryFile w in
  findEntity g x "concept" = Some s ->
  exists report,
    findRelatedConcepts x requested w = (Returned report, w)
    /\ totalRelated report = length (relatedConcepts report)
    /\ forall rc, rc ∈ relatedConcepts report ->
         concept rc ∈ entities g
         /\ entityType (concept rc) = "concept"
         /\ name (concept rc) <> x
         /\ 1 <= depth rc
         /\ Z.of_nat (length (relationPath rc)) = depth rc
         /\ (forall c, c ∈ courses rc <->
               exists r, r ∈ relations g /\ relationType r = "covers"
                         /\ to r = name (concept rc)
                         /\ findEntity g (from r) "course" = Some c)
         /\ (forall c, c ∈ resources rc <->
               exists r, r ∈ relations g /\ relationType r = "helps_with"
                         /\ to r = name (concept rc)
                         /\ findEntity g (from r) "resource" = Some c).
Proof.
  intros g Hs.
  destruct (findRelatedConcepts_returned w x requested s Hs) as (found & Hrun & Hcall).
  eexists. split; [exact Hcall |]. simpl. split; [done |].
  intros rc Hrc.
  destruct (wellFormed_found w x requested found Hrun rc Hrc)
    as (Hpath & Hd & Hnx & Hfind & _ & Hcourses & Hres).
  apply findEntity_Some in Hfind as (Hin & _ & Htype).
  repeat (split; [done |]). split.
  - intros c. rewrite Hcourses. apply sourcesInto_elem.
  - intros c. rewrite Hres. apply sourcesInto_elem.
Qed.

Lemma findRelatedConcepts_records_witness :
  let w := mkWorld Examples.chain Examples.noSessions in
  exists report,
    findRelatedConcepts "X" (Some 2) w = (Returned report, w)
    /\ totalRelated report = length (relatedConcepts report).
Proof.
  intros w.
  destruct (findRelatedConcepts_records w "X" (Some 2) (mkEntity "X" "concept" [])
              eq_refl) as (report & Hrun & Hcount & _).
  exists report. split; [exact Hrun | exact Hcount].
Defined.

(** X16. For a requested depth of at least 1, the concepts returned at
    depth 1 are exactly the direct neighbours of the seed: a stored concept
    with a non-empty name other than the seed's is returned at depth 1 if
    and only if a related_to or prerequisite_for relation joins it and the
    seed, in either direction. *)
Theorem findRelatedConcepts_direct_neighbours (w : World) (x : string)
    (requested : option Z) (s : Entity) (n : string) (e : Entity) :
  let g := memoryFile w in
  findEntity g x "concept" = Some s ->
  1 <= default 1 requested ->
  n <> x -> n <> "" ->
  findEntity g n "concept" = Some e ->
  exists report,
    findRelatedConcepts x requested w = (Returned report, w)
    /\ ((exists rc, rc ∈ relatedConcepts report /\ concept rc = e /\ depth rc = 1)
        <-> directlyLinked g x n).
Proof.
  intros g Hs Hmax Hnx Hne He.
  destruct (findRelatedConcepts_returned w x requested s Hs) as (found & Hrun & Hcall).
  eexists. split; [exact Hcall |]. simpl.
  pose proof (wellFormed_found w x requested found Hrun) as Hwf.
  pose proof (findEntity_Some _ _ _ _ He) as (_ & Hname & _).
  split.
  - intros (rc & Hrc & Hce & Hd1).
    destruct (Hwf rc Hrc) as (_ & _ & _ & _ & Hnear & _).
    rewrite <- Hname, <- Hce. by apply Hnear.
  - intros Hlink.
    destruct (direct_neighbour_found g x (default 1 requested) s n e found
                Hs Hmax Hnx Hne He Hlink Hrun) as (rc & Hrc & Hrn & Hrd).
    exists rc. split; [by apply elem_of_sortBy |]. split; [| done].
    destruct (Hwf rc ltac:(by apply elem_of_sortBy)) as (_ & _ & _ & Hfind & _).
    rewrite Hrn in Hfind. fold g in Hfind. rewrite He in Hfind. by injection Hfind as <-.
Qed.

Lemma findRelatedConcepts_direct_neighbours_witness :
  let w := mkWorld Examples.chain Examples.noSessions in
  exists report,
    findRelatedConcepts "X" None w = (Returned report, w)
    /\ ((exists rc, rc ∈ relatedConcepts report
                    /\ concept rc = mkEntity "Y" "concept" [] /\ depth rc = 1)
        <-> directlyLinked Examples.chain "X" "Y").
Proof.
  intros w.
  apply (findRelatedConcepts_direct_neighbours w "X" None (mkEntity "X" "concept" [])
           "Y" (mkEntity "Y" "concept" [])).
  - reflexivity.
  - simpl. lia.
  - discriminate.
  - discriminate.
  - reflexivity.
Defined.

(** * Further properties of the end-session workflow *)

Lemma processStage_unknown (date : string) (params : EndSessionParams)
    (previous : list SessionItem) (w : World) :
  stage params ∉ knownStages ->
  processStage date params previous w = (Thrown ("Unknown stage: " +:+ stage params), w).
Proof.
  intros Hno. unfold processStage.
  repeat match goal with
  | |- context [ (stage params =? ?s)%string ] =>
      destruct (String.eqb_spec (stage params) s) as [Heq | _];
        [exfalso; apply Hno; rewrite Heq; unfold knownStages;
         rewrite !elem_of_cons; tauto |]
  end.
  reflexivity.
Qed.

(** X17. For a stored session and a stage name outside the six that
    [processStage] knows, [endsession] answers "Unknown stage: ..." and
    stores nothing: both documents are as they were. *)
Theorem endsession_unknown_stage (date timestamp : string)
    (params : EndSessionParams) (w : World) :
  is_Some (sessionsFile w !! sessionId params) ->
  stage params ∉ knownStages ->
  endsession date timestamp params w
  = (Returned (Failure ("Unknown stage: " +:+ stage params)), w).
Proof.
  intros [l Hl] Hno. unfold endsession, tryCatch, mbind, IO_bind, loadSessionStates.
  rewrite Hl. by rewrite (processStage_unknown date params l w Hno).
Qed.

Lemma endsession_unknown_stage_witness :
  let w := mkWorld Examples.semester Examples.recorded in
  let call := mkParams "stud_1_a" "assignmentProgress" 3 6 None None true None None in
  endsession "2025-01-05" "2025-01-05T18:00:00.000Z" call w
  = (Returned (Failure "Unknown stage: assignmentProgress"), w).
Proof.
  intros w call.
  apply (endsession_unknown_stage "2025-01-05" "2025-01-05T18:00:00.000Z" call w).
  - eexists. vm_compute. reflexivity.
  - intros Hin. unfold knownStages in Hin. rewrite !elem_of_cons in Hin.
    destruct Hin as [H | [H | [H | [H | [H | [H | H]]]]]];
      [discriminate .. | inversion H].
Defined.

Lemma processStage_known (date : string) (params : EndSessionParams)
    (previous : list SessionItem) (w : World) :
  stage params ∈ knownStages ->
  exists r,
    processStage date params previous w = (Returned r, w)
    /\ srStage r = stage params
    /\ srStageNumber r = stageNumber params
    /\ (stage params = "assembly" ->
        srStageData r = AssembledData (assembleEndSessionArgs date previous)
        /\ srCompleted r = true)
    /\ (stage params <> "assembly" ->
        srCompleted r = negb (nextStageNeeded params)
        /\ srAnalysis r = default "" (analysis params)
        /\ forall d, stageData params = Some d -> srStageData r = d).
Proof.
  intros Hin. unfold knownStages in Hin. rewrite !elem_of_cons in Hin.
  assert (Hid : forall s, orElse s "" = s).
  { intros s. unfold orElse, truthy. by destruct (String.eqb_spec s ""). }
  unfold processStage. rewrite Hid.
  destruct Hin as [H | [H | [H | [H | [H | [H | H]]]]]]; [.. | inversion H];
    rewrite H; simpl; eexists; (split; [reflexivity |]); simpl;
    repeat split; try done; try (intros d ->; done).
Qed.

(** X18. For a stored session, a known stage and no revision, a call that
    is not the terminal assembly (another stage, or an assembly announcing
    that more stages follow) stores the stage at the end of that session
    and answers success; the graph document and every other session stay
    as they were. *)
Theorem endsession_stores_stage (date timestamp : string)
    (params : EndSessionParams) (w : World) (l : list SessionItem) :
  sessionsFile w !! sessionId params = Some l ->
  stage params ∈ knownStages ->
  ~ revising params ->
  stage params <> "assembly" \/ nextStageNeeded params = true ->
  exists r echoed,
    endsession date timestamp params w
    = (Returned (StageAccepted (stage params) (nextStageNeeded params) r echoed),
       mkWorld (memoryFile w)
         (<[ sessionId params := l ++ [ AnalysisStage r ] ]> (sessionsFile w)))
    /\ srStage r = stage params
    /\ srStageNumber r = stageNumber params
    /\ (stage params <> "assembly" ->
        echoed = None /\ forall d, stageData params = Some d -> srStageData r = d).
Proof.
  intros Hl Hknown Hrev Hnot.
  destruct (processStage_known date params l w Hknown)
    as (r & Hrun & Hst & Hnum & _ & Hplain).
  assert (Hstore : storeStage params l r = l ++ [ AnalysisStage r ]).
  { unfold storeStage. destruct (isRevision params) as [[] |] eqn:Hi; try done.
    destruct (revisesStage params) eqn:Hr; [| done].
    exfalso. apply Hrev. split; [done | by rewrite Hr]. }
  assert (Hbranch : (stage params =? "assembly")%string
                    && negb (nextStageNeeded params) = false).
  { destruct Hnot as [Hne | Hnext].
    - apply String.eqb_neq in Hne. by rewrite Hne.
    - rewrite Hnext. apply andb_false_r. }
  exists r. eexists. split.
  - unfold endsession, tryCatch, mbind, IO_bind, loadSessionStates, saveSessionStates.
    rewrite Hl, Hrun, Hstore, Hbranch. reflexivity.
  - split; [done |]. split; [done |]. intros Hne.
    apply String.eqb_neq in Hne. rewrite Hne. split; [done |].
    apply Hplain. by apply String.eqb_neq.
Qed.

Lemma endsession_stores_stage_witness :
  let w := mkWorld Examples.semester Examples.recorded in
  let call := mkParams "stud_1_a" "courseStatus" 3 4 None
                (Some (CourseStatusData "current" "")) true None None in
  exists r echoed w',
    endsession "2025-01-05" "2025-01-05T18:00:00.000Z" call w
    = (Returned (StageAccepted "courseStatus" true r echoed), w')
    /\ memoryFile w' = Examples.semester.
Proof.
  intros w call.
  destruct (endsession_stores_stage "2025-01-05" "2025-01-05T18:00:00.000Z" call w)
    with (l := [ AnalysisStage
                   (mkStageResult "summary" 1 ""
                      (SummaryData "Worked on HW1" "1 hour" "CS101") false);
                 AnalysisStage
                   (mkStageResult "assignmentUpdates" 2 ""
                      (AssignmentUpdatesData [ mkUpdate "HW1" "in_progress" ]) false) ])
    as (r & echoed & Hrun & _).
  - vm_compute. reflexivity.
  - unfold knownStages. simpl. rewrite !elem_of_cons. tauto.
  - intros [Hrev _]. discriminate.
  - left. discriminate.
  - exists r, echoed. eexists. split; [exact Hrun | reflexivity].
Defined.

Lemma length_filter_split {A : Type} (p : A -> bool) (l : list A) :
  (length (List.filter p l) + length (List.filter (fun x => negb (p x)) l))%nat
  = length l.
Proof.
  induction l as [| x l IH]; simpl; [done |].
  destruct (p x); simpl; lia.
Qed.

Lemma List_filter_insert_all {A : Type} (p : A -> bool) (l : list A) (i : nat) (x : A) :
  (forall y, y ∈ l -> p y = true) -> p x = true ->
  List.filter p (<[ i := x ]> l) = <[ i := x ]> l.
Proof.
  intros Hl Hx. apply List_filter_all. intros y Hy.
  apply list_elem_of_lookup in Hy as [j Hj].
  destruct (decide (i = j)) as [<- | Hne].
  - destruct (decide (i < length l)%nat) as [Hlt | Hge].
    + rewrite list_lookup_insert_eq in Hj by done. by injection Hj as <-.
    + rewrite list_insert_ge in Hj by lia. apply Hl. by eapply list_elem_of_lookup_2.
  - rewrite list_lookup_insert_ne in Hj by done.
    apply Hl. by eapply list_elem_of_lookup_2.
Qed.

(** X19. A revision goes by the order of arrival of the analysis stages,
    not by their stage numbers. When stage [k] is revised and the session
    has at least [k] analysis stages, the [k]-th of them is replaced, the
    others and the number of items are kept; with fewer, the stage is
    appended. Either way the items that are not analysis stages come out in
    front of all analysis stages, in their own order. *)
Theorem storeStage_revision (params : EndSessionParams) (l : list SessionItem)
    (r : StageResult) (k : positive) :
  isRevision params = Some true -> revisesStage params = Some k ->
  let stages := List.filter isAnalysisStage l in
  let others := List.filter (fun item => negb (isAnalysisStage item)) l in
  let stored := storeStage params l r in
  List.filter (fun item => negb (isAnalysisStage item)) stored = others
  /\ (exists revised, stored = others ++ revised
                      /\ List.filter isAnalysisStage stored = revised)
  /\ ((Pos.to_nat k <= length stages)%nat ->
      List.filter isAnalysisStage stored
        = <[ Nat.pred (Pos.to_nat k) := AnalysisStage r ]> stages
      /\ List.filter isAnalysisStage stored !! Nat.pred (Pos.to_nat k)
         = Some (AnalysisStage r)
      /\ length stored = length l)
  /\ ((length stages < Pos.to_nat k)%nat ->
      List.filter isAnalysisStage stored = stages ++ [ AnalysisStage r ]
      /\ length stored = S (length l)).
Proof.
  intros Hi Hk stages others stored.
  assert (Hothers : List.filter isAnalysisStage others = []
                    /\ List.filter (fun item => negb (isAnalysisStage item)) others
                       = others).
  { split.
    - apply List_filter_none. intros x Hx.
      apply elem_of_List_filter in Hx as [_ Hx]. by apply negb_true_iff.
    - apply List_filter_idem. }
  assert (Hstages : forall y, y ∈ stages -> isAnalysisStage y = true).
  { intros y Hy. by apply elem_of_List_filter in Hy as [_ Hy]. }
  destruct Hothers as [Ho1 Ho2].
  pose proof (length_filter_split isAnalysisStage l) as Hlen.
  fold stages others in Hlen.
  subst stored. unfold storeStage. rewrite Hi, Hk. fold stages others.
  destruct (Nat.leb_spec (Pos.to_nat k) (length stages)) as [Hle | Hgt].
  - assert (Hrev : List.filter isAnalysisStage
                     (<[ Nat.pred (Pos.to_nat k) := AnalysisStage r ]> stages)
                   = <[ Nat.pred (Pos.to_nat k) := AnalysisStage r ]> stages)
      by (by apply List_filter_insert_all).
    assert (Hnone : List.filter (fun item => negb (isAnalysisStage item))
                      (<[ Nat.pred (Pos.to_nat k) := AnalysisStage r ]> stages) = []).
    { apply List_filter_none. intros x Hx. apply negb_false_iff.
      rewrite <- Hrev in Hx. by apply elem_of_List_filter in Hx as [_ Hx]. }
    rewrite (List.filter_app isAnalysisStage others),
      (List.filter_app (fun item => negb (isAnalysisStage item)) others),
      Ho1, Ho2, Hrev, Hnone, app_nil_r. simpl.
    split; [done |]. split; [eauto |]. split; [| lia].
    intros _. split; [done |]. split.
    + apply list_lookup_insert_eq. lia.
    + rewrite length_app, length_insert. lia.
  - assert (Hrev : List.filter isAnalysisStage (stages ++ [ AnalysisStage r ])
                   = stages ++ [ AnalysisStage r ]).
    { apply List_filter_all. intros y Hy. apply elem_of_app in Hy as [Hy | Hy];
        [by apply Hstages | apply list_elem_of_singleton in Hy; by subst y]. }
    assert (Hnone : List.filter (fun item => negb (isAnalysisStage item))
                      (stages ++ [ AnalysisStage r ]) = []).
    { apply List_filter_none. intros x Hx. apply negb_false_iff.
      rewrite <- Hrev in Hx. by apply elem_of_List_filter in Hx as [_ Hx]. }
    rewrite (List.filter_app isAnalysisStage others),
      (List.filter_app (fun item => negb (isAnalysisStage item)) others),
      Ho1, Ho2, Hrev, Hnone, app_nil_r. simpl.
    split; [done |]. split; [eauto |]. split; [lia |].
    intros _. split; [done |]. rewrite !length_app. simpl. lia.
Qed.

Lemma storeStage_revision_witness :
  let call := mkParams "s" "summary" 1 6 None None true (Some true) (Some 1%positive) in
  let old := mkStageResult "summary" 1 "" (SummaryData "first" "" "") false in
  let new := mkStageResult "summary" 1 "" (SummaryData "second" "" "") false in
  let l := [ AnalysisStage old; ContextLoaded "t" "CS101" "course" ] in
  List.filter isAnalysisStage (storeStage call l new) = [ AnalysisStage new ]
  /\ length (storeStage call l new) = 2%nat.
Proof.
  intros call old new l.
  destruct (storeStage_revision call l new 1%positive eq_refl eq_refl)
    as (_ & _ & Hin & _).
  destruct Hin as (Hrev & _ & Hlen); [simpl; lia |].
  split; [exact Hrev | exact Hlen].
Defined.

(** ** The graph operations leave the session document alone *)

Lemma keeps_ret {A : Type} (a : A) : keepsSessions (mret a : IO A).
Proof. by intros w. Qed.

Lemma keeps_throw {A : Type} (msg : string) : keepsSessions (throw msg : IO A).
Proof. by intros w. Qed.

Lemma keeps_bind {A B : Type} (m : IO A) (f : A -> IO B) :
  keepsSessions m -> (forall a, keepsSessions (f a)) -> keepsSessions (m ≫= f).
Proof.
  intros Hm Hf w. unfold mbind, IO_bind. specialize (Hm w).
  destruct (m w) as [[a | msg] w1]; simpl in *; [| done].
  by rewrite (Hf a w1).
Qed.

Lemma keeps_forOf {A : Type} (l : list A) (body : A -> IO unit) :
  (forall x, keepsSessions (body x)) -> keepsSessions (forOf l body).
Proof.
  intros Hbody. induction l as [| x l IH]; simpl; [apply keeps_ret |].
  apply keeps_bind; [apply Hbody | by intros _].
Qed.

Lemma keeps_when (b : bool) (m : IO unit) : keepsSessions m -> keepsSessions (when b m).
Proof. intros Hm. destruct b; [done | apply keeps_ret]. Qed.

Lemma keeps_loadGraph : keepsSessions loadGraph.
Proof. by intros w. Qed.

Lemma keeps_saveGraph (g : KnowledgeGraph) : keepsSessions (saveGraph g).
Proof. by intros w. Qed.

Ltac keeps :=
  repeat first
    [ apply keeps_bind; [| intros ?]
    | apply keeps_forOf; intros ?
    | apply keeps_when
    | apply keeps_ret | apply keeps_throw | apply keeps_loadGraph
    | apply keeps_saveGraph ].





Lemma keeps_addObservations (n : string) (texts : list string) :
  keepsSessions (addObservations n texts).
Proof.
  unfold addObservations. keeps.
  match goal with |- context [ List.find ?p ?l ] => destruct (List.find p l) end; keeps.
Qed.






Lemma bind_returned {A B : Type} (m : IO A) (f : A -> IO B) (w w1 : World) (a : A) :
  m w = (Returned a, w1) -> (m ≫= f) w = f a w1.
Proof. intros H. unfold mbind, IO_bind. by rewrite H. Qed.

Lemma bind_thrown {A B : Type} (m : IO A) (f : A -> IO B) (w w1 : World)
    (msg : string) :
  m w = (Thrown msg, w1) -> (m ≫= f) w = (Thrown msg, w1).
Proof. intros H. unfold mbind, IO_bind. by rewrite H. Qed.

Lemma createEntities_accepted (w : World) (l : list Entity) :
  (forall e, e ∈ l -> ~ entityRefused (memoryFile w) e) ->
  createEntities l w
  = (Returned (mkGraph (entities (memoryFile w) ++ l) (relations (memoryFile w))),
     mkWorld (mkGraph (entities (memoryFile w) ++ l) (relations (memoryFile w)))
       (sessionsFile w)).
Proof.
  intros Hall. pose proof (createEntities_checks (memoryFile w) w l) as [Hok _].
  unfold createEntities, mbind, IO_bind, loadGraph. rewrite Hok; [done |].
  apply not_true_iff_false. intros Hex. apply existsb_exists in Hex as (e & Hin & Href).
  apply (Hall e); [by apply list_elem_of_In | by apply entityRefused_spec].
Qed.

Lemma createRelations_missing_source (w : World) (r : Relation) (rest : list Relation) :
  ~ entityNamed (memoryFile w) (from r) ->
  createRelations (r :: rest) w = (Thrown ("Entity '" +:+ from r +:+ "' not found"), w).
Proof.
  intros Hno. rewrite <- hasEntity_spec in Hno. apply not_true_iff_false in Hno.
  unfold createRelations, mbind, IO_bind, loadGraph. simpl.
  unfold checkRelation, mbind, IO_bind, when. by rewrite Hno.
Qed.

Lemma learnedEntities_type (date : string) (learned : list string) (e : Entity) :
  e ∈ learnedEntities date learned -> entityType e = "concept".
Proof.
  unfold learnedEntities. intros He.
  apply elem_of_lookup_imap in He as (i & c & -> & _). done.
Qed.

(** X21. The assembly is not atomic. When concepts were learned, their
    generated names are free, and the course of the session names no entity
    (not even one of the new concepts), the concept entities are created and
    saved, the linking to the course then throws "Entity '...' not found",
    and the assembly stops there with the new, unlinked concepts left in the
    store. *)
Theorem applyAssembly_leaves_unlinked_concepts (args : EndSessionArgs) (w : World)
    (first : string) (others : list string) :
  let g := memoryFile w in
  let created := learnedEntities (argDate args) (argConceptsLearned args) in
  argConceptsLearned args = first :: others ->
  (forall e, e ∈ created -> ~ entityNamed g (name e)) ->
  ~ entityNamed g (argCourse args) ->
  argCourse args ∉ name <$> created ->
  applyAssembly args w
  = (Thrown ("Entity '" +:+ argCourse args +:+ "' not found"),
     mkWorld (mkGraph (entities g ++ created) (relations g)) (sessionsFile w)).
Proof.
  intros g created Hlearned Hfree Hcourse Hnew.
  assert (Hcreate : createEntities created w
            = (Returned (mkGraph (entities g ++ created) (relations g)),
               mkWorld (mkGraph (entities g ++ created) (relations g)) (sessionsFile w))).
  { apply createEntities_accepted. intros e He [Hnamed | Htype].
    - by apply (Hfree e).
    - apply Htype. rewrite (learnedEntities_type _ _ _ He).
      apply inList_spec. reflexivity. }
  assert (Hshape : exists e0 rest, created = e0 :: rest).
  { unfold created, learnedEntities. rewrite Hlearned, imap_cons. eauto. }
  unfold applyAssembly.
  fold (learnedEntities (argDate args) (argConceptsLearned args)). fold created.
  clearbody created. destruct Hshape as (e0 & rest & ->).
  apply bind_thrown. cbn iota.
  rewrite (bind_returned _ _ _ _ _ Hcreate).
  apply bind_thrown. simpl containsRelations.
  apply createRelations_missing_source.
  simpl. intros (e & He & Hname). apply elem_of_app in He as [He | He].
  - apply Hcourse. by exists e.
  - apply Hnew. rewrite <- Hname. by apply list_elem_of_fmap_2.
Qed.

Lemma applyAssembly_leaves_unlinked_concepts_witness :
  let w := mkWorld Examples.semester Examples.noSessions in
  let args := mkArgs "2025-01-05" "Read chapter 3" "unknown" "" [ "Recursion" ] []
                "" "" [] in
  applyAssembly args w
  = (Thrown "Entity '' not found",
     mkWorld (mkGraph (entities Examples.semester
                       ++ [ mkEntity "Concept_20250105_1" "concept" [ "Recursion" ] ])
                (relations Examples.semester)) Examples.noSessions).
Proof.
  intros w args.
  apply (applyAssembly_leaves_unlinked_concepts args w "Recursion" []).
  - reflexivity.
  - intros e He. apply list_elem_of_singleton in He. subst e.
    rewrite <- hasEntity_spec. vm_compute. discriminate.
  - rewrite <- hasEntity_spec. vm_compute. discriminate.
  - intros Hin. apply list_elem_of_singleton in Hin. discriminate.
Defined.

Lemma findStage_app (l : list SessionItem) (x : SessionItem) (stageName : string) :
  findStage (l ++ [ x ]) stageName
  = match findStage l stageName with
    | Some r => Some r
    | None => findStage [ x ] stageName
    end.
Proof.
  unfold findStage. induction l as [| a l IH]; simpl; [done |].
  destruct a as [r | |]; simpl; try apply IH.
  destruct (srStage r =? stageName)%string; [done | apply IH].
Qed.

(** X22. The assembly reads, for each stage name, the first stage of that
    name in the session. A stage that arrives when the session already has
    one of its name (sent again without the revision flag) changes nothing
    in the assembled arguments, and neither does an item that is not an
    analysis stage. *)
Theorem assembleEndSessionArgs_first_wins (date : string) (l : list SessionItem)
    (x : SessionItem) :
  match x with
  | AnalysisStage r => is_Some (findStage l (srStage r))
  | _ => True
  end ->
  assembleEndSessionArgs date (l ++ [ x ]) = assembleEndSessionArgs date l.
Proof.
  intros Hx.
  assert (Hsame : forall nm, findStage (l ++ [ x ]) nm = findStage l nm).
  { intros nm. rewrite findStage_app.
    destruct (findStage l nm) as [r' |] eqn:Hnm; [done |].
    destruct x as [r | |]; try done.
    unfold findStage. simpl.
    destruct (String.eqb_spec (srStage r) nm) as [Heq | Hne]; [| done].
    rewrite Heq, Hnm in Hx. by destruct Hx. }
  unfold assembleEndSessionArgs. by rewrite !Hsame.
Qed.

Lemma assembleEndSessionArgs_first_wins_witness :
  let first := mkStageResult "summary" 1 "" (SummaryData "first" "1 hour" "CS101") false in
  let again := mkStageResult "summary" 1 "" (SummaryData "second" "2 hours" "CS102") false in
  assembleEndSessionArgs "2025-01-05" ([ AnalysisStage first ] ++ [ AnalysisStage again ])
  = assembleEndSessionArgs "2025-01-05" [ AnalysisStage first ]
  /\ argSummary (assembleEndSessionArgs "2025-01-05"
                   ([ AnalysisStage first ] ++ [ AnalysisStage again ])) = "first".
Proof.
  intros first again. split; [| reflexivity].
  apply (assembleEndSessionArgs_first_wins "2025-01-05" [ AnalysisStage first ]
           (AnalysisStage again)).
  eexists. reflexivity.
Defined.

(** * Further properties of the status report and of the server tools *)

(** ** getAssignmentStatus *)

Lemma targetsFrom_elem (g : KnowledgeGraph) (relType type source : string) (e : Entity) :
  e ∈ targetsFrom g relType type source <->
  exists r, r ∈ relations g /\ relationType r = relType /\ from r = source
            /\ findEntity g (to r) type = Some e.
Proof.
  unfold targetsFrom. rewrite list_elem_of_In, in_flat_map. split.
  - intros (r & Hr & He). apply list_elem_of_In in Hr.
    destruct (_ && _) eqn:Hc; [| inversion He].
    apply andb_true_iff in Hc as [Ht Hfrom]. apply String.eqb_eq in Ht, Hfrom.
    destruct (findEntity g (to r) type) as [e' |] eqn:Hf; [| inversion He].
    destruct He as [<- | []]. by exists r.
  - intros (r & Hr & Ht & Hfrom & Hf). exists r.
    split; [by apply list_elem_of_In |].
    rewrite Ht, Hfrom, !String.eqb_refl, Hf. simpl. by left.
Qed.

Lemma findEntity_None (g : KnowledgeGraph) (n type : string) :
  findEntity g n type = None <->
  forall e, e ∈ entities g -> name e = n -> entityType e <> type.
Proof.
  unfold findEntity. split.
  - intros Hnone e He Hn Ht. apply list_elem_of_In in He.
    pose proof (find_none _ _ Hnone e He) as Hno. simpl in Hno.
    by rewrite Hn, Ht, !String.eqb_refl in Hno.
  - intros Hall. destruct (List.find _ _) as [e |] eqn:Hf; [| done].
    apply find_some in Hf as [Hin Hp]. apply andb_true_iff in Hp as [Hn Ht].
    apply String.eqb_eq in Hn, Ht. apply list_elem_of_In in Hin.
    by destruct (Hall e Hin Hn).
Qed.

Lemma given_Some (arg : option string) (s : string) :
  given arg = Some s <-> arg = Some s /\ s <> "".
Proof.
  unfold given. destruct arg as [t |]; [| split; [discriminate | by intros [? _]]].
  destruct (truthy t) eqn:Ht.
  - apply truthy_spec in Ht. split; [by intros [= <-] | by intros [[= <-] _]].
  - split; [discriminate |]. intros [[= <-] Hs]. apply truthy_spec in Hs. congruence.
Qed.

Lemma remaining_spec (dueDate : option string) (parsed : string -> option Z) (now : Z) :
  match remaining dueDate parsed now with
  | (time, days, overdue) =>
      (overdue = true <->
         exists text due, dueDate = Some text /\ text <> "" /\ parsed text = Some due
                          /\ due < now)
      /\ (forall text due, dueDate = Some text -> text <> "" -> parsed text = Some due ->
            time = Some (Num (due - now))
            /\ exists d, days = Some (Num d) /\ isCeilingOf d (due - now) MS_PER_DAY)
      /\ (forall text, dueDate = Some text -> text <> "" -> parsed text = None ->
            time = Some NaN /\ days = Some NaN)
      /\ (dueDate = None \/ dueDate = Some "" -> time = None /\ days = None)
  end.
Proof.
  unfold remaining. destruct (given dueDate) as [text |] eqn:Hg.
  - apply given_Some in Hg as [-> Hne].
    destruct (parsed text) as [due |] eqn:Hp.
    + split; [| split; [| split]].
      * rewrite Z.ltb_lt. split.
        -- intros Hlt. exists text, due. repeat split; [done | done | lia].
        -- intros (t & d & [= <-] & _ & Hd & Hlt).
           rewrite Hp in Hd. injection Hd as <-. lia.
      * intros t d [= <-] _ Hd. rewrite Hp in Hd. injection Hd as <-.
        split; [done |]. eexists. split; [done |]. apply ceilDiv_spec. reflexivity.
      * intros t [= <-] _ Hd. congruence.
      * intros [H | H]; congruence.
    + split; [| split; [| split]].
      * split; [discriminate |]. intros (t & d & [= <-] & _ & Hd & _). congruence.
      * intros t d [= <-] _ Hd. congruence.
      * done.
      * intros [H | H]; congruence.
  - assert (Hcase : dueDate = None \/ dueDate = Some "").
    { destruct dueDate as [t |]; [| by left]. right.
      destruct (String.eqb_spec t "") as [-> | Hne]; [done |].
      assert (given (Some t) = Some t) by by apply given_Some. congruence. }
    split; [| split; [| split]].
    + split; [discriminate |]. intros (t & d & Ht & Hne & _). destruct Hcase; congruence.
    + intros t d Ht Hne. destruct Hcase; congruence.
    + intros t Ht Hne. destruct Hcase; congruence.
    + done.
Qed.

Section AssignmentStatus.

Variable Date_parse : string -> option Z.

Lemma getAssignmentStatus_returned (now : Z) (n : string) (w : World)
    (rep : AssignmentReport) :
  (getAssignmentStatus Date_parse now n w).1 = Returned rep ->
  let g := memoryFile w in
  exists assignment,
    findEntity g n "assignment" = Some assignment
    /\ arAssignment rep = assignment
    /\ arCourse rep = head (targetsFrom g "assigned_in" "course" n)
    /\ aiStatus (arInfo rep)
       = fieldOr (readField "Status:" (observations assignment)) "not_started"
    /\ aiDueDate (arInfo rep) = readField "Due:" (observations assignment)
    /\ remaining (aiDueDate (arInfo rep)) Date_parse now
       = (aiTimeRemaining (arInfo rep), aiDaysRemaining (arInfo rep),
          aiIsOverdue (arInfo rep))
    /\ arConcepts rep = targetsFrom g "covers" "concept" n
    /\ arResources rep
       = collectVia g "helps_with" "resource" (arConcepts rep)
           (sourcesInto g "helps_with" "resource" n)
    /\ arNotes rep
       = collectVia g "references" "note" (arConcepts rep)
           (sourcesInto g "created_for" "note" n).
Proof.
  intros Hret g. unfold getAssignmentStatus, mbind, IO_bind, loadGraph in Hret.
  fold g in Hret.
  destruct (findEntity g n "assignment") as [assignment |] eqn:Hfind; [| discriminate].
  exists assignment.
  destruct (remaining (readField "Due:" (observations assignment)) Date_parse now)
    as [[time days] overdue] eqn:Hrem.
  simpl in Hret. injection Hret as <-. simpl. by rewrite Hrem.
Qed.

(** X23. What [getAssignmentStatus] reports about time. The assignment is
    reported overdue exactly when its due text is not empty, parses as a
    date, and that date lies before now. For a parsed date the time
    remaining is due minus now and the days remaining its ceiling in days
    (so an assignment less than a day late is overdue with 0 days
    remaining); for a text that is no date both are NaN and the assignment
    is not overdue; without a due text both are absent. *)
Theorem getAssignmentStatus_timing (now : Z) (n : string) (w : World)
    (rep : AssignmentReport) :
  (getAssignmentStatus Date_parse now n w).1 = Returned rep ->
  let info := arInfo rep in
  (aiIsOverdue info = true <->
     exists text due, aiDueDate info = Some text /\ text <> ""
                      /\ Date_parse text = Some due /\ due < now)
  /\ (forall text due,
        aiDueDate info = Some text -> text <> "" -> Date_parse text = Some due ->
        aiTimeRemaining info = Some (Num (due - now))
        /\ exists d, aiDaysRemaining info = Some (Num d)
                     /\ isCeilingOf d (due - now) MS_PER_DAY)
  /\ (forall text,
        aiDueDate info = Some text -> text <> "" -> Date_parse text = None ->
        aiTimeRemaining info = Some NaN /\ aiDaysRemaining info = Some NaN)
  /\ (aiDueDate info = None \/ aiDueDate info = Some "" ->
      aiTimeRemaining info = None /\ aiDaysRemaining info = None).
Proof.
  intros Hret info.
  destruct (getAssignmentStatus_returned now n w rep Hret)
    as (a & _ & _ & _ & _ & _ & Hrem & _).
  pose proof (remaining_spec (aiDueDate (arInfo rep)) Date_parse now) as Hspec.
  by rewrite Hrem in Hspec.
Qed.

(** X24. [getAssignmentStatus] only reads: the world is never changed. It
    throws "Assignment '...' not found" exactly when no stored entity has
    the name together with the type assignment; otherwise the report holds
    the first such entity, as course the first stored course at the end of
    an assigned_in relation out of the assignment, and as concepts the
    stored concepts at the end of its covers relations. *)
Theorem getAssignmentStatus_found_or_not (now : Z) (n : string) (w : World) :
  let g := memoryFile w in
  let out := getAssignmentStatus Date_parse now n w in
  out.2 = w
  /\ (out.1 = Thrown ("Assignment '" +:+ n +:+ "' not found") <->
      forall e, e ∈ entities g -> name e = n -> entityType e <> "assignment")
  /\ (forall rep, out.1 = Returned rep ->
        findEntity g n "assignment" = Some (arAssignment rep)
        /\ (forall c, arCourse rep = Some c ->
              c ∈ entities g /\ entityType c = "course"
              /\ exists r, r ∈ relations g /\ relationType r = "assigned_in"
                           /\ from r = n /\ to r = name c)
        /\ (forall c, c ∈ arConcepts rep <->
              exists r, r ∈ relations g /\ relationType r = "covers" /\ from r = n
                        /\ findEntity g (to r) "concept" = Some c)).
Proof.
  intros g out. split; [| split].
  - unfold out, getAssignmentStatus, mbind, IO_bind, loadGraph. fold g.
    destruct (findEntity g n "assignment") as [a |]; [| done].
    by destruct (remaining _ _ _) as [[time days] overdue].
  - rewrite <- findEntity_None.
    unfold out, getAssignmentStatus, mbind, IO_bind, loadGraph. fold g.
    destruct (findEntity g n "assignment") as [a |]; [| done].
    destruct (remaining _ _ _) as [[time days] overdue]. simpl. split; discriminate.
  - intros rep Hret.
    destruct (getAssignmentStatus_returned now n w rep Hret)
      as (a & Hfind & Ha & Hcourse & _ & _ & _ & Hconcepts & _).
    fold g in Hfind, Hcourse, Hconcepts. split; [by rewrite Ha | split].
    + intros c Hc. rewrite Hcourse in Hc. apply head_Some_elem_of in Hc.
      apply targetsFrom_elem in Hc as (r & Hr & Ht & Hfrom & Hf).
      apply findEntity_Some in Hf as (Hin & Hname & Htype).
      split; [done | split; [done |]]. by exists r.
    + intros c. rewrite Hconcepts. apply targetsFrom_elem.
Qed.

Lemma sourcesInto_distinct (g : KnowledgeGraph) (relType type target : string) :
  uniqueTriples g -> NoDup (name <$> sourcesInto g relType type target).
Proof.
  unfold uniqueTriples, sourcesInto. generalize (relations g) as rs.
  induction rs as [| r rs IH]; intros Hnd; [constructor |].
  rewrite fmap_cons in Hnd. apply NoDup_cons in Hnd as [Hnin Hnd].
  cbn [flat_map]. rewrite fmap_app. specialize (IH Hnd).
  destruct (_ && _) eqn:Hc; [| done].
  destruct (findEntity g (from r) type) as [e |] eqn:Hf; [| done].
  simpl. apply NoDup_cons. split; [| done].
  intros Hin. apply list_elem_of_fmap in Hin as (e' & Hname & He').
  apply list_elem_of_In, in_flat_map in He' as (r' & Hr' & He').
  apply andb_true_iff in Hc as [Ht Hto]. apply String.eqb_eq in Ht, Hto.
  destruct ((relationType r' =? relType)%string && (to r' =? target)%string) eqn:Hc';
    [| inversion He'].
  destruct (findEntity g (from r') type) as [e'' |] eqn:Hf'; [| inversion He'].
  destruct He' as [<- | []].
  apply andb_true_iff in Hc' as [Ht' Hto']. apply String.eqb_eq in Ht', Hto'.
  apply findEntity_Some in Hf as (_ & Hn & _), Hf' as (_ & Hn' & _).
  apply Hnin. apply list_elem_of_fmap. exists r'.
  split; [| by apply list_elem_of_In].
  unfold triple. congruence.
Qed.

Lemma pushUnique_distinct (acc : list Entity) (e : Entity) :
  NoDup (name <$> acc) -> NoDup (name <$> pushUnique acc e).
Proof.
  intros Hnd. unfold pushUnique.
  destruct (existsb _ acc) eqn:Hex; [done |].
  rewrite fmap_app. apply NoDup_app. split; [done | split].
  - intros x Hx Hin. apply list_elem_of_singleton in Hin. subst x.
    apply list_elem_of_fmap in Hx as (r & Hname & Hr).
    apply not_true_iff_false in Hex. apply Hex, existsb_exists.
    exists r. split; [by apply list_elem_of_In | by apply String.eqb_eq].
  - apply NoDup_singleton.
Qed.

Lemma pushUnique_elem (acc : list Entity) (e x : Entity) :
  x ∈ pushUnique acc e -> x ∈ acc \/ x = e.
Proof.
  unfold pushUnique. destruct (existsb _ acc); [by left |].
  intros Hx. apply elem_of_app in Hx as [Hx | Hx]; [by left |].
  right. by apply list_elem_of_singleton.
Qed.

(** The nested loops keep whatever the additions keep. *)
Lemma collectVia_invariant (P : list Entity -> Prop) (g : KnowledgeGraph)
    (relType type : string) (concepts acc : list Entity) :
  (forall acc r e, P acc -> r ∈ relations g -> relationType r = relType ->
                   findEntity g (from r) type = Some e -> P (pushUnique acc e)) ->
  P acc -> P (collectVia g relType type concepts acc).
Proof.
  intros Hstep. unfold collectVia. revert acc.
  induction concepts as [| c concepts IH]; intros acc Hacc; [done |].
  simpl. apply IH.
  assert (Hsub : forall r, r ∈ relations g -> r ∈ relations g) by done.
  revert acc Hacc Hsub. generalize (relations g) at 1 3 as rs.
  induction rs as [| r rs IHrs]; intros acc Hacc Hsub; [done |].
  simpl. apply IHrs; [| intros r' Hr'; apply Hsub; by constructor].
  destruct (_ && _) eqn:Hc; [| done].
  destruct (findEntity g (from r) type) as [e |] eqn:Hf; [| done].
  apply andb_true_iff in Hc as [Ht _]. apply String.eqb_eq in Ht.
  apply (Hstep acc r e); [done | apply Hsub; constructor | done | done].
Qed.

(** X25. In a store without repeated relations, the resources and the
    notes that [getAssignmentStatus] reports carry pairwise different
    names; each is a stored entity of type resource, respectively note. *)
Theorem getAssignmentStatus_resources_distinct (now : Z) (n : string) (w : World)
    (rep : AssignmentReport) :
  uniqueTriples (memoryFile w) ->
  (getAssignmentStatus Date_parse now n w).1 = Returned rep ->
  NoDup (name <$> arResources rep)
  /\ NoDup (name <$> arNotes rep)
  /\ (forall e, e ∈ arResources rep ->
        e ∈ entities (memoryFile w) /\ entityType e = "resource")
  /\ (forall e, e ∈ arNotes rep ->
        e ∈ entities (memoryFile w) /\ entityType e = "note").
Proof.
  intros Hu Hret.
  destruct (getAssignmentStatus_returned now n w rep Hret)
    as (a & _ & _ & _ & _ & _ & _ & _ & Hres & Hnotes).
  set (g := memoryFile w) in *.
  assert (Hall : forall relType relType' type concepts,
            let l := collectVia g relType type concepts
                       (sourcesInto g relType' type n) in
            NoDup (name <$> l)
            /\ forall e, e ∈ l -> e ∈ entities g /\ entityType e = type).
  { intros relType relType' type concepts.
    apply (collectVia_invariant
             (fun l => NoDup (name <$> l)
                       /\ forall e, e ∈ l -> e ∈ entities g /\ entityType e = type)).
    - intros acc r e [Hnd Hin] _ _ Hf. split; [by apply pushUnique_distinct |].
      intros x Hx. apply pushUnique_elem in Hx as [Hx | ->]; [by apply Hin |].
      apply findEntity_Some in Hf as (He & _ & Ht). done.
    - split; [by apply sourcesInto_distinct |].
      intros e He. apply sourcesInto_elem in He as (r & _ & _ & _ & Hf).
      apply findEntity_Some in Hf as (He & _ & Ht). done. }
  rewrite Hres, Hnotes.
  destruct (Hall "helps_with" "helps_with" "resource" (arConcepts rep)) as [H1 H2].
  destruct (Hall "references" "created_for" "note" (arConcepts rep)) as [H3 H4].
  done.
Qed.

End AssignmentStatus.

Lemma getAssignmentStatus_timing_witness :
  let w := mkWorld Examples.semester Examples.noSessions in
  let out := getAssignmentStatus parseIsoDate Examples.noon5Jan "HW1" w in
  exists rep, out.1 = Returned rep
    /\ aiIsOverdue (arInfo rep) = false
    /\ aiTimeRemaining (arInfo rep) = Some (Num (1736467200000 - Examples.noon5Jan))
    /\ exists d, aiDaysRemaining (arInfo rep) = Some (Num d)
                 /\ isCeilingOf d (1736467200000 - Examples.noon5Jan) MS_PER_DAY.
Proof.
  intros w out.
  destruct (getAssignmentStatus parseIsoDate Examples.noon5Jan "HW1" w) as [o w']
    eqn:Hout.
  destruct o as [rep | msg]; [| vm_compute in Hout; discriminate].
  assert (Hret : (getAssignmentStatus parseIsoDate Examples.noon5Jan "HW1" w).1
                 = Returned rep) by by rewrite Hout.
  assert (Hdue : aiDueDate (arInfo rep) = Some "2025-01-10").
  { vm_compute in Hout. by injection Hout as <- _. }
  assert (Hover : aiIsOverdue (arInfo rep) = false).
  { vm_compute in Hout. by injection Hout as <- _. }
  destruct (getAssignmentStatus_timing parseIsoDate Examples.noon5Jan "HW1" w rep Hret)
    as (_ & Hvalid & _).
  destruct (Hvalid "2025-01-10" 1736467200000 Hdue) as [Htime Hdays];
    [discriminate | reflexivity |].
  exists rep. unfold out. simpl. done.
Defined.

Lemma getAssignmentStatus_resources_distinct_witness :
  let g := mkGraph
    [ mkEntity "HW1" "assignment" []; mkEntity "Recursion" "concept" [];
      mkEntity "Textbook" "resource" [] ]
    [ mkRelation "HW1" "Recursion" "covers" None;
      mkRelation "Textbook" "HW1" "helps_with" None;
      mkRelation "Textbook" "Recursion" "helps_with" None ] in
  let w := mkWorld g Examples.noSessions in
  exists rep,
    (getAssignmentStatus parseIsoDate Examples.noon5Jan "HW1" w).1 = Returned rep
    /\ arResources rep = [ mkEntity "Textbook" "resource" [] ]
    /\ NoDup (name <$> arResources rep).
Proof.
  intros g w.
  assert (Hu : uniqueTriples (memoryFile w)).
  { unfold uniqueTriples. apply (bool_decide_unpack _). vm_compute. reflexivity. }
  eexists. split; [reflexivity |]. split; [reflexivity |].
  apply (getAssignmentStatus_resources_distinct parseIsoDate Examples.noon5Jan "HW1" w _ Hu
           eq_refl).
Defined.

(** ** getCurrentTerm *)

Lemma valid_type_no_prefix (t : string) :
  t ∈ validEntityTypes -> includes (toLowerCase t) "entitytype:term" = false.
Proof.
  unfold validEntityTypes. rewrite !elem_of_cons.
  intros H. repeat (destruct H as [-> | H]; [reflexivity |]). inversion H.
Qed.

(** X26. [getCurrentTerm] hands the query "entityType:term status:active"
    to [searchNodes], which knows no field prefixes and looks for the two
    terms as text. In a store whose entity types are valid, no current term
    is found unless the text "entitytype:term" occurs (in lower case) in a
    name or an observation: a term entity with the observation
    "status:active" is not enough. *)
Theorem getCurrentTerm_needs_literal_text (w : World) :
  let g := memoryFile w in
  (forall e, e ∈ entities g -> entityType e ∈ validEntityTypes) ->
  (forall e, e ∈ entities g ->
     ~ substringOf "entitytype:term" (toLowerCase (name e))
     /\ forall o, o ∈ observations e -> ~ substringOf "entitytype:term" (toLowerCase o)) ->
  getCurrentTerm w = (Returned None, w).
Proof.
  intros g Htypes Hno.
  assert (Hnone : forall e, e ∈ entities g ->
            matchesAllTerms (splitWs (toLowerCase "entityType:term status:active")) e
            = false).
  { intros e He. apply not_true_iff_false. intros Hm.
    assert (Hterm : matchesTerm e "entitytype:term" = true).
    { unfold matchesAllTerms in Hm. rewrite forallb_forall in Hm.
      apply Hm. vm_compute. by left. }
    apply matchesTerm_spec in Hterm as [Hn | [Ht | (o & Ho & Hsub)]].
    - by apply (Hno e He).
    - apply includes_spec in Ht. rewrite valid_type_no_prefix in Ht; [done |].
      by apply Htypes.
    - by apply (proj2 (Hno e He) o). }
  unfold getCurrentTerm, searchNodes, mbind, IO_bind, loadGraph. fold g. simpl.
  rewrite List_filter_none; [done |].
  intros e He. apply not_true_iff_false. intros Hhas.
  apply has_spec, matchingNames_spec in Hhas as (e' & He' & Hm & _).
  by rewrite Hnone in Hm.
Qed.

Lemma getCurrentTerm_needs_literal_text_witness :
  getCurrentTerm
    (mkWorld (mkGraph [ mkEntity "Spring 2025" "term" [ "status:active" ] ] [])
       Examples.noSessions)
  = (Returned None,
     mkWorld (mkGraph [ mkEntity "Spring 2025" "term" [ "status:active" ] ] [])
       Examples.noSessions).
Proof.
  apply getCurrentTerm_needs_literal_text.
  - intros e He. apply list_elem_of_singleton in He. subst e.
    apply inList_spec. reflexivity.
  - intros e He. apply list_elem_of_singleton in He. subst e. split.
    + rewrite <- includes_spec. simpl. vm_compute. discriminate.
    + intros o Ho. apply list_elem_of_singleton in Ho. subst o.
      rewrite <- includes_spec. vm_compute. discriminate.
Defined.

(** ** buildcontext and deletecontext *)

Lemma tryCatch_returned {A : Type} (m : IO A) (handler : string -> IO A)
    (w w1 : World) (a : A) :
  m w = (Returned a, w1) -> tryCatch m handler w = (Returned a, w1).
Proof. intros H. unfold tryCatch. by rewrite H. Qed.

Lemma tryCatch_thrown {A : Type} (m : IO A) (handler : string -> IO A)
    (w w1 : World) (msg : string) :
  m w = (Thrown msg, w1) -> tryCatch m handler w = handler msg w1.
Proof. intros H. unfold tryCatch. by rewrite H. Qed.

Lemma updateFirst_named (n : string) (f : Entity -> Entity) (es : list Entity)
    (m : string) :
  (forall e, name (f e) = name e) ->
  existsb (fun e => (name e =? m)%string) (updateFirst (fun e => (name e =? n)%string) f es)
  = existsb (fun e => (name e =? m)%string) es.
Proof.
  intros Hf. induction es as [| a es IH]; [done |].
  cbn [updateFirst]. destruct (name a =? n)%string; simpl; [by rewrite Hf | by rewrite IH].
Qed.

(** X27. An observations request of [buildcontext] is applied item by item
    and is not undone when a later item fails: when the first item names a
    stored entity and the second one does not, the answer is the failure
    "Entity '...' not found" of the second item and the observations of the
    first item have been added and saved. The items after the failing one
    are not looked at. *)
Theorem buildcontext_observations_partly_applied (w : World)
    (good bad : ObservationItem) (rest : list ObservationItem)
    (texts texts' : list string) (i : nat) (e : Entity) :
  let g := memoryFile w in
  oiContents good = Some texts -> oiContents bad = Some texts' ->
  oiEntityName bad <> "" ->
  firstNamed (entities g) (oiEntityName good) i e ->
  oiEntityName good <> "" ->
  ~ entityNamed g (oiEntityName bad) ->
  let e' := mkEntity (name e) (entityType e) (observations e ++ texts) in
  buildcontext (BuildObservations (good :: bad :: rest)) w
  = (Returned (Refused ("Entity '" +:+ oiEntityName bad +:+ "' not found")),
     mkWorld (mkGraph (<[ i := e' ]> (entities g)) (relations g)) (sessionsFile w)).
Proof.
  intros g Hgood Hbad Hbadname Hfirst Hgoodname Hmissing e'.
  apply truthy_spec in Hgoodname, Hbadname.
  destruct (updateFirst_insert (oiEntityName good)
              (fun e => mkEntity (name e) (entityType e) (observations e ++ texts))
              (entities g) i e Hfirst) as [Hupd Hfind].
  set (w1 := mkWorld (mkGraph (<[ i := e' ]> (entities g)) (relations g)) (sessionsFile w)).
  assert (Hfirststep : addItem good w = (Returned tt, w1)).
  { unfold addItem. rewrite Hgood, Hgoodname.
    unfold addObservations, mbind, IO_bind, loadGraph. fold g. rewrite Hfind. simpl.
    unfold saveGraph, mret, IO_ret. by rewrite Hupd. }
  assert (Hstill : ~ entityNamed (memoryFile w1) (oiEntityName bad)).
  { rewrite <- hasEntity_spec in *. unfold hasEntity in *.
    unfold w1, e'. cbn [memoryFile entities]. rewrite <- Hupd.
    by rewrite updateFirst_named. }
  assert (Hsecond : addItem bad w1
            = (Thrown ("Entity '" +:+ oiEntityName bad +:+ "' not found"), w1)).
  { unfold addItem. rewrite Hbad, Hbadname.
    apply bind_thrown. unfold addObservations, mbind, IO_bind, loadGraph.
    apply find_named_None in Hstill. by rewrite Hstill. }
  unfold buildcontext.
  erewrite tryCatch_thrown; [reflexivity |].
  apply bind_thrown. cbn [forOf].
  rewrite (bind_returned _ _ _ _ _ Hfirststep).
  by apply bind_thrown.
Qed.

Lemma buildcontext_observations_partly_applied_witness :
  let w := mkWorld Examples.semester Examples.noSessions in
  buildcontext
    (BuildObservations
       [ mkObservationItem "CS101" (Some [ "Code: CS101" ]);
         mkObservationItem "CS999" (Some [ "Code: CS999" ]);
         mkObservationItem "HW1" (Some [ "Points: 10" ]) ]) w
  = (Returned (Refused "Entity 'CS999' not found"),
     mkWorld
       (mkGraph
          [ mkEntity "Spring 2025" "term" [];
            mkEntity "CS101" "course" [ "Code: CS101" ];
            Examples.hw1 ]
          (relations Examples.semester)) Examples.noSessions).
Proof.
  intros w.
  apply (buildcontext_observations_partly_applied w
           (mkObservationItem "CS101" (Some [ "Code: CS101" ]))
           (mkObservationItem "CS999" (Some [ "Code: CS999" ]))
           [ mkObservationItem "HW1" (Some [ "Points: 10" ]) ]
           [ "Code: CS101" ] [ "Code: CS999" ] 1%nat Examples.cs101).
  - reflexivity.
  - reflexivity.
  - discriminate.
  - split; [reflexivity | split; [reflexivity |]].
    intros j e' Hj Hlook. destruct j as [| j]; [| lia].
    injection Hlook as <-. discriminate.
  - discriminate.
  - rewrite <- hasEntity_spec. vm_compute. discriminate.
Defined.

(** X28. [buildcontext] checks the entity types of the whole list before
    it hands the list to [createEntities]: when some listed entity has an
    invalid type, the answer is a failure and nothing is stored, also when
    an earlier entity of the list bears a stored name; when no listed
    entity is refused, the answer holds the graph with the list appended,
    which is what is stored. *)
Theorem buildcontext_entities (w : World) (data : list Entity) :
  let g := memoryFile w in
  let out := buildcontext (BuildEntities data) w in
  ((exists e, e ∈ data /\ entityRefused g e) ->
     out.2 = w /\ exists msg, out.1 = Returned (Refused msg))
  /\ ((forall e, e ∈ data -> ~ entityRefused g e) ->
      out = (Returned (Created (mkGraph (entities g ++ data) (relations g))),
             mkWorld (mkGraph (entities g ++ data) (relations g)) (sessionsFile w))).
Proof.
  intros g out.
  pose proof (forOf_check (fun e => negb (isValidEntityType (entityType e)))
                (fun e => validateEntityType (entityType e)) data w) as [Hvalid Hinvalid].
  { intros e _ He. unfold validateEntityType. by rewrite He. }
  { intros e _ He. unfold validateEntityType. rewrite He. eauto. }
  split.
  - intros Hex. unfold out, buildcontext.
    destruct (existsb (fun e => negb (isValidEntityType (entityType e))) data) eqn:Hty.
    + destruct (Hinvalid eq_refl) as [msg Hmsg].
      erewrite tryCatch_thrown; [| apply bind_thrown, Hmsg]. simpl. eauto.
    + specialize (Hvalid eq_refl).
      pose proof (createEntities_checks g w data) as [_ Hbad].
      destruct Hbad as [msg Hmsg].
      { apply existsb_exists. destruct Hex as (e & He & Href).
        exists e. split; [by apply list_elem_of_In | by apply entityRefused_spec]. }
      erewrite tryCatch_thrown; [simpl; eauto |].
      rewrite (bind_returned _ _ _ _ _ Hvalid).
      apply bind_thrown. unfold createEntities, mbind, IO_bind, loadGraph.
      fold g. by rewrite Hmsg.
  - intros Hall. unfold out, buildcontext.
    apply tryCatch_returned.
    rewrite (bind_returned _ _ w w tt).
    + rewrite (bind_returned _ _ _ _ _ (createEntities_accepted w data Hall)). done.
    + apply Hvalid. apply not_true_iff_false. intros Hex.
      apply existsb_exists in Hex as (e & He & Hty).
      apply (Hall e); [by apply list_elem_of_In |]. right.
      rewrite <- inList_spec. unfold isValidEntityType in Hty.
      by apply negb_true_iff, not_true_iff_false in Hty.
Qed.

Lemma buildcontext_entities_witness :
  let w := mkWorld Examples.semester Examples.noSessions in
  let out := buildcontext (BuildEntities [ mkEntity "CS101" "course" [];
                                           mkEntity "Quiz" "quiz" [] ]) w in
  out.2 = w /\ exists msg, out.1 = Returned (Refused msg).
Proof.
  intros w out.
  apply (proj1 (buildcontext_entities w [ mkEntity "CS101" "course" [];
                                          mkEntity "Quiz" "quiz" [] ])).
  exists (mkEntity "CS101" "course" []). split; [constructor |].
  left. rewrite <- hasEntity_spec. reflexivity.
Defined.

(** X29. [deletecontext] counts what was asked for, not what was deleted.
    In a store whose relations join stored entities, a request to delete
    entities none of which is stored changes nothing and is answered with
    the success message "Deleted n entities", n being the length of the
    request. *)
Theorem deletecontext_counts_the_request (w : World) (data : list string) :
  endpointsExist (memoryFile w) ->
  (forall n, n ∈ data -> ~ entityNamed (memoryFile w) n) ->
  deletecontext (DeleteEntities data) w
  = (Returned (Done ("Deleted " +:+ pretty (length data) +:+ " entities")), w).
Proof.
  intros Hends Hnone.
  assert (Hout : forall n, entityNamed (memoryFile w) n -> inList n data = false).
  { intros n Hn. apply not_true_iff_false. intros Hin. apply inList_spec in Hin.
    by apply (Hnone n). }
  unfold deletecontext. apply tryCatch_returned.
  unfold mbind, IO_bind, deleteEntities, loadGraph, saveGraph. simpl.
  rewrite !List_filter_all.
  - by rewrite world_eta.
  - intros r Hr. destruct (Hends r Hr) as [Hfrom Hto].
    by rewrite (Hout _ Hfrom), (Hout _ Hto).
  - intros e He. rewrite Hout; [done |]. by exists e.
Qed.

Lemma deletecontext_counts_the_request_witness :
  let w := mkWorld Examples.semester Examples.noSessions in
  deletecontext (DeleteEntities [ "Nobody"; "Nothing" ]) w
  = (Returned (Done "Deleted 2 entities"), w).
Proof.
  intros w.
  apply (deletecontext_counts_the_request w [ "Nobody"; "Nothing" ]).
  - intros r Hr. simpl in Hr. rewrite !elem_of_cons in Hr.
    destruct Hr as [-> | [-> | Hr]]; [| | inversion Hr];
      rewrite <- !hasEntity_spec; split; reflexivity.
  - intros n Hn. rewrite <- hasEntity_spec. rewrite !elem_of_cons in Hn.
    destruct Hn as [-> | [-> | Hn]]; [| | inversion Hn]; vm_compute; discriminate.
Defined.
